(** * SC6103 booking client: wire codec and invocation engine

    A shallow embedding of [src/client/wire_codec.c], [src/client/protocol.h]
    and [src/client/client_main.c], and the properties of the design
    document checked against it.

    Conventions.
    - A C array ([uint8_t buf[N]], [char out[N]]) is a [list byte]; a pointer
      into it is the array together with an offset ([buf + offset]).  An
      access outside the array is undefined behaviour in C: the embedding
      returns [Overrun] there instead of a value.
    - Fixed-width integers are [Z] with the conversion written where the C
      code narrows or may wrap ([to_uint16], [to_uint32], [to_int], ...).
    - [htons]/[htonl] and the [memcpy] of an integer object depend on the
      byte order of the host; the embedding is parametric in it.
    - System calls ([sendto], [select], [recvfrom]) are answered by an
      oracle, and every call is recorded in a trace together with what the
      program prints. *)

From Stdlib Require Import ZArith List Lia Bool.
From Stdlib Require Import Strings.String.
From Stdlib Require Import Strings.Byte.
Import ListNotations.

Local Open Scope Z_scope.

(* ================================================================= *)
(** ** Bytes, arrays and bounds-checked accesses *)

Abbreviation byte := Init.Byte.byte.

Definition byte_to_Z (b : byte) : Z := Z.of_N (Byte.to_N b).

Definition byte_of_Z (z : Z) : byte :=
  match Byte.of_N (Z.to_N (z mod 256)) with
  | Some b => b
  | None => Byte.x00
  end.

(** Result of a C function that touches memory: a value, or an access
    outside the array it was handed. *)
Inductive access (A : Type) : Type :=
| Ret (a : A)
| Overrun.
Arguments Ret {A} a.
Arguments Overrun {A}.

Definition bind {A B : Type} (m : access A) (k : A -> access B) : access B :=
  match m with
  | Ret a => k a
  | Overrun => Overrun
  end.

Notation "x <- m ;; k" := (bind m (fun x => k))
  (at level 61, m at next level, right associativity).
Notation "' pat <- m ;; k" := (bind m (fun x => match x with pat => k end))
  (at level 61, pat pattern, m at next level, right associativity).

Definition buffer := list byte.

Definition len {A : Type} (l : list A) : Z := Z.of_nat (List.length l).

Definition in_bounds (b : buffer) (p n : Z) : bool :=
  (0 <=? p) && (0 <=? n) && (p + n <=? len b).

(** Read [n] bytes of [b] starting at offset [p]. *)
Definition load (b : buffer) (p n : Z) : access (list byte) :=
  if in_bounds b p n
  then Ret (firstn (Z.to_nat n) (skipn (Z.to_nat p) b))
  else Overrun.

(** Overwrite [b] at offset [p] with the bytes [src]. *)
Definition store (b : buffer) (p : Z) (src : list byte) : access buffer :=
  if in_bounds b p (len src)
  then Ret (firstn (Z.to_nat p) b ++ src ++ skipn (Z.to_nat (p + len src)) b)
  else Overrun.

(** [memcpy(dst + p, src + q, n)] between two distinct arrays. *)
Definition memcpy (dst : buffer) (p : Z) (src : buffer) (q n : Z) : access buffer :=
  bytes <- load src q n ;;
  store dst p bytes.

(** [strlen]: the char array must hold a terminating NUL. *)
Fixpoint strlen (str : list byte) : access Z :=
  match str with
  | [] => Overrun
  | c :: rest =>
      if Byte.eqb c Byte.x00 then Ret 0
      else n <- strlen rest ;; Ret (n + 1)
  end.

(** The text of a C string: the bytes before the first NUL. *)
Fixpoint c_str (str : list byte) : list byte :=
  match str with
  | [] => []
  | c :: rest => if Byte.eqb c Byte.x00 then [] else c :: c_str rest
  end.

(* ================================================================= *)
(** ** Fixed-width integers *)

Definition to_uint16 (z : Z) : Z := z mod 2 ^ 16.
Definition to_uint32 (z : Z) : Z := z mod 2 ^ 32.
Definition to_int (z : Z) : Z := (z + 2 ^ 31) mod 2 ^ 32 - 2 ^ 31.
Definition to_int64 (z : Z) : Z := (z + 2 ^ 63) mod 2 ^ 64 - 2 ^ 63.

Definition INT_MAX : Z := 2 ^ 31 - 1.
Definition INT_MIN : Z := - 2 ^ 31.

Definition is_uint16 (z : Z) : Prop := 0 <= z < 2 ^ 16.
Definition is_uint32 (z : Z) : Prop := 0 <= z < 2 ^ 32.
Definition is_int (z : Z) : Prop := INT_MIN <= z <= INT_MAX.
Definition is_int64 (z : Z) : Prop := - 2 ^ 63 <= z < 2 ^ 63.

(** Little-endian digits of the low [n] bytes of [v], and their value. *)
Fixpoint le_bytes (n : nat) (v : Z) : list byte :=
  match n with
  | O => []
  | S n' => byte_of_Z v :: le_bytes n' (v / 256)
  end.

Fixpoint le_value (bs : list byte) : Z :=
  match bs with
  | [] => 0
  | b :: rest => byte_to_Z b + 256 * le_value rest
  end.

(** Big-endian (network order) bytes. *)
Definition be_bytes (n : nat) (v : Z) : list byte := rev (le_bytes n v).
Definition be_value (bs : list byte) : Z := le_value (rev bs).

Inductive endianness : Type := LittleEndian | BigEndian.

(* ================================================================= *)
(** ** protocol.h *)

Definition PROTOCOL_VERSION : Z := 1.

Definition OP_QUERY_AVAIL : Z := 0x0001.
Definition OP_BOOK : Z := 0x0002.
Definition OP_CHANGE_BOOKING : Z := 0x0003.
Definition OP_MONITOR : Z := 0x0004.
Definition OP_CUSTOM_IDEMPOTENT : Z := 0x1001.
Definition OP_CUSTOM_NON_IDEMPOTENT : Z := 0x1002.

Definition OP_ERROR_MASK : Z := 0x8000.

Definition ERR_CONFLICT : Z := 1.
Definition ERR_NOT_FOUND : Z := 2.
Definition ERR_BAD_REQUEST : Z := 3.
Definition ERR_INTERNAL : Z := 4.

Definition FLAG_AT_MOST_ONCE : Z := Z.shiftl 1 0.
Definition FLAG_IS_CALLBACK : Z := Z.shiftl 1 1.

Definition HEADER_LEN : Z := 16.

Record Header : Type := mkHeader {
  version : Z;      (* uint16_t *)
  opCode : Z;       (* uint16_t *)
  requestId : Z;    (* uint32_t *)
  flags : Z;        (* uint32_t *)
  payloadLen : Z    (* uint32_t *)
}.

Definition header_wf (h : Header) : Prop :=
  is_uint16 (version h) /\ is_uint16 (opCode h) /\
  is_uint32 (requestId h) /\ is_uint32 (flags h) /\ is_uint32 (payloadLen h).

(** The wire layout of the header as the design document gives it: the
    five fields in order, each big-endian, nothing in between.  The two
    definitions are what [write_header] and [read_header] are compared
    with. *)
Definition header_wire (h : Header) : list byte :=
  be_bytes 2 (version h) ++ be_bytes 2 (opCode h) ++
  be_bytes 4 (requestId h) ++ be_bytes 4 (flags h) ++
  be_bytes 4 (payloadLen h).

Definition slice (bs : list byte) (i n : nat) : list byte :=
  firstn n (skipn i bs).

Definition header_of_wire (bs : list byte) : Header :=
  {| version := be_value (slice bs 0 2);
     opCode := be_value (slice bs 2 2);
     requestId := be_value (slice bs 4 4);
     flags := be_value (slice bs 8 4);
     payloadLen := be_value (slice bs 12 4) |}.

Section Client.

(** Byte order of the machine the client runs on. *)
Variable host : endianness.

(** Object representation of an [n]-byte unsigned integer in host memory. *)
Definition host_bytes (n : nat) (v : Z) : list byte :=
  match host with
  | LittleEndian => le_bytes n v
  | BigEndian => be_bytes n v
  end.

Definition host_value (bs : list byte) : Z :=
  match host with
  | LittleEndian => le_value bs
  | BigEndian => be_value bs
  end.

(** [htons]/[htonl]: the host integer whose object representation is the
    network-order encoding of the argument; [ntohs]/[ntohl] the converse. *)
Definition htons (v : Z) : Z := host_value (be_bytes 2 v).
Definition htonl (v : Z) : Z := host_value (be_bytes 4 v).
Definition ntohs (v : Z) : Z := be_value (host_bytes 2 v).
Definition ntohl (v : Z) : Z := be_value (host_bytes 4 v).

(* ================================================================= *)
(** ** wire_codec.c *)

(** Every writer takes the array and the offset its [buf] argument points
    at, and returns the [int] result with the updated array.  Every reader
    returns the [int] result with the value stored through the out
    pointer. *)

Definition write_u16 (buf : buffer) (p : Z) (val : Z) : access (Z * buffer) :=
  let net := htons (to_uint16 val) in
  buf <- store buf p (host_bytes 2 net) ;;
  Ret (2, buf).

Definition write_u32 (buf : buffer) (p : Z) (val : Z) : access (Z * buffer) :=
  let net := htonl (to_uint32 val) in
  buf <- store buf p (host_bytes 4 net) ;;
  Ret (4, buf).

Definition write_i64 (buf : buffer) (p : Z) (val : Z) : access (Z * buffer) :=
  let high := to_uint32 (Z.land (Z.shiftr val 32) 0xFFFFFFFF) in
  let low := to_uint32 (Z.land val 0xFFFFFFFF) in
  let offset := 0 in
  '(n, buf) <- write_u32 buf (p + offset) high ;;
  let offset := offset + n in
  '(n, buf) <- write_u32 buf (p + offset) low ;;
  let offset := offset + n in
  Ret (offset, buf).

Definition read_u16 (buf : buffer) (p : Z) : access (Z * Z) :=
  net <- load buf p 2 ;;
  Ret (2, ntohs (host_value net)).

Definition read_u32 (buf : buffer) (p : Z) : access (Z * Z) :=
  net <- load buf p 4 ;;
  Ret (4, ntohl (host_value net)).

Definition read_i64 (buf : buffer) (p : Z) : access (Z * Z) :=
  let offset := 0 in
  '(n, high) <- read_u32 buf (p + offset) ;;
  let offset := offset + n in
  '(n, low) <- read_u32 buf (p + offset) ;;
  let offset := offset + n in
  Ret (offset, Z.lor (to_int64 (Z.shiftl high 32)) low).

Definition write_header (buf : buffer) (p : Z) (h : Header) : access (Z * buffer) :=
  let offset := 0 in
  '(n, buf) <- write_u16 buf (p + offset) (version h) ;;
  let offset := offset + n in
  '(n, buf) <- write_u16 buf (p + offset) (opCode h) ;;
  let offset := offset + n in
  '(n, buf) <- write_u32 buf (p + offset) (requestId h) ;;
  let offset := offset + n in
  '(n, buf) <- write_u32 buf (p + offset) (flags h) ;;
  let offset := offset + n in
  '(n, buf) <- write_u32 buf (p + offset) (payloadLen h) ;;
  let offset := offset + n in
  Ret (offset, buf).

Definition read_header (buf : buffer) (p : Z) : access (Z * Header) :=
  let offset := 0 in
  '(n, h_version) <- read_u16 buf (p + offset) ;;
  let offset := offset + n in
  '(n, h_opCode) <- read_u16 buf (p + offset) ;;
  let offset := offset + n in
  '(n, h_requestId) <- read_u32 buf (p + offset) ;;
  let offset := offset + n in
  '(n, h_flags) <- read_u32 buf (p + offset) ;;
  let offset := offset + n in
  '(n, h_payloadLen) <- read_u32 buf (p + offset) ;;
  let offset := offset + n in
  Ret (offset, mkHeader h_version h_opCode h_requestId h_flags h_payloadLen).

(** [str] is the char array [const char *str] points into. *)
Definition write_string (buf : buffer) (p : Z) (str : list byte) : access (Z * buffer) :=
  l <- strlen str ;;
  let l := if 0xFFFF <? l then 0xFFFF else l in
  let offset := 0 in
  '(n, buf) <- write_u16 buf (p + offset) (to_uint16 l) ;;
  let offset := offset + n in
  buf <- memcpy buf (p + offset) str 0 l ;;
  let offset := to_int (offset + l) in
  Ret (offset, buf).

(** [out] is the caller's char array, [max_len] the capacity the caller
    declares for it.  On [-1] the array is left as it was. *)
Definition read_string (buf : buffer) (p : Z) (out : buffer) (max_len : Z)
  : access (Z * buffer) :=
  let offset := 0 in
  '(n, l) <- read_u16 buf (p + offset) ;;
  let offset := offset + n in
  if max_len <=? l then Ret (-1, out)
  else
    out <- memcpy out 0 buf (p + offset) l ;;
    out <- store out l [Byte.x00] ;;
    let offset := to_int (offset + l) in
    Ret (offset, out).

(* ================================================================= *)
(** ** client_main.c: the invocation engine *)

Definition MAX_DGRAM_SIZE : Z := 65536.

(** The lines the client prints, by format string. *)
Inductive message : Type :=
| MsgRetryTimeout (n total : Z)       (* "[retry %d/%d] timeout, retrying..." *)
| MsgFailedAfter (total : Z)          (* "Failed after %d retries" *)
| MsgCommandFailed (what : string)    (* "Query failed", "Book failed", ... *)
| MsgServerError                      (* "Server error response" *)
| MsgAvailableIntervals (count : Z)   (* "Available intervals: %u" *)
| MsgInterval (start stop : Z)        (* "  [%lld, %lld]" *)
| MsgBookingCreated (id : Z)          (* "Booking created: id=%lld" *)
| MsgUsageCounter (facility : list byte) (n : Z)
| MsgBookingChanged (new_start new_end : Z)
| MsgMonitorRegistered (facility : list byte) (duration port : Z)
| MsgListening (port : Z)
| MsgWaiting
| MsgMonitorRefused (ok : Z)          (* "Monitor registration failed (ok=%u)" *)
| MsgScheduleReset (facility : list byte) (removed : Z)
| MsgCallbackReceived (op id fl : Z)  (* "=== Callback received ===" and fields *)
| MsgAvailabilityUpdated (count : Z)
| MsgCallbackEnd.                     (* "========================" *)

(** What the process does that its environment can observe. *)
Inductive event : Type :=
| EvSendto (dgram : list byte)
| EvSelect (tv_sec tv_usec : Z)
| EvRecvfrom (resp_max : Z)
| EvPerror (what : string)
| EvStderr (m : message)
| EvStdout (m : message).

(** The network as the request socket sees it.  Index [k] is the number of
    the loop iteration of [udp_invoke] (from 0) in which the call is made:
    the value [sendto] returns, the value [select] returns, and what
    [recvfrom] delivers ([None]: it fails with [-1]). *)
Record transport : Type := mkTransport {
  sendto_result : nat -> Z;
  select_result : nat -> Z;
  recvfrom_result : nat -> option (list byte)
}.

(** How a run of a function with a loop ends: it returns, it accesses
    memory outside an array, or it is still running when the fuel of the
    embedding is used up. *)
Inductive completion (A : Type) : Type :=
| Returned (a : A)
| Fault
| Unfinished.
#[global] Arguments Returned {A} a.
#[global] Arguments Fault {A}.
#[global] Arguments Unfinished {A}.

(** [next_request_id] on the global counter [g_request_id]: the new value
    of the counter, which is also the value returned. *)
Definition next_request_id (g_request_id : Z) : Z :=
  to_uint32 (g_request_id + 1).

(** The [for] loop of [udp_invoke], one iteration per unit of fuel.
    [k] counts the iterations made so far, [attempt] is the C loop
    variable, [tr] the trace so far. *)
Fixpoint udp_invoke_loop (fuel : nat) (net : transport)
    (request : buffer) (req_len : Z) (response : buffer) (resp_max : Z)
    (timeout_ms max_retries : Z) (k : nat) (attempt : Z) (tr : list event)
  : completion (Z * buffer) * list event :=
  match fuel with
  | O => (Unfinished, tr)
  | S fuel =>
    if attempt <=? max_retries then
      match load request 0 (to_int req_len) with
      | Overrun => (Fault, tr)
      | Ret dgram =>
        let tr := tr ++ [EvSendto dgram] in
        let sent := sendto_result net k in
        if sent <? 0 then
          udp_invoke_loop fuel net request req_len response resp_max
            timeout_ms max_retries (S k) (to_int (attempt + 1))
            (tr ++ [EvPerror "sendto failed"])
        else
          let tv_sec := Z.quot timeout_ms 1000 in
          let tv_usec := Z.rem timeout_ms 1000 * 1000 in
          let tr := tr ++ [EvSelect tv_sec tv_usec] in
          let sel := select_result net k in
          if sel <? 0 then
            (Returned (-1, response), tr ++ [EvPerror "select failed"])
          else if sel =? 0 then
            udp_invoke_loop fuel net request req_len response resp_max
              timeout_ms max_retries (S k) (to_int (attempt + 1))
              (tr ++ [EvStdout (MsgRetryTimeout (to_int (attempt + 1))
                                                (to_int (max_retries + 1)))])
          else
            let tr := tr ++ [EvRecvfrom (to_int resp_max)] in
            match recvfrom_result net k with
            | None =>
                (Returned (-1, response), tr ++ [EvPerror "recvfrom failed"])
            | Some d =>
                let d := firstn (Z.to_nat (to_int resp_max)) d in
                match store response 0 d with
                | Overrun => (Fault, tr)
                | Ret response => (Returned (len d, response), tr)
                end
            end
      end
    else
      (Returned (-1, response),
       tr ++ [EvStderr (MsgFailedAfter (to_int (max_retries + 1)))])
  end.

Definition udp_invoke (fuel : nat) (net : transport)
    (request : buffer) (req_len : Z) (response : buffer) (resp_max : Z)
    (timeout_ms max_retries : Z) : completion (Z * buffer) * list event :=
  udp_invoke_loop fuel net request req_len response resp_max
    timeout_ms max_retries 0%nat 0 [].

(** The datagrams handed to [sendto], in order. *)
Fixpoint sent_datagrams (tr : list event) : list (list byte) :=
  match tr with
  | [] => []
  | EvSendto d :: rest => d :: sent_datagrams rest
  | _ :: rest => sent_datagrams rest
  end.

(* ================================================================= *)
(** ** client_main.c: the operation commands *)

(** *** Building the request

    Each [cmd_*_request] is the first half of the C function [cmd_*], from
    the declaration of [req_buf] to [write_header].  [req_buf] is the
    (indeterminate) initial content of the local array of
    [MAX_DGRAM_SIZE] bytes, [g] the global [g_request_id].  The result is
    the array, the [offset] that is passed to [udp_invoke] as the length
    of the request, and the new [g_request_id]. *)

Definition request_header (op g at_most_once payload_len : Z) : Header :=
  {| version := PROTOCOL_VERSION;
     opCode := op;
     requestId := next_request_id g;
     flags := if at_most_once =? 0 then 0 else FLAG_AT_MOST_ONCE;
     payloadLen := to_uint32 payload_len |}.

Definition cmd_query_request (g : Z) (req_buf : buffer)
    (facility : list byte) (at_most_once : Z) : access (buffer * Z * Z) :=
  let day_start := 1728518400000 in
  let day_end := day_start + 86400000 in
  let offset := HEADER_LEN in
  '(n, req_buf) <- write_string req_buf offset facility ;;
  let offset := to_int (offset + n) in
  '(n, req_buf) <- write_i64 req_buf offset day_start ;;
  let offset := to_int (offset + n) in
  '(n, req_buf) <- write_i64 req_buf offset day_end ;;
  let offset := to_int (offset + n) in
  let payload_len := to_int (offset - HEADER_LEN) in
  let hdr := request_header OP_QUERY_AVAIL g at_most_once payload_len in
  '(_, req_buf) <- write_header req_buf 0 hdr ;;
  Ret (req_buf, offset, requestId hdr).

Definition cmd_book_request (g : Z) (req_buf : buffer)
    (facility user : list byte) (start_ms end_ms : Z) (at_most_once : Z)
  : access (buffer * Z * Z) :=
  let offset := HEADER_LEN in
  '(n, req_buf) <- write_string req_buf offset facility ;;
  let offset := to_int (offset + n) in
  '(n, req_buf) <- write_string req_buf offset user ;;
  let offset := to_int (offset + n) in
  '(n, req_buf) <- write_i64 req_buf offset start_ms ;;
  let offset := to_int (offset + n) in
  '(n, req_buf) <- write_i64 req_buf offset end_ms ;;
  let offset := to_int (offset + n) in
  let payload_len := to_int (offset - HEADER_LEN) in
  let hdr := request_header OP_BOOK g at_most_once payload_len in
  '(_, req_buf) <- write_header req_buf 0 hdr ;;
  Ret (req_buf, offset, requestId hdr).

Definition cmd_custom_incr_request (g : Z) (req_buf : buffer)
    (facility : list byte) (at_most_once : Z) : access (buffer * Z * Z) :=
  let offset := HEADER_LEN in
  '(n, req_buf) <- write_string req_buf offset facility ;;
  let offset := to_int (offset + n) in
  let payload_len := to_int (offset - HEADER_LEN) in
  let hdr := request_header OP_CUSTOM_NON_IDEMPOTENT g at_most_once payload_len in
  '(_, req_buf) <- write_header req_buf 0 hdr ;;
  Ret (req_buf, offset, requestId hdr).

Definition cmd_change_request (g : Z) (req_buf : buffer)
    (booking_id offset_minutes : Z) (at_most_once : Z)
  : access (buffer * Z * Z) :=
  let offset := HEADER_LEN in
  '(_, req_buf) <- write_i64 req_buf offset booking_id ;;
  let offset := to_int (offset + 8) in
  '(_, req_buf) <- write_u32 req_buf offset (to_uint32 offset_minutes) ;;
  let offset := to_int (offset + 4) in
  let payload_len := to_int (offset - HEADER_LEN) in
  let hdr := request_header OP_CHANGE_BOOKING g at_most_once payload_len in
  '(_, req_buf) <- write_header req_buf 0 hdr ;;
  Ret (req_buf, offset, requestId hdr).

Definition cmd_monitor_request (g : Z) (req_buf : buffer)
    (facility : list byte) (duration_seconds callback_port : Z)
    (at_most_once : Z) : access (buffer * Z * Z) :=
  let offset := HEADER_LEN in
  '(n, req_buf) <- write_string req_buf offset facility ;;
  let offset := to_int (offset + n) in
  '(_, req_buf) <- write_u32 req_buf offset duration_seconds ;;
  let offset := to_int (offset + 4) in
  '(_, req_buf) <- write_u32 req_buf offset callback_port ;;
  let offset := to_int (offset + 4) in
  let payload_len := to_int (offset - HEADER_LEN) in
  let hdr := request_header OP_MONITOR g at_most_once payload_len in
  '(_, req_buf) <- write_header req_buf 0 hdr ;;
  Ret (req_buf, offset, requestId hdr).

Definition cmd_reset_request (g : Z) (req_buf : buffer)
    (facility : list byte) (day_start day_end : Z) (at_most_once : Z)
  : access (buffer * Z * Z) :=
  let offset := HEADER_LEN in
  '(n, req_buf) <- write_string req_buf offset facility ;;
  let offset := to_int (offset + n) in
  '(_, req_buf) <- write_i64 req_buf offset day_start ;;
  let offset := to_int (offset + 8) in
  '(_, req_buf) <- write_i64 req_buf offset day_end ;;
  let offset := to_int (offset + 8) in
  let payload_len := to_int (offset - HEADER_LEN) in
  let hdr := request_header OP_CUSTOM_IDEMPOTENT g at_most_once payload_len in
  '(_, req_buf) <- write_header req_buf 0 hdr ;;
  Ret (req_buf, offset, requestId hdr).

(** *** Reading the response

    Each [cmd_*_reply] is the part of [cmd_*] that follows the test of the
    error bit: what is printed for a response that is not an error. *)

(** [for (int i = 0; i < count; i++)] of [cmd_query], [n] iterations left. *)
Fixpoint cmd_query_intervals (resp_buf : buffer) (n : nat) (pos : Z)
    (out : list event) : access (list event) :=
  match n with
  | O => Ret out
  | S n =>
      '(r, start) <- read_i64 resp_buf pos ;;
      let pos := to_int (pos + r) in
      '(r, stop) <- read_i64 resp_buf pos ;;
      let pos := to_int (pos + r) in
      cmd_query_intervals resp_buf n pos (out ++ [EvStdout (MsgInterval start stop)])
  end.

Definition cmd_query_reply (resp_buf : buffer) : access (list event) :=
  let pos := HEADER_LEN in
  '(r, count) <- read_u16 resp_buf pos ;;
  let pos := to_int (pos + r) in
  cmd_query_intervals resp_buf (Z.to_nat count) pos
    [EvStdout (MsgAvailableIntervals count)].

Definition cmd_book_reply (resp_buf : buffer) : access (list event) :=
  '(_, booking_id) <- read_i64 resp_buf HEADER_LEN ;;
  Ret [EvStdout (MsgBookingCreated booking_id)].

Definition cmd_custom_incr_reply (facility : list byte) (resp_buf : buffer)
  : access (list event) :=
  '(_, usage_count) <- read_i64 resp_buf HEADER_LEN ;;
  Ret [EvStdout (MsgUsageCounter (c_str facility) usage_count)].

Definition cmd_change_reply (resp_buf : buffer) : access (list event) :=
  '(_, new_start) <- read_i64 resp_buf HEADER_LEN ;;
  '(_, new_end) <- read_i64 resp_buf (HEADER_LEN + 8) ;;
  Ret [EvStdout (MsgBookingChanged new_start new_end)].

Definition cmd_reset_reply (facility : list byte) (resp_buf : buffer)
  : access (list event) :=
  '(_, removed_count) <- read_u32 resp_buf HEADER_LEN ;;
  Ret [EvStdout (MsgScheduleReset (c_str facility) removed_count)].

Definition cmd_monitor_reply_ok (resp_buf : buffer) : access Z :=
  '(_, ok) <- read_u16 resp_buf HEADER_LEN ;;
  Ret ok.

(** *** The notification listener of [cmd_monitor] *)

(** The callback socket as the listener sees it: whether [socket] and
    [bind] succeed, and what the successive [recvfrom] calls deliver
    ([None]: the call fails).  When the list is used up the listener is
    blocked in [recvfrom]. *)
Record callback_endpoint : Type := mkEndpoint {
  socket_ok : bool;
  bind_ok : bool;
  deliveries : list (option (list byte))
}.

(** [for (int i = 0; i < count; i++)] of the listener. *)
Fixpoint callback_intervals (callback_buf : buffer) (n : nat) (offset_cb : Z)
    (out : list event) : access (list event) :=
  match n with
  | O => Ret out
  | S n =>
      '(_, start) <- read_i64 callback_buf offset_cb ;;
      let offset_cb := to_int (offset_cb + 8) in
      '(_, stop) <- read_i64 callback_buf offset_cb ;;
      let offset_cb := to_int (offset_cb + 8) in
      callback_intervals callback_buf n offset_cb
        (out ++ [EvStdout (MsgInterval start stop)])
  end.

(** The body of the [while (1)] loop after a successful [recvfrom]. *)
Definition callback_message (callback_buf : buffer) : access (list event) :=
  '(_, cb_hdr) <- read_header callback_buf 0 ;;
  let out := [EvStdout (MsgCallbackReceived (opCode cb_hdr) (requestId cb_hdr)
                                            (flags cb_hdr))] in
  out <- (if opCode cb_hdr =? OP_QUERY_AVAIL then
            '(_, count) <- read_u16 callback_buf HEADER_LEN ;;
            let offset_cb := HEADER_LEN + 2 in
            callback_intervals callback_buf (Z.to_nat count) offset_cb
              (out ++ [EvStdout (MsgAvailabilityUpdated count)])
          else Ret out) ;;
  Ret (out ++ [EvStdout MsgCallbackEnd]).

Fixpoint callback_loop (rx : list (option (list byte))) (callback_buf : buffer)
    (tr : list event) : completion unit * list event :=
  match rx with
  | [] => (Unfinished, tr)
  | None :: _ =>
      (Returned tt, tr ++ [EvRecvfrom MAX_DGRAM_SIZE; EvPerror "recvfrom failed"])
  | Some d :: rx =>
      let tr := tr ++ [EvRecvfrom MAX_DGRAM_SIZE] in
      let d := firstn (Z.to_nat MAX_DGRAM_SIZE) d in
      match store callback_buf 0 d with
      | Overrun => (Fault, tr)
      | Ret callback_buf =>
          match callback_message callback_buf with
          | Overrun => (Fault, tr)
          | Ret out => callback_loop rx callback_buf (tr ++ out)
          end
      end
  end.

(** *** The commands *)

Definition printed (a : access (list event)) : completion unit * list event :=
  match a with
  | Ret out => (Returned tt, out)
  | Overrun => (Fault, [])
  end.

(** What a command does with the response array once [udp_invoke] has
    returned a length that is not negative: [read_header], the test of the
    error bit, and [reply], the rest of the command. *)
Definition response_outcome (resp_buf : buffer)
    (reply : buffer -> completion unit * list event)
  : completion unit * list event :=
  match read_header resp_buf 0 with
  | Overrun => (Fault, [])
  | Ret (_, resp_hdr) =>
      if negb (Z.land (opCode resp_hdr) OP_ERROR_MASK =? 0) then
        (Returned tt, [EvStderr MsgServerError])
      else
        reply resp_buf
  end.

(** The lines shared by the six commands: [udp_invoke], the test
    [resp_len < 0] and the handling of the response.  [what] is the text
    printed when the invocation fails. *)
Definition exchange (fuel : nat) (net : transport) (req_buf : buffer)
    (offset : Z) (resp_buf : buffer) (timeout_ms retries : Z)
    (what : string) (reply : buffer -> completion unit * list event)
  : completion unit * list event :=
  match udp_invoke fuel net req_buf offset resp_buf MAX_DGRAM_SIZE
          timeout_ms retries with
  | (Unfinished, tr) => (Unfinished, tr)
  | (Fault, tr) => (Fault, tr)
  | (Returned (resp_len, resp_buf), tr) =>
      if resp_len <? 0 then
        (Returned tt, tr ++ [EvStderr (MsgCommandFailed what)])
      else
        let '(c, out) := response_outcome resp_buf reply in (c, tr ++ out)
  end.

(** [req_buf] and [resp_buf] are the initial contents of the two local
    arrays of [MAX_DGRAM_SIZE] bytes; [g] is [g_request_id] on entry. *)
Definition cmd_query (fuel : nat) (net : transport) (g : Z)
    (req_buf resp_buf : buffer) (facility date_str : list byte)
    (timeout_ms retries at_most_once : Z) : completion unit * list event :=
  match cmd_query_request g req_buf facility at_most_once with
  | Overrun => (Fault, [])
  | Ret (req_buf, offset, _) =>
      exchange fuel net req_buf offset resp_buf timeout_ms retries
        "Query failed" (fun resp_buf => printed (cmd_query_reply resp_buf))
  end.

Definition cmd_book (fuel : nat) (net : transport) (g : Z)
    (req_buf resp_buf : buffer) (facility user : list byte)
    (start_ms end_ms : Z) (timeout_ms retries at_most_once : Z)
  : completion unit * list event :=
  match cmd_book_request g req_buf facility user start_ms end_ms at_most_once with
  | Overrun => (Fault, [])
  | Ret (req_buf, offset, _) =>
      exchange fuel net req_buf offset resp_buf timeout_ms retries
        "Book failed" (fun resp_buf => printed (cmd_book_reply resp_buf))
  end.

Definition cmd_custom_incr (fuel : nat) (net : transport) (g : Z)
    (req_buf resp_buf : buffer) (facility : list byte)
    (timeout_ms retries at_most_once : Z) : completion unit * list event :=
  match cmd_custom_incr_request g req_buf facility at_most_once with
  | Overrun => (Fault, [])
  | Ret (req_buf, offset, _) =>
      exchange fuel net req_buf offset resp_buf timeout_ms retries
        "Usage counter increment failed"
        (fun resp_buf => printed (cmd_custom_incr_reply facility resp_buf))
  end.

Definition cmd_change (fuel : nat) (net : transport) (g : Z)
    (req_buf resp_buf : buffer) (booking_id offset_minutes : Z)
    (timeout_ms retries at_most_once : Z) : completion unit * list event :=
  match cmd_change_request g req_buf booking_id offset_minutes at_most_once with
  | Overrun => (Fault, [])
  | Ret (req_buf, offset, _) =>
      exchange fuel net req_buf offset resp_buf timeout_ms retries
        "Change booking failed" (fun resp_buf => printed (cmd_change_reply resp_buf))
  end.

Definition cmd_monitor_reply (cb : callback_endpoint) (callback_buf : buffer)
    (facility : list byte) (duration_seconds callback_port : Z)
    (resp_buf : buffer) : completion unit * list event :=
  match cmd_monitor_reply_ok resp_buf with
  | Overrun => (Fault, [])
  | Ret ok =>
      if ok =? 1 then
        let out :=
          [EvStdout (MsgMonitorRegistered (c_str facility) duration_seconds
                                          callback_port);
           EvStdout (MsgListening callback_port)] in
        if negb (socket_ok cb) then
          (Returned tt, out ++ [EvPerror "callback socket creation failed"])
        else if negb (bind_ok cb) then
          (Returned tt, out ++ [EvPerror "callback socket bind failed"])
        else
          callback_loop (deliveries cb) callback_buf (out ++ [EvStdout MsgWaiting])
      else
        (Returned tt, [EvStderr (MsgMonitorRefused ok)])
  end.

Definition cmd_monitor (fuel : nat) (net : transport) (cb : callback_endpoint)
    (g : Z) (req_buf resp_buf callback_buf : buffer) (facility : list byte)
    (duration_seconds callback_port : Z)
    (timeout_ms retries at_most_once : Z) : completion unit * list event :=
  match cmd_monitor_request g req_buf facility duration_seconds callback_port
          at_most_once with
  | Overrun => (Fault, [])
  | Ret (req_buf, offset, _) =>
      exchange fuel net req_buf offset resp_buf timeout_ms retries
        "Monitor registration failed"
        (cmd_monitor_reply cb callback_buf facility duration_seconds callback_port)
  end.

Definition cmd_reset (fuel : nat) (net : transport) (g : Z)
    (req_buf resp_buf : buffer) (facility : list byte) (day_start day_end : Z)
    (timeout_ms retries at_most_once : Z) : completion unit * list event :=
  match cmd_reset_request g req_buf facility day_start day_end at_most_once with
  | Overrun => (Fault, [])
  | Ret (req_buf, offset, _) =>
      exchange fuel net req_buf offset resp_buf timeout_ms retries
        "Schedule reset failed"
        (fun resp_buf => printed (cmd_reset_reply facility resp_buf))
  end.

(* ================================================================= *)
(** ** Wire layouts the requests are compared with *)

(** A string on the wire: 16-bit big-endian count, then that many bytes;
    the count is the length of the text clamped to 65535. *)
Definition string_wire (str : list byte) : list byte :=
  let n := Z.min (len (c_str str)) 65535 in
  be_bytes 2 n ++ firstn (Z.to_nat n) (c_str str).

(** Request payloads, field by field. *)
Definition query_payload (facility : list byte) : list byte :=
  string_wire facility ++ be_bytes 8 1728518400000 ++
  be_bytes 8 (1728518400000 + 86400000).

Definition book_payload (facility user : list byte) (start_ms end_ms : Z)
  : list byte :=
  string_wire facility ++ string_wire user ++
  be_bytes 8 start_ms ++ be_bytes 8 end_ms.

Definition custom_incr_payload (facility : list byte) : list byte :=
  string_wire facility.

Definition change_payload (booking_id offset_minutes : Z) : list byte :=
  be_bytes 8 booking_id ++ be_bytes 4 offset_minutes.

Definition monitor_payload (facility : list byte)
    (duration_seconds callback_port : Z) : list byte :=
  string_wire facility ++ be_bytes 4 duration_seconds ++
  be_bytes 4 callback_port.

Definition reset_payload (facility : list byte) (day_start day_end : Z)
  : list byte :=
  string_wire facility ++ be_bytes 8 day_start ++ be_bytes 8 day_end.

(** The framing invariant of a request of [offset] bytes in [req_buf]
    whose payload is [payload]. *)
Definition framed (req_buf : buffer) (offset : Z) (payload : list byte) : Prop :=
  exists h,
    read_header req_buf 0 = Ret (HEADER_LEN, h) /\
    load req_buf HEADER_LEN (len payload) = Ret payload /\
    payloadLen h = len payload /\
    offset = HEADER_LEN + payloadLen h.

(** Iteration [k] ends without a reply and without a hard error: [sendto]
    fails, or [select] times out. *)
Definition no_reply (net : transport) (k : nat) : Prop :=
  sendto_result net k < 0 \/ select_result net k = 0.

(** A transport on which every attempt times out: [sendto] succeeds and
    [select] returns 0. *)
Definition always_times_out (net : transport) : Prop :=
  forall k, 0 <= sendto_result net k /\ select_result net k = 0.

(* ================================================================= *)
(** ** Scenarios *)

(** The lines printed, without the system calls. *)
Fixpoint output (tr : list event) : list event :=
  match tr with
  | [] => []
  | EvStdout m :: rest => EvStdout m :: output rest
  | EvStderr m :: rest => EvStderr m :: output rest
  | EvPerror what :: rest => EvPerror what :: output rest
  | _ :: rest => output rest
  end.

Definition zeros (n : Z) : list byte := repeat Byte.x00 (Z.to_nat n).

(** ["LabA"] and ["2025-10-10"], the defaults of [main]. *)
Definition LabA : list byte :=
  [Byte.x4c; Byte.x61; Byte.x62; Byte.x41; Byte.x00].

Definition date_2025_10_10 : list byte :=
  [Byte.x32; Byte.x30; Byte.x32; Byte.x35; Byte.x2d; Byte.x31; Byte.x30;
   Byte.x2d; Byte.x31; Byte.x30; Byte.x00].

(** No answer ever: every [sendto] succeeds, every [select] times out. *)
Definition net_silent : transport :=
  {| sendto_result := fun _ => 38;
     select_result := fun _ => 0;
     recvfrom_result := fun _ => None |}.

(** A broken socket: [select] fails. *)
Definition net_broken : transport :=
  {| sendto_result := fun _ => 38;
     select_result := fun _ => -1;
     recvfrom_result := fun _ => None |}.

(** The first attempt is answered with the datagram [d]. *)
Definition net_answers (d : list byte) : transport :=
  {| sendto_result := fun _ => 38;
     select_result := fun _ => 1;
     recvfrom_result := fun _ => Some d |}.

(** A header with the error bit set and the largest request id. *)
Definition sample_header : Header :=
  {| version := 1; opCode := 0x8003; requestId := 4294967295;
     flags := 2; payloadLen := 0 |}.

(** An error response to a query: error bit set, payload the error kind. *)
Definition error_response (kind : Z) : list byte :=
  header_wire {| version := PROTOCOL_VERSION;
                 opCode := Z.lor OP_QUERY_AVAIL OP_ERROR_MASK;
                 requestId := 42; flags := 0; payloadLen := 2 |}
  ++ be_bytes 2 kind.

(** A query response with one interval [[1000, 2000]] and version 2. *)
Definition version_2_response : list byte :=
  header_wire {| version := 2; opCode := OP_QUERY_AVAIL;
                 requestId := 42; flags := 0; payloadLen := 18 |}
  ++ be_bytes 2 1 ++ be_bytes 8 1000 ++ be_bytes 8 2000.

(** The response array after [version_2_response] was received into it,
    with the version field set to [v]. *)
Definition response_with_version (v : Z) : buffer :=
  be_bytes 2 v ++
  (skipn 2 version_2_response ++ zeros (MAX_DGRAM_SIZE - 34)).

(* ================================================================= *)
(** ** client_main.c: the request id counter *)

(** [init_request_id]: the new value of [g_request_id], where
    [rand_value] is what [rand()] returns. *)
Definition init_request_id (rand_value : Z) : Z :=
  to_uint32 (Z.land rand_value 0x3FFFFFFF).

(** The values returned by [n] successive calls of [next_request_id],
    starting with the counter at [g]. *)
Fixpoint request_ids (n : nat) (g : Z) : list Z :=
  match n with
  | O => []
  | S n => let id := next_request_id g in id :: request_ids n id
  end.

(* ================================================================= *)
(** ** Traces of the retry loop *)

Definition is_select (e : event) : bool :=
  match e with EvSelect _ _ => true | _ => false end.

Definition is_recvfrom (e : event) : bool :=
  match e with EvRecvfrom _ => true | _ => false end.

(** What [n] attempts that time out leave in the trace, the first of them
    with the loop variable at [attempt]: the datagram sent, the wait, and
    the line "[retry i/total] timeout, retrying...". *)
Fixpoint timeout_trace (dgram : list byte) (timeout_ms total : Z) (n : nat)
    (attempt : Z) : list event :=
  match n with
  | O => []
  | S n =>
      [EvSendto dgram;
       EvSelect (Z.quot timeout_ms 1000) (Z.rem timeout_ms 1000 * 1000);
       EvStdout (MsgRetryTimeout (attempt + 1) total)]
      ++ timeout_trace dgram timeout_ms total n (attempt + 1)
  end.

(** The same for [n] attempts in which [sendto] fails. *)
Fixpoint send_failure_trace (dgram : list byte) (n : nat) : list event :=
  match n with
  | O => []
  | S n => [EvSendto dgram; EvPerror "sendto failed"]
           ++ send_failure_trace dgram n
  end.

(** A [select] that waits for the time computed from [timeout_ms]. *)
Definition waits_timeout (timeout_ms : Z) (e : event) : Prop :=
  match e with
  | EvSelect tv_sec tv_usec =>
      tv_sec = Z.quot timeout_ms 1000 /\
      tv_usec = Z.rem timeout_ms 1000 * 1000
  | _ => True
  end.

(** A trace without [recvfrom], or one that ends with the only [recvfrom]
    and, when it failed, its diagnostic. *)
Definition ends_at_recvfrom (tr : list event) : Prop :=
  filter is_recvfrom tr = [] \/
  exists tr0 m,
    filter is_recvfrom tr0 = [] /\
    (tr = tr0 ++ [EvRecvfrom m] \/
     tr = tr0 ++ [EvRecvfrom m; EvPerror "recvfrom failed"]).

(* ================================================================= *)
(** ** Wire layouts the responses are compared with *)

(** A list of intervals on the wire: start and end of each, as 64-bit
    integers, one after the other. *)
Fixpoint intervals_wire (l : list (Z * Z)) : list byte :=
  match l with
  | [] => []
  | (start, stop) :: rest =>
      be_bytes 8 start ++ be_bytes 8 stop ++ intervals_wire rest
  end.

(** The lines printed for them. *)
Definition interval_lines (l : list (Z * Z)) : list event :=
  map (fun i => EvStdout (MsgInterval (fst i) (snd i))) l.

Definition intervals_ok (l : list (Z * Z)) : Prop :=
  Forall (fun i => is_int64 (fst i) /\ is_int64 (snd i)) l.

(** A notification as the server sends it: a header, then the count and
    the intervals of the facility. *)
Definition notification_wire (n : Header * list (Z * Z)) : list byte :=
  header_wire (fst n) ++ be_bytes 2 (len (snd n)) ++ intervals_wire (snd n).

(** The lines the listener prints for it. *)
Definition notification_lines (n : Header * list (Z * Z)) : list event :=
  EvStdout (MsgCallbackReceived (opCode (fst n)) (requestId (fst n))
                                (flags (fst n)))
  :: (if opCode (fst n) =? OP_QUERY_AVAIL then
        EvStdout (MsgAvailabilityUpdated (len (snd n)))
        :: interval_lines (snd n)
      else [])
  ++ [EvStdout MsgCallbackEnd].

(** A notification that fits one datagram of [MAX_DGRAM_SIZE] bytes. *)
Definition notification_ok (n : Header * list (Z * Z)) : Prop :=
  header_wf (fst n) /\ len (snd n) <= 4094 /\ intervals_ok (snd n).


(* ================================================================= *)
(** ** client_main.c: the options of [main] *)

Definition DEFAULT_HOST : string := "127.0.0.1".
Definition DEFAULT_PORT : Z := 9999.
Definition DEFAULT_TIMEOUT_MS : Z := 500.
Definition DEFAULT_RETRIES : Z := 3.

(** The local variables of [main] that the options set, [opt_x] for the
    variable [x]. *)
Record options : Type := mkOptions {
  opt_host : string;
  opt_port : Z;
  opt_timeout_ms : Z;
  opt_retries : Z;
  opt_at_most_once : Z;
  opt_facility : string;
  opt_user : string;
  opt_date_str : string;
  opt_start_ms : Z;
  opt_end_ms : Z;
  opt_day_start : Z;
  opt_day_end : Z;
  opt_booking_id : Z;
  opt_offset_minutes : Z;
  opt_duration_seconds : Z;
  opt_callback_port : Z
}.

(** Their initial values. *)
Definition default_options : options :=
  {| opt_host := DEFAULT_HOST;
     opt_port := DEFAULT_PORT;
     opt_timeout_ms := DEFAULT_TIMEOUT_MS;
     opt_retries := DEFAULT_RETRIES;
     opt_at_most_once := 0;
     opt_facility := "LabA";
     opt_user := "alice";
     opt_date_str := "2025-10-10";
     opt_start_ms := 1728540000000;
     opt_end_ms := 1728543600000;
     opt_day_start := 1728518400000;
     opt_day_end := 1728604800000;
     opt_booking_id := 1;
     opt_offset_minutes := 60;
     opt_duration_seconds := 30;
     opt_callback_port := 10000 |}.

(** The assignment [x = value], one per variable. *)
Definition set_host (value : string) (o : options) : options :=
  mkOptions value (opt_port o) (opt_timeout_ms o) (opt_retries o)
    (opt_at_most_once o) (opt_facility o) (opt_user o) (opt_date_str o)
    (opt_start_ms o) (opt_end_ms o) (opt_day_start o) (opt_day_end o)
    (opt_booking_id o) (opt_offset_minutes o) (opt_duration_seconds o)
    (opt_callback_port o).

Definition set_port (value : Z) (o : options) : options :=
  mkOptions (opt_host o) value (opt_timeout_ms o) (opt_retries o)
    (opt_at_most_once o) (opt_facility o) (opt_user o) (opt_date_str o)
    (opt_start_ms o) (opt_end_ms o) (opt_day_start o) (opt_day_end o)
    (opt_booking_id o) (opt_offset_minutes o) (opt_duration_seconds o)
    (opt_callback_port o).

Definition set_timeout_ms (value : Z) (o : options) : options :=
  mkOptions (opt_host o) (opt_port o) value (opt_retries o)
    (opt_at_most_once o) (opt_facility o) (opt_user o) (opt_date_str o)
    (opt_start_ms o) (opt_end_ms o) (opt_day_start o) (opt_day_end o)
    (opt_booking_id o) (opt_offset_minutes o) (opt_duration_seconds o)
    (opt_callback_port o).

Definition set_retries (value : Z) (o : options) : options :=
  mkOptions (opt_host o) (opt_port o) (opt_timeout_ms o) value
    (opt_at_most_once o) (opt_facility o) (opt_user o) (opt_date_str o)
    (opt_start_ms o) (opt_end_ms o) (opt_day_start o) (opt_day_end o)
    (opt_booking_id o) (opt_offset_minutes o) (opt_duration_seconds o)
    (opt_callback_port o).

Definition set_at_most_once (value : Z) (o : options) : options :=
  mkOptions (opt_host o) (opt_port o) (opt_timeout_ms o) (opt_retries o)
    value (opt_facility o) (opt_user o) (opt_date_str o) (opt_start_ms o)
    (opt_end_ms o) (opt_day_start o) (opt_day_end o) (opt_booking_id o)
    (opt_offset_minutes o) (opt_duration_seconds o) (opt_callback_port o).

Definition set_facility (value : string) (o : options) : options :=
  mkOptions (opt_host o) (opt_port o) (opt_timeout_ms o) (opt_retries o)
    (opt_at_most_once o) value (opt_user o) (opt_date_str o)
    (opt_start_ms o) (opt_end_ms o) (opt_day_start o) (opt_day_end o)
    (opt_booking_id o) (opt_offset_minutes o) (opt_duration_seconds o)
    (opt_callback_port o).

Definition set_user (value : string) (o : options) : options :=
  mkOptions (opt_host o) (opt_port o) (opt_timeout_ms o) (opt_retries o)
    (opt_at_most_once o) (opt_facility o) value (opt_date_str o)
    (opt_start_ms o) (opt_end_ms o) (opt_day_start o) (opt_day_end o)
    (opt_booking_id o) (opt_offset_minutes o) (opt_duration_seconds o)
    (opt_callback_port o).

Definition set_date_str (value : string) (o : options) : options :=
  mkOptions (opt_host o) (opt_port o) (opt_timeout_ms o) (opt_retries o)
    (opt_at_most_once o) (opt_facility o) (opt_user o) value
    (opt_start_ms o) (opt_end_ms o) (opt_day_start o) (opt_day_end o)
    (opt_booking_id o) (opt_offset_minutes o) (opt_duration_seconds o)
    (opt_callback_port o).

Definition set_start_ms (value : Z) (o : options) : options :=
  mkOptions (opt_host o) (opt_port o) (opt_timeout_ms o) (opt_retries o)
    (opt_at_most_once o) (opt_facility o) (opt_user o) (opt_date_str o)
    value (opt_end_ms o) (opt_day_start o) (opt_day_end o)
    (opt_booking_id o) (opt_offset_minutes o) (opt_duration_seconds o)
    (opt_callback_port o).

Definition set_end_ms (value : Z) (o : options) : options :=
  mkOptions (opt_host o) (opt_port o) (opt_timeout_ms o) (opt_retries o)
    (opt_at_most_once o) (opt_facility o) (opt_user o) (opt_date_str o)
    (opt_start_ms o) value (opt_day_start o) (opt_day_end o)
    (opt_booking_id o) (opt_offset_minutes o) (opt_duration_seconds o)
    (opt_callback_port o).

Definition set_day_start (value : Z) (o : options) : options :=
  mkOptions (opt_host o) (opt_port o) (opt_timeout_ms o) (opt_retries o)
    (opt_at_most_once o) (opt_facility o) (opt_user o) (opt_date_str o)
    (opt_start_ms o) (opt_end_ms o) value (opt_day_end o)
    (opt_booking_id o) (opt_offset_minutes o) (opt_duration_seconds o)
    (opt_callback_port o).

Definition set_day_end (value : Z) (o : options) : options :=
  mkOptions (opt_host o) (opt_port o) (opt_timeout_ms o) (opt_retries o)
    (opt_at_most_once o) (opt_facility o) (opt_user o) (opt_date_str o)
    (opt_start_ms o) (opt_end_ms o) (opt_day_start o) value
    (opt_booking_id o) (opt_offset_minutes o) (opt_duration_seconds o)
    (opt_callback_port o).

Definition set_booking_id (value : Z) (o : options) : options :=
  mkOptions (opt_host o) (opt_port o) (opt_timeout_ms o) (opt_retries o)
    (opt_at_most_once o) (opt_facility o) (opt_user o) (opt_date_str o)
    (opt_start_ms o) (opt_end_ms o) (opt_day_start o) (opt_day_end o) value
    (opt_offset_minutes o) (opt_duration_seconds o) (opt_callback_port o).

Definition set_offset_minutes (value : Z) (o : options) : options :=
  mkOptions (opt_host o) (opt_port o) (opt_timeout_ms o) (opt_retries o)
    (opt_at_most_once o) (opt_facility o) (opt_user o) (opt_date_str o)
    (opt_start_ms o) (opt_end_ms o) (opt_day_start o) (opt_day_end o)
    (opt_booking_id o) value (opt_duration_seconds o) (opt_callback_port o).

Definition set_duration_seconds (value : Z) (o : options) : options :=
  mkOptions (opt_host o) (opt_port o) (opt_timeout_ms o) (opt_retries o)
    (opt_at_most_once o) (opt_facility o) (opt_user o) (opt_date_str o)
    (opt_start_ms o) (opt_end_ms o) (opt_day_start o) (opt_day_end o)
    (opt_booking_id o) (opt_offset_minutes o) value (opt_callback_port o).

Definition set_callback_port (value : Z) (o : options) : options :=
  mkOptions (opt_host o) (opt_port o) (opt_timeout_ms o) (opt_retries o)
    (opt_at_most_once o) (opt_facility o) (opt_user o) (opt_date_str o)
    (opt_start_ms o) (opt_end_ms o) (opt_day_start o) (opt_day_end o)
    (opt_booking_id o) (opt_offset_minutes o) (opt_duration_seconds o)
    value.

(** The names of the sixteen options, in the order of the tests. *)
Definition option_names : list string :=
  ["--host"%string;
   "--port"%string;
   "--facility"%string;
   "--user"%string;
   "--date"%string;
   "--start"%string;
   "--end"%string;
   "--day-start"%string;
   "--day-end"%string;
   "--booking-id"%string;
   "--offset"%string;
   "--duration"%string;
   "--callback-port"%string;
   "--timeoutMs"%string;
   "--retries"%string;
   "--atMostOnce"%string].

Section Arguments.

(** [atoi] and [atoll] of the C library, on the text of an argument. *)
Variable atoi : string -> Z.
Variable atoll : string -> Z.

(** The chain of tests of the loop body for an argument [a] that has a
    next argument [v]: the assignment made, or [None] when [a] is none
    of the sixteen names. *)
Definition set_option (a v : string) (o : options) : option options :=
  if String.eqb a "--host" then Some (set_host v o)
  else if String.eqb a "--port" then Some (set_port (atoi v) o)
  else if String.eqb a "--facility" then Some (set_facility v o)
  else if String.eqb a "--user" then Some (set_user v o)
  else if String.eqb a "--date" then Some (set_date_str v o)
  else if String.eqb a "--start" then Some (set_start_ms (atoll v) o)
  else if String.eqb a "--end" then Some (set_end_ms (atoll v) o)
  else if String.eqb a "--day-start" then Some (set_day_start (atoll v) o)
  else if String.eqb a "--day-end" then Some (set_day_end (atoll v) o)
  else if String.eqb a "--booking-id" then Some (set_booking_id (atoll v) o)
  else if String.eqb a "--offset" then Some (set_offset_minutes (atoi v) o)
  else if String.eqb a "--duration" then Some (set_duration_seconds (to_uint32 (atoi v)) o)
  else if String.eqb a "--callback-port" then Some (set_callback_port (to_uint32 (atoi v)) o)
  else if String.eqb a "--timeoutMs" then Some (set_timeout_ms (atoi v) o)
  else if String.eqb a "--retries" then Some (set_retries (atoi v) o)
  else if String.eqb a "--atMostOnce" then Some (set_at_most_once (atoi v) o)
  else None.

(** [for (int i = 2; i < argc; i++)], where [args] is [argv] from index
    [i] on.  Every test has the conjunct [i + 1 < argc]: the last
    argument matches none.  An option takes the next argument with
    [++i]; anything else is passed over. *)
Fixpoint parse_options (args : list string) (o : options) : options :=
  match args with
  | [] => o
  | a :: tail =>
      match tail with
      | [] => o
      | v :: rest =>
          match set_option a v o with
          | Some o' => parse_options rest o'
          | None => parse_options tail o
          end
      end
  end.

End Arguments.



(* ================================================================= *)
(** ** Further scenarios *)

(** Every [sendto] fails. *)
Definition net_unreachable : transport :=
  {| sendto_result := fun _ => -1;
     select_result := fun _ => 0;
     recvfrom_result := fun _ => None |}.

(** Two intervals, one of them with a negative bound. *)
Definition two_intervals : list (Z * Z) := [(1000, 2000); (-5, 7)].

(** The header of an answer whose request id is not the one of any
    request of the scenarios. *)
Definition answer_header : Header :=
  {| version := 1; opCode := OP_QUERY_AVAIL; requestId := 7; flags := 0;
     payloadLen := 34 |}.

(** A notification with the two intervals, and one for another operation;
    neither carries [FLAG_IS_CALLBACK]. *)
Definition update_notification : Header * list (Z * Z) :=
  (answer_header, two_intervals).

Definition other_notification : Header * list (Z * Z) :=
  ({| version := 1; opCode := OP_BOOK; requestId := 8; flags := 0;
      payloadLen := 2 |}, []).

(** An [atoi] that reads every text as 7. *)
Definition atoi_7 (text : string) : Z := 7.

(* ================================================================= *)
(** * Properties *)

(** ** Bytes and arrays *)

Lemma byte_to_Z_range (b : byte) : 0 <= byte_to_Z b < 256.
Proof.
  unfold byte_to_Z. pose proof (Byte.to_N_bounded b). lia.
Qed.

Lemma byte_to_of_Z (z : Z) : byte_to_Z (byte_of_Z z) = z mod 256.
Proof.
  unfold byte_to_Z, byte_of_Z.
  pose proof (Z.mod_pos_bound z 256 ltac:(lia)) as Hz.
  destruct (Byte.of_N (Z.to_N (z mod 256))) as [b|] eqn:E.
  - apply Byte.to_of_N in E. rewrite E. lia.
  - apply Byte.of_N_None_iff in E. lia.
Qed.

Lemma byte_of_to_Z (b : byte) : byte_of_Z (byte_to_Z b) = b.
Proof.
  pose proof (byte_to_Z_range b) as Hb.
  unfold byte_of_Z. rewrite Z.mod_small by lia.
  unfold byte_to_Z. rewrite N2Z.id, Byte.of_to_N. reflexivity.
Qed.

Lemma byte_of_Z_mod (z : Z) : byte_of_Z (z mod 256) = byte_of_Z z.
Proof.
  unfold byte_of_Z. rewrite Z.mod_mod by lia. reflexivity.
Qed.

Lemma len_nonneg {A : Type} (l : list A) : 0 <= len l.
Proof. unfold len. lia. Qed.

Lemma len_app {A : Type} (l1 l2 : list A) : len (l1 ++ l2) = len l1 + len l2.
Proof. unfold len. rewrite length_app. lia. Qed.

Lemma len_cons {A : Type} (a : A) (l : list A) : len (a :: l) = 1 + len l.
Proof. unfold len. simpl List.length. lia. Qed.

Lemma to_nat_len {A : Type} (l : list A) : Z.to_nat (len l) = List.length l.
Proof. unfold len. lia. Qed.

Lemma in_bounds_true (b : buffer) (p n : Z) :
  in_bounds b p n = true <-> 0 <= p /\ 0 <= n /\ p + n <= len b.
Proof. unfold in_bounds. rewrite !andb_true_iff, !Z.leb_le. tauto. Qed.

Lemma in_bounds_false (b : buffer) (p n : Z) :
  in_bounds b p n = false <-> ~ (0 <= p /\ 0 <= n /\ p + n <= len b).
Proof.
  rewrite <- in_bounds_true. destruct (in_bounds b p n); split; intros; easy.
Qed.

(** An array in which a region is in bounds splits around that region. *)
Lemma bounds_split (b : buffer) (p n : Z) :
  0 <= p -> 0 <= n -> p + n <= len b ->
  exists pre mid post,
    b = pre ++ mid ++ post /\ len pre = p /\ len mid = n.
Proof.
  intros Hp Hn Hb.
  exists (firstn (Z.to_nat p) b),
         (firstn (Z.to_nat n) (skipn (Z.to_nat p) b)),
         (skipn (Z.to_nat n) (skipn (Z.to_nat p) b)).
  unfold len in *.
  rewrite !firstn_skipn. split; [reflexivity|].
  rewrite !length_firstn, length_skipn. lia.
Qed.

Lemma load_split (pre mid post : list byte) (p n : Z) :
  len pre = p -> len mid = n -> load (pre ++ mid ++ post) p n = Ret mid.
Proof.
  intros Hp Hn. unfold load.
  assert (in_bounds (pre ++ mid ++ post) p n = true) as ->.
  { apply in_bounds_true. rewrite !len_app.
    pose proof (len_nonneg pre); pose proof (len_nonneg mid);
      pose proof (len_nonneg post). lia. }
  subst p n. rewrite !to_nat_len.
  rewrite skipn_app, skipn_all, Nat.sub_diag. simpl.
  rewrite firstn_app, firstn_all, Nat.sub_diag. simpl.
  rewrite app_nil_r. reflexivity.
Qed.

Lemma store_split (pre mid post src : list byte) (p : Z) :
  len pre = p -> len mid = len src ->
  store (pre ++ mid ++ post) p src = Ret (pre ++ src ++ post).
Proof.
  intros Hp Hn. unfold store.
  assert (in_bounds (pre ++ mid ++ post) p (len src) = true) as ->.
  { apply in_bounds_true. rewrite !len_app.
    pose proof (len_nonneg pre); pose proof (len_nonneg mid);
      pose proof (len_nonneg post). lia. }
  subst p. rewrite <- Hn, <- len_app, !to_nat_len.
  rewrite firstn_app, firstn_all, Nat.sub_diag. simpl. rewrite app_nil_r.
  rewrite (app_assoc pre mid post), skipn_app, skipn_all, Nat.sub_diag.
  reflexivity.
Qed.

Lemma load_Ret (b : buffer) (p n : Z) (bs : list byte) :
  load b p n = Ret bs ->
  exists pre post, b = pre ++ bs ++ post /\ len pre = p /\ len bs = n.
Proof.
  unfold load. destruct (in_bounds b p n) eqn:E; [|discriminate].
  apply in_bounds_true in E. destruct E as (Hp & Hn & Hb).
  destruct (bounds_split b p n Hp Hn Hb) as (pre & mid & post & -> & Hl1 & Hl2).
  intros H. injection H as <-.
  exists pre, post.
  subst p n. rewrite !to_nat_len.
  rewrite skipn_app, skipn_all, Nat.sub_diag. simpl.
  rewrite firstn_app, firstn_all, Nat.sub_diag. simpl.
  rewrite app_nil_r. auto.
Qed.

Lemma load_Overrun (b : buffer) (p n : Z) :
  load b p n = Overrun <-> ~ (0 <= p /\ 0 <= n /\ p + n <= len b).
Proof.
  rewrite <- in_bounds_false. unfold load.
  destruct (in_bounds b p n); split; intros; easy.
Qed.

Lemma store_Ret (b b' : buffer) (p : Z) (src : list byte) :
  store b p src = Ret b' ->
  exists pre mid post,
    b = pre ++ mid ++ post /\ b' = pre ++ src ++ post /\
    len pre = p /\ len mid = len src.
Proof.
  intros H.
  assert (in_bounds b p (len src) = true) as E.
  { unfold store in H. destruct (in_bounds b p (len src)); easy. }
  apply in_bounds_true in E. destruct E as (Hp & Hn & Hb).
  destruct (bounds_split b p _ Hp Hn Hb) as (pre & mid & post & -> & Hl1 & Hl2).
  rewrite (store_split pre mid post src p Hl1 Hl2) in H. injection H as <-.
  exists pre, mid, post. auto.
Qed.

Lemma store_Overrun (b : buffer) (p : Z) (src : list byte) :
  store b p src = Overrun <-> ~ (0 <= p /\ p + len src <= len b).
Proof.
  unfold store. destruct (in_bounds b p (len src)) eqn:E.
  - apply in_bounds_true in E. split; [discriminate | intros H; exfalso; apply H; lia].
  - apply in_bounds_false in E. pose proof (len_nonneg src).
    split; [intros _ H'; apply E; lia | reflexivity].
Qed.

Lemma store_len (b b' : buffer) (p : Z) (src : list byte) :
  store b p src = Ret b' -> len b' = len b.
Proof.
  intros H. apply store_Ret in H.
  destruct H as (pre & mid & post & -> & -> & _ & Hm).
  rewrite !len_app. lia.
Qed.

Lemma load_store_same (b b' : buffer) (p : Z) (src : list byte) :
  store b p src = Ret b' -> load b' p (len src) = Ret src.
Proof.
  intros H. apply store_Ret in H.
  destruct H as (pre & mid & post & -> & -> & Hp & Hm).
  apply load_split; auto.
Qed.

(** Two stores side by side are one store of the concatenation, whichever
    is made first. *)
Lemma store_store_adjacent (b : buffer) (p : Z) (s1 s2 : list byte) :
  (b' <- store b p s1 ;; store b' (p + len s1) s2) = store b p (s1 ++ s2).
Proof.
  pose proof (len_nonneg s1) as H1. pose proof (len_nonneg s2) as H2.
  destruct (store b p (s1 ++ s2)) as [b2|] eqn:E.
  - apply store_Ret in E.
    destruct E as (pre & mid & post & -> & -> & Hp & Hm).
    rewrite len_app in Hm.
    destruct (bounds_split mid 0 (len s1) ltac:(lia) H1 ltac:(lia))
      as (m0 & m1 & m2 & -> & Hm0 & Hm1).
    destruct m0; [|rewrite len_cons in Hm0; pose proof (len_nonneg m0); lia].
    simpl in *. rewrite len_app in Hm.
    rewrite <- app_assoc.
    rewrite (store_split pre m1 (m2 ++ post) s1 p Hp Hm1). simpl.
    rewrite (app_assoc pre s1), <- !app_assoc.
    rewrite (app_assoc pre s1 (m2 ++ post)).
    rewrite (store_split (pre ++ s1) m2 post s2);
      [rewrite <- !app_assoc; reflexivity| |lia].
    rewrite len_app. lia.
  - apply store_Overrun in E. rewrite len_app in E.
    destruct (store b p s1) as [b1|] eqn:E1; [|reflexivity]. simpl.
    apply store_Overrun. rewrite (store_len _ _ _ _ E1).
    intros [? ?]. apply E. split; [|lia].
    apply store_Ret in E1. destruct E1 as (pre & _ & _ & _ & _ & Hp & _).
    pose proof (len_nonneg pre). lia.
Qed.

Lemma store_store_before (b : buffer) (p : Z) (s1 s2 : list byte) :
  (b' <- store b (p + len s1) s2 ;; store b' p s1) = store b p (s1 ++ s2).
Proof.
  pose proof (len_nonneg s1) as H1. pose proof (len_nonneg s2) as H2.
  destruct (store b p (s1 ++ s2)) as [b2|] eqn:E.
  - apply store_Ret in E.
    destruct E as (pre & mid & post & -> & -> & Hp & Hm).
    rewrite len_app in Hm.
    destruct (bounds_split mid 0 (len s1) ltac:(lia) H1 ltac:(lia))
      as (m0 & m1 & m2 & -> & Hm0 & Hm1).
    destruct m0; [|rewrite len_cons in Hm0; pose proof (len_nonneg m0); lia].
    simpl in *. rewrite len_app in Hm.
    rewrite <- app_assoc.
    rewrite (app_assoc pre m1 (m2 ++ post)).
    rewrite (store_split (pre ++ m1) m2 post s2);
      [|rewrite len_app; lia|lia]. simpl.
    rewrite <- !app_assoc.
    rewrite (store_split pre m1 (s2 ++ post) s1 p Hp Hm1). reflexivity.
  - apply store_Overrun in E. rewrite len_app in E.
    destruct (store b (p + len s1) s2) as [b1|] eqn:E1; [|reflexivity]. simpl.
    apply store_Overrun. rewrite (store_len _ _ _ _ E1).
    intros [? ?]. apply E. split; [lia|].
    apply store_Ret in E1.
    destruct E1 as (pre & mid & post & -> & _ & Hp & Hm).
    rewrite !len_app. pose proof (len_nonneg post). lia.
Qed.

(** A load of a concatenation is the two loads side by side. *)
Lemma load_app_inv (b : buffer) (p : Z) (s1 s2 : list byte) :
  load b p (len (s1 ++ s2)) = Ret (s1 ++ s2) ->
  load b p (len s1) = Ret s1 /\ load b (p + len s1) (len s2) = Ret s2.
Proof.
  intros H. apply load_Ret in H.
  destruct H as (pre & post & -> & Hp & _). split.
  - rewrite <- app_assoc. apply load_split; auto.
  - rewrite <- app_assoc, (app_assoc pre s1). apply load_split; auto.
    rewrite len_app. lia.
Qed.

(** ** Integer encodings *)

Lemma length_le_bytes (n : nat) (v : Z) : List.length (le_bytes n v) = n.
Proof. revert v. induction n; intros; simpl; auto. Qed.

Lemma length_be_bytes (n : nat) (v : Z) : List.length (be_bytes n v) = n.
Proof. unfold be_bytes. rewrite length_rev. apply length_le_bytes. Qed.

Lemma len_be_bytes (n : nat) (v : Z) : len (be_bytes n v) = Z.of_nat n.
Proof. unfold len. rewrite length_be_bytes. reflexivity. Qed.

Lemma pow256_succ (n : nat) : 2 ^ (8 * Z.of_nat (S n)) = 256 * 2 ^ (8 * Z.of_nat n).
Proof.
  replace (8 * Z.of_nat (S n)) with (8 + 8 * Z.of_nat n) by lia.
  rewrite Z.pow_add_r by lia. reflexivity.
Qed.

Lemma pow256_pos (n : nat) : 0 < 2 ^ (8 * Z.of_nat n).
Proof. apply Z.pow_pos_nonneg; lia. Qed.

Lemma le_value_le_bytes (n : nat) (v : Z) :
  le_value (le_bytes n v) = v mod 2 ^ (8 * Z.of_nat n).
Proof.
  revert v. induction n; intros v.
  - simpl. rewrite Z.mod_1_r. reflexivity.
  - cbn [le_bytes le_value]. rewrite IHn, byte_to_of_Z, pow256_succ.
    rewrite Z.rem_mul_r by (pose proof (pow256_pos n); lia). reflexivity.
Qed.

Lemma le_bytes_le_value (bs : list byte) :
  le_bytes (List.length bs) (le_value bs) = bs.
Proof.
  induction bs as [|b bs IH]; [reflexivity|].
  cbn [List.length le_bytes le_value].
  pose proof (byte_to_Z_range b) as Hb.
  f_equal.
  - rewrite <- byte_of_Z_mod.
    rewrite (Z.mul_comm 256), Z.mod_add by lia.
    rewrite Z.mod_small by lia. apply byte_of_to_Z.
  - rewrite (Z.mul_comm 256), Z.div_add by lia.
    rewrite Z.div_small by lia. exact IH.
Qed.

Lemma le_bytes_mod (n : nat) (v : Z) :
  le_bytes n (v mod 2 ^ (8 * Z.of_nat n)) = le_bytes n v.
Proof.
  rewrite <- le_value_le_bytes.
  rewrite <- (length_le_bytes n v) at 1.
  apply le_bytes_le_value.
Qed.

Lemma le_bytes_app (n m : nat) (v : Z) :
  le_bytes (n + m) v = le_bytes n v ++ le_bytes m (v / 2 ^ (8 * Z.of_nat n)).
Proof.
  revert v. induction n; intros v.
  - simpl. rewrite Z.div_1_r. reflexivity.
  - cbn [Nat.add le_bytes app]. rewrite IHn, pow256_succ.
    rewrite Z.div_div by (pose proof (pow256_pos n); lia). reflexivity.
Qed.

Lemma be_value_be_bytes (n : nat) (v : Z) :
  be_value (be_bytes n v) = v mod 2 ^ (8 * Z.of_nat n).
Proof.
  unfold be_value, be_bytes. rewrite rev_involutive. apply le_value_le_bytes.
Qed.

Lemma be_bytes_be_value (bs : list byte) :
  be_bytes (List.length bs) (be_value bs) = bs.
Proof.
  unfold be_value, be_bytes. rewrite <- (length_rev bs).
  rewrite le_bytes_le_value. apply rev_involutive.
Qed.

Lemma be_bytes_mod (n : nat) (v : Z) :
  be_bytes n (v mod 2 ^ (8 * Z.of_nat n)) = be_bytes n v.
Proof. unfold be_bytes. rewrite le_bytes_mod. reflexivity. Qed.

Lemma be_bytes_app (n m : nat) (v : Z) :
  be_bytes (m + n) v = be_bytes m (v / 2 ^ (8 * Z.of_nat n)) ++ be_bytes n v.
Proof.
  unfold be_bytes. rewrite Nat.add_comm, le_bytes_app, rev_app_distr.
  reflexivity.
Qed.

(** The object representation of a host integer and its value are inverse
    to each other, whatever the byte order of the host. *)
Lemma host_bytes_value (bs : list byte) :
  host_bytes (List.length bs) (host_value bs) = bs.
Proof.
  unfold host_bytes, host_value. destruct host.
  - apply le_bytes_le_value.
  - apply be_bytes_be_value.
Qed.

(** [htons] followed by the [memcpy] of the object puts the network-order
    bytes in the buffer, on every host. *)
Lemma wire_htons (v : Z) : host_bytes 2 (htons v) = be_bytes 2 v.
Proof.
  unfold htons. rewrite <- (length_be_bytes 2 v) at 1. apply host_bytes_value.
Qed.

Lemma wire_htonl (v : Z) : host_bytes 4 (htonl v) = be_bytes 4 v.
Proof.
  unfold htonl. rewrite <- (length_be_bytes 4 v) at 1. apply host_bytes_value.
Qed.

Lemma wire_ntohs (bs : list byte) :
  List.length bs = 2%nat -> ntohs (host_value bs) = be_value bs.
Proof.
  intros H. unfold ntohs. rewrite <- H, host_bytes_value. reflexivity.
Qed.

Lemma wire_ntohl (bs : list byte) :
  List.length bs = 4%nat -> ntohl (host_value bs) = be_value bs.
Proof.
  intros H. unfold ntohl. rewrite <- H, host_bytes_value. reflexivity.
Qed.

Lemma be_value_range (bs : list byte) :
  0 <= be_value bs < 2 ^ (8 * len bs).
Proof.
  pose proof (be_value_be_bytes (List.length bs) (be_value bs)) as H.
  rewrite be_bytes_be_value in H. rewrite H. unfold len.
  apply Z.mod_pos_bound, pow256_pos.
Qed.

(** ** The writers and readers as one store or one load *)

Lemma write_u16_store (buf : buffer) (p val : Z) :
  write_u16 buf p val =
  (buf' <- store buf p (be_bytes 2 val) ;; Ret (2, buf')).
Proof.
  unfold write_u16. rewrite wire_htons.
  unfold to_uint16. change (2 ^ 16) with (2 ^ (8 * Z.of_nat 2)).
  rewrite be_bytes_mod. reflexivity.
Qed.

Lemma write_u32_store (buf : buffer) (p val : Z) :
  write_u32 buf p val =
  (buf' <- store buf p (be_bytes 4 val) ;; Ret (4, buf')).
Proof.
  unfold write_u32. rewrite wire_htonl.
  unfold to_uint32. change (2 ^ 32) with (2 ^ (8 * Z.of_nat 4)).
  rewrite be_bytes_mod. reflexivity.
Qed.

Lemma read_u16_load (buf : buffer) (p : Z) :
  read_u16 buf p = (bs <- load buf p 2 ;; Ret (2, be_value bs)).
Proof.
  unfold read_u16. destruct (load buf p 2) as [bs|] eqn:E; [|reflexivity].
  simpl. apply load_Ret in E. destruct E as (_ & _ & _ & _ & Hl).
  rewrite wire_ntohs; [reflexivity|]. unfold len in Hl. lia.
Qed.

Lemma read_u32_load (buf : buffer) (p : Z) :
  read_u32 buf p = (bs <- load buf p 4 ;; Ret (4, be_value bs)).
Proof.
  unfold read_u32. destruct (load buf p 4) as [bs|] eqn:E; [|reflexivity].
  simpl. apply load_Ret in E. destruct E as (_ & _ & _ & _ & Hl).
  rewrite wire_ntohl; [reflexivity|]. unfold len in Hl. lia.
Qed.

Ltac bind_case :=
  match goal with
  | |- context [bind ?m _] =>
      let E := fresh "E" in destruct m eqn:E; cbn [bind]
  end.

Lemma load_bounds (b : buffer) (p n : Z) (bs : list byte) :
  load b p n = Ret bs -> 0 <= p /\ 0 <= n /\ p + n <= len b.
Proof.
  intros H. destruct (in_bounds b p n) eqn:E.
  - apply in_bounds_true. exact E.
  - unfold load in H. rewrite E in H. discriminate.
Qed.

Lemma load_len (b : buffer) (p n : Z) (bs : list byte) :
  load b p n = Ret bs -> len bs = n.
Proof. intros H. apply load_Ret in H. destruct H as (_ & _ & _ & _ & H). exact H. Qed.

(** A load inside a region already loaded. *)
Lemma load_sub (b : buffer) (p n : Z) (bs : list byte) (i m : nat) :
  load b p n = Ret bs -> Z.of_nat i + Z.of_nat m <= n ->
  load b (p + Z.of_nat i) (Z.of_nat m) = Ret (slice bs i m).
Proof.
  intros H Him. apply load_Ret in H.
  destruct H as (pre & post & -> & Hp & Hn).
  unfold slice.
  rewrite <- (firstn_skipn i bs) at 1.
  rewrite <- (firstn_skipn m (skipn i bs)) at 1.
  rewrite <- !app_assoc, (app_assoc pre).
  apply load_split.
  - rewrite len_app. unfold len in *. rewrite length_firstn. lia.
  - unfold len in *. rewrite length_firstn, length_skipn. lia.
Qed.

Lemma i64_high_bytes (val : Z) :
  be_bytes 4 (to_uint32 (Z.land (Z.shiftr val 32) 0xFFFFFFFF)) =
  be_bytes 4 (val / 2 ^ 32).
Proof.
  change 0xFFFFFFFF with (Z.ones 32).
  rewrite Z.land_ones, Z.shiftr_div_pow2 by lia.
  unfold to_uint32. change (2 ^ 32) with (2 ^ (8 * Z.of_nat 4)).
  rewrite !be_bytes_mod. reflexivity.
Qed.

Lemma i64_low_bytes (val : Z) :
  be_bytes 4 (to_uint32 (Z.land val 0xFFFFFFFF)) = be_bytes 4 val.
Proof.
  change 0xFFFFFFFF with (Z.ones 32).
  rewrite Z.land_ones by lia.
  unfold to_uint32. change (2 ^ 32) with (2 ^ (8 * Z.of_nat 4)).
  rewrite !be_bytes_mod. reflexivity.
Qed.

Lemma bind_assoc {A B C : Type} (m : access A) (f : A -> access B)
    (g : B -> access C) :
  bind (bind m f) g = bind m (fun a => bind (f a) g).
Proof. destruct m; reflexivity. Qed.

(** One step of a writer that is a sequence of stores: the first store is
    split off the store of the whole, and both sides proceed from the same
    intermediate array. *)
Ltac store_step :=
  rewrite <- store_store_adjacent; rewrite ?len_be_bytes;
  rewrite !bind_assoc;
  match goal with
  | |- bind (store ?b ?q ?s) _ = bind (store ?b ?q' ?s) _ =>
      replace q with q' by lia;
      destruct (store b q' s); cbn [bind]; [|reflexivity]
  end.

Lemma write_i64_store (buf : buffer) (p val : Z) :
  write_i64 buf p val =
  (buf' <- store buf p (be_bytes 8 val) ;; Ret (8, buf')).
Proof.
  unfold write_i64.
  change 8%nat with (4 + 4)%nat. rewrite be_bytes_app.
  change (2 ^ (8 * Z.of_nat 4)) with (2 ^ 32).
  rewrite write_u32_store, i64_high_bytes. store_step.
  rewrite write_u32_store, i64_low_bytes, bind_assoc.
  match goal with
  | |- bind (store ?b ?q ?s) _ = bind (store ?b ?q' ?s) _ =>
      replace q with q' by lia; destruct (store b q' s); reflexivity
  end.
Qed.

Lemma write_header_store (buf : buffer) (p : Z) (h : Header) :
  write_header buf p h =
  (buf' <- store buf p (header_wire h) ;; Ret (16, buf')).
Proof.
  unfold write_header, header_wire.
  rewrite write_u16_store. store_step.
  rewrite write_u16_store. store_step.
  rewrite write_u32_store. store_step.
  rewrite write_u32_store. store_step.
  rewrite write_u32_store, bind_assoc.
  match goal with
  | |- bind (store ?b ?q ?s) _ = bind (store ?b ?q' ?s) _ =>
      replace q with q' by lia; destruct (store b q' s); reflexivity
  end.
Qed.

Lemma load_at (b : buffer) (p n : Z) (bs : list byte) (q m : Z) (i : nat) :
  load b p n = Ret bs -> q = p + Z.of_nat i -> 0 <= m -> Z.of_nat i + m <= n ->
  load b q m = Ret (slice bs i (Z.to_nat m)).
Proof.
  intros H -> Hm Him. rewrite <- (Z2Nat.id m) at 1 by lia.
  apply (load_sub _ _ _ _ _ _ H). lia.
Qed.

Lemma read_header_load (buf : buffer) (p : Z) :
  read_header buf p =
  (bs <- load buf p 16 ;; Ret (16, header_of_wire bs)).
Proof.
  unfold read_header.
  destruct (load buf p 16) as [bs|] eqn:E; cbn [bind].
  - rewrite read_u16_load, (load_at _ _ _ _ _ _ 0 E) by lia. cbn [bind].
    rewrite read_u16_load, (load_at _ _ _ _ _ _ 2 E) by lia. cbn [bind].
    rewrite read_u32_load, (load_at _ _ _ _ _ _ 4 E) by lia. cbn [bind].
    rewrite read_u32_load, (load_at _ _ _ _ _ _ 8 E) by lia. cbn [bind].
    rewrite read_u32_load, (load_at _ _ _ _ _ _ 12 E) by lia. cbn [bind].
    reflexivity.
  - apply load_Overrun in E.
    rewrite read_u16_load, bind_assoc. bind_case; [|reflexivity].
    rewrite read_u16_load, bind_assoc. bind_case; [|reflexivity].
    rewrite read_u32_load, bind_assoc. bind_case; [|reflexivity].
    rewrite read_u32_load, bind_assoc. bind_case; [|reflexivity].
    rewrite read_u32_load, bind_assoc. bind_case; [|reflexivity].
    exfalso. apply E.
    apply load_bounds in E0, E4. lia.
Qed.

(** ** Header round trip *)

Lemma len_header_wire (h : Header) : len (header_wire h) = 16.
Proof.
  unfold header_wire. rewrite !len_app, !len_be_bytes. reflexivity.
Qed.

Lemma slice_app_here (s r : list byte) (n : nat) :
  List.length s = n -> slice (s ++ r) 0 n = s.
Proof.
  intros <-. unfold slice. simpl.
  rewrite firstn_app, firstn_all, Nat.sub_diag. simpl. apply app_nil_r.
Qed.

Lemma slice_app_skip (s r : list byte) (k i n : nat) :
  List.length s = k -> slice (s ++ r) (k + i) n = slice r i n.
Proof.
  intros <-. unfold slice.
  rewrite skipn_app, skipn_all2 by lia. simpl.
  replace (List.length s + i - List.length s)%nat with i by lia. reflexivity.
Qed.

Lemma header_of_wire_header_wire (h : Header) :
  header_wf h -> header_of_wire (header_wire h) = h.
Proof.
  destruct h as [v o r f l]. unfold header_wf, is_uint16, is_uint32.
  cbn [version opCode requestId flags payloadLen]. intros (Hv & Ho & Hr & Hf & Hl).
  unfold header_of_wire, header_wire.
  cbn [version opCode requestId flags payloadLen].
  rewrite slice_app_here by apply length_be_bytes.
  rewrite (slice_app_skip _ _ 2 0) by apply length_be_bytes.
  rewrite slice_app_here by apply length_be_bytes.
  rewrite (slice_app_skip _ _ 2 2) by apply length_be_bytes.
  rewrite (slice_app_skip _ _ 2 0) by apply length_be_bytes.
  rewrite slice_app_here by apply length_be_bytes.
  rewrite (slice_app_skip _ _ 2 6) by apply length_be_bytes.
  rewrite (slice_app_skip _ _ 2 4) by apply length_be_bytes.
  rewrite (slice_app_skip _ _ 4 0) by apply length_be_bytes.
  rewrite slice_app_here by apply length_be_bytes.
  rewrite (slice_app_skip _ _ 2 10) by apply length_be_bytes.
  rewrite (slice_app_skip _ _ 2 8) by apply length_be_bytes.
  rewrite (slice_app_skip _ _ 4 4) by apply length_be_bytes.
  rewrite (slice_app_skip _ _ 4 0) by apply length_be_bytes.
  rewrite <- (app_nil_r (be_bytes 4 l)).
  rewrite slice_app_here by apply length_be_bytes.
  rewrite !be_value_be_bytes.
  change (2 ^ (8 * Z.of_nat 2)) with (2 ^ 16).
  change (2 ^ (8 * Z.of_nat 4)) with (2 ^ 32).
  rewrite !Z.mod_small by assumption. reflexivity.
Qed.

(** C3.  For every header [h] whose fields fit their C types and every
    array with 16 bytes of room at the offset written to, [write_header]
    returns 16 and overwrites exactly those 16 bytes with the five fields in
    order, each big-endian and with nothing in between (the array is
    the same before and after the region), and [read_header] on the
    result returns 16 and a header equal to [h]. *)
Theorem header_round_trip (buf : buffer) (p : Z) (h : Header) :
  header_wf h -> 0 <= p -> p + 16 <= len buf ->
  exists pre old post,
    buf = pre ++ old ++ post /\ len pre = p /\ len old = 16 /\
    write_header buf p h = Ret (16, pre ++ header_wire h ++ post) /\
    header_wire h =
      [byte_of_Z (version h / 256); byte_of_Z (version h);
       byte_of_Z (opCode h / 256); byte_of_Z (opCode h);
       byte_of_Z (requestId h / 256 / 256 / 256);
       byte_of_Z (requestId h / 256 / 256);
       byte_of_Z (requestId h / 256); byte_of_Z (requestId h);
       byte_of_Z (flags h / 256 / 256 / 256);
       byte_of_Z (flags h / 256 / 256);
       byte_of_Z (flags h / 256); byte_of_Z (flags h);
       byte_of_Z (payloadLen h / 256 / 256 / 256);
       byte_of_Z (payloadLen h / 256 / 256);
       byte_of_Z (payloadLen h / 256); byte_of_Z (payloadLen h)] /\
    read_header (pre ++ header_wire h ++ post) p = Ret (16, h).
Proof.
  intros Hwf Hp Hb.
  destruct (bounds_split buf p 16 Hp ltac:(lia) Hb)
    as (pre & old & post & -> & Hpre & Hold).
  exists pre, old, post. repeat split; auto.
  - rewrite write_header_store, (store_split pre old post); auto.
  - rewrite read_header_load.
    rewrite <- (len_header_wire h) at 1.
    rewrite load_split by auto. cbn [bind].
    rewrite header_of_wire_header_wire by exact Hwf. reflexivity.
Qed.

(** ** 64-bit integers *)

Lemma le_value_app (a b : list byte) :
  le_value (a ++ b) = le_value a + 2 ^ (8 * len a) * le_value b.
Proof.
  induction a as [|x a IH].
  - cbn [app le_value]. change (2 ^ (8 * len (@nil byte))) with 1. lia.
  - cbn [app le_value]. rewrite IH, len_cons.
    replace (8 * (1 + len a)) with (8 + 8 * len a) by lia.
    rewrite Z.pow_add_r by (pose proof (len_nonneg a); lia).
    change (2 ^ 8) with 256. ring.
Qed.

Lemma be_value_app (s1 s2 : list byte) :
  be_value (s1 ++ s2) = be_value s1 * 2 ^ (8 * len s2) + be_value s2.
Proof.
  unfold be_value. rewrite rev_app_distr, le_value_app.
  unfold len. rewrite length_rev. ring.
Qed.

Lemma lor_mul_pow2 (k lo n : Z) :
  0 <= n -> 0 <= lo < 2 ^ n -> Z.lor (k * 2 ^ n) lo = k * 2 ^ n + lo.
Proof.
  intros Hn Hlo. rewrite <- Z.add_lor_land.
  assert (Z.land (k * 2 ^ n) lo = 0) as ->; [|lia].
  apply Z.bits_inj'. intros i Hi.
  rewrite Z.land_spec, Z.bits_0.
  destruct (Z.lt_ge_cases i n) as [Hlt|Hge].
  - rewrite Z.mul_pow2_bits_low by lia. reflexivity.
  - rewrite <- (Z.mod_small lo (2 ^ n)) by lia.
    rewrite Z.mod_pow2_bits_high by lia. apply andb_false_r.
Qed.

Lemma to_int64_mul_pow32 (hi : Z) :
  exists k, to_int64 (hi * 2 ^ 32) = k * 2 ^ 32.
Proof.
  unfold to_int64.
  exists (hi - 2 ^ 32 * ((hi * 2 ^ 32 + 2 ^ 63) / 2 ^ 64)).
  rewrite Z.mod_eq by lia. lia.
Qed.

(** The 64-bit value [read_i64] assembles from the two words. *)
Lemma i64_of_words (hi lo : Z) :
  0 <= lo < 2 ^ 32 ->
  Z.lor (to_int64 (Z.shiftl hi 32)) lo = to_int64 (hi * 2 ^ 32 + lo).
Proof.
  intros Hlo. rewrite Z.shiftl_mul_pow2 by lia.
  destruct (to_int64_mul_pow32 hi) as (k & Hk).
  rewrite Hk, lor_mul_pow2 by lia. rewrite <- Hk.
  unfold to_int64. Z.div_mod_to_equations. lia.
Qed.

Lemma bs_halves (bs : list byte) :
  len bs = 8 -> bs = slice bs 0 4 ++ slice bs 4 4.
Proof.
  intros H. unfold slice. simpl skipn at 1.
  rewrite <- (firstn_skipn 4 bs) at 1. f_equal.
  symmetry. apply firstn_all2. rewrite length_skipn. unfold len in H. lia.
Qed.

Lemma read_i64_load (buf : buffer) (p : Z) :
  read_i64 buf p =
  (bs <- load buf p 8 ;; Ret (8, to_int64 (be_value bs))).
Proof.
  unfold read_i64.
  destruct (load buf p 8) as [bs|] eqn:E; cbn [bind].
  - rewrite read_u32_load, (load_at _ _ _ _ _ _ 0 E) by lia. cbn [bind].
    rewrite read_u32_load, (load_at _ _ _ _ _ _ 4 E) by lia. cbn [bind].
    change (Z.to_nat 4) with 4%nat.
    pose proof (load_len _ _ _ _ E) as Hl.
    assert (len (slice bs 4 4) = 4) as Hl4.
    { unfold slice, len in *. rewrite length_firstn, length_skipn. lia. }
    rewrite i64_of_words.
    + rewrite (bs_halves bs Hl) at 3. rewrite be_value_app, Hl4. reflexivity.
    + pose proof (be_value_range (slice bs 4 4)) as Hr. rewrite Hl4 in Hr.
      exact Hr.
  - apply load_Overrun in E.
    rewrite read_u32_load, bind_assoc. bind_case; [|reflexivity].
    rewrite read_u32_load, bind_assoc. bind_case; [|reflexivity].
    exfalso. apply E. apply load_bounds in E0, E1. lia.
Qed.

Lemma to_int64_mod (x : Z) : is_int64 x -> to_int64 (x mod 2 ^ 64) = x.
Proof.
  unfold is_int64, to_int64. intros H.
  rewrite Zplus_mod_idemp_l.
  destruct (Z_lt_le_dec x 0).
  - rewrite Z.mod_small by lia. lia.
  - rewrite Z.mod_small by lia. lia.
Qed.

(** ** Strings *)

Lemma byte_eqb_eq (a b : byte) : Byte.eqb a b = true <-> a = b.
Proof. split; [apply Byte.byte_dec_bl | apply Byte.byte_dec_lb]. Qed.

Lemma byte_eqb_neq (a b : byte) : Byte.eqb a b = false <-> a <> b.
Proof.
  split.
  - apply Byte.eqb_false.
  - intros H. destruct (Byte.eqb a b) eqn:E; [|reflexivity].
    apply byte_eqb_eq in E. contradiction.
Qed.

Definition no_nul (s : list byte) : Prop := Forall (fun c => c <> Byte.x00) s.

Lemma c_str_no_nul (str : list byte) : no_nul (c_str str).
Proof.
  induction str as [|c str IH]; cbn [c_str]; [constructor|].
  destruct (Byte.eqb c Byte.x00) eqn:E; constructor; auto.
  apply byte_eqb_neq. exact E.
Qed.

Lemma c_str_terminated (s rest : list byte) :
  no_nul s -> c_str (s ++ Byte.x00 :: rest) = s.
Proof.
  induction 1 as [|c s Hc Hs IH]; cbn [app c_str].
  - reflexivity.
  - apply byte_eqb_neq in Hc. rewrite Hc, IH. reflexivity.
Qed.

Lemma strlen_terminated (s rest : list byte) :
  no_nul s -> strlen (s ++ Byte.x00 :: rest) = Ret (len s).
Proof.
  induction 1 as [|c s Hc Hs IH]; cbn [app strlen].
  - reflexivity.
  - apply byte_eqb_neq in Hc. rewrite Hc, IH. cbn [bind].
    rewrite len_cons. f_equal. lia.
Qed.

Lemma strlen_Ret (str : list byte) (l : Z) :
  strlen str = Ret l ->
  l = len (c_str str) /\ exists rest, str = c_str str ++ Byte.x00 :: rest.
Proof.
  revert l. induction str as [|c str IH]; intros l; cbn [strlen c_str].
  - discriminate.
  - destruct (Byte.eqb c Byte.x00) eqn:E.
    + intros H. injection H as <-. apply byte_eqb_eq in E. subst c.
      split; [reflexivity|]. exists str. reflexivity.
    + destruct (strlen str) as [n|]; cbn [bind]; [|discriminate].
      intros H. injection H as <-.
      destruct (IH n eq_refl) as (-> & rest & Hrest).
      split; [rewrite len_cons; lia|].
      exists rest. cbn [app]. f_equal. exact Hrest.
Qed.

Lemma to_int_small (z : Z) : INT_MIN <= z <= INT_MAX -> to_int z = z.
Proof.
  unfold INT_MIN, INT_MAX, to_int. intros H.
  rewrite Z.mod_small by lia. lia.
Qed.

Lemma load_prefix (s rest : list byte) (n : Z) :
  0 <= n <= len s ->
  load (s ++ rest) 0 n = Ret (firstn (Z.to_nat n) s).
Proof.
  intros Hn.
  rewrite <- (firstn_skipn (Z.to_nat n) s) at 1. rewrite <- app_assoc.
  apply (load_split [] _ _ 0 n); [reflexivity|].
  unfold len in *. rewrite length_firstn. lia.
Qed.

(** [write_string] as one store of the prefix and the clamped text. *)
Lemma write_string_store (buf : buffer) (p : Z) (str : list byte) (l : Z) :
  strlen str = Ret l ->
  write_string buf p str =
  (buf' <- store buf p (be_bytes 2 (Z.min l 65535) ++
                        firstn (Z.to_nat (Z.min l 65535)) (c_str str)) ;;
   Ret (2 + Z.min l 65535, buf')).
Proof.
  intros Hl. unfold write_string. rewrite Hl. cbn [bind].
  destruct (strlen_Ret _ _ Hl) as (Hlen & rest & Hstr).
  pose proof (len_nonneg (c_str str)) as Hnn.
  assert ((if 0xFFFF <? l then 0xFFFF else l) = Z.min l 65535) as ->.
  { destruct (Z.ltb_spec 0xFFFF l); lia. }
  set (n := Z.min l 65535) in *.
  assert (0 <= n <= len (c_str str)) as Hn by lia.
  rewrite write_u16_store.
  unfold to_uint16. change (2 ^ 16) with (2 ^ (8 * Z.of_nat 2)).
  rewrite be_bytes_mod.
  rewrite <- store_store_adjacent, len_be_bytes, !bind_assoc.
  rewrite Z.add_0_r.
  destruct (store buf p (be_bytes 2 n)) as [b1|]; cbn [bind]; [|reflexivity].
  unfold memcpy. rewrite Hstr at 1. rewrite load_prefix by exact Hn.
  cbn [bind]. change (p + (0 + 2)) with (p + Z.of_nat 2).
  destruct (store b1 (p + Z.of_nat 2) _) as [b2|]; cbn [bind]; [|reflexivity].
  rewrite to_int_small by (unfold INT_MIN, INT_MAX; lia).
  reflexivity.
Qed.

Lemma write_string_unterminated (buf : buffer) (p : Z) (str : list byte) :
  strlen str = Overrun -> write_string buf p str = Overrun.
Proof. intros H. unfold write_string. rewrite H. reflexivity. Qed.

(** [read_string] as a load of the prefix, the capacity test, a load of the
    text and one store of the text with its terminator. *)
Lemma read_string_load (buf : buffer) (p : Z) (out : buffer) (max_len : Z) :
  read_string buf p out max_len =
  (pre <- load buf p 2 ;;
   if max_len <=? be_value pre then Ret (-1, out)
   else
     text <- load buf (p + 2) (be_value pre) ;;
     out' <- store out 0 (text ++ [Byte.x00]) ;;
     Ret (2 + be_value pre, out')).
Proof.
  unfold read_string. rewrite read_u16_load, bind_assoc, Z.add_0_r.
  destruct (load buf p 2) as [pre|] eqn:E; cbn [bind]; [|reflexivity].
  destruct (max_len <=? be_value pre); [reflexivity|].
  pose proof (be_value_range pre) as Hr.
  rewrite (load_len _ _ _ _ E) in Hr. change (2 ^ (8 * 2)) with (2 ^ 16) in Hr.
  unfold memcpy. change (p + (0 + 2)) with (p + 2).
  rewrite bind_assoc.
  destruct (load buf (p + 2) (be_value pre)) as [text|] eqn:E2; cbn [bind];
    [|reflexivity].
  rewrite <- store_store_adjacent, bind_assoc.
  rewrite (load_len _ _ _ _ E2). rewrite (Z.add_0_l (be_value pre)).
  destruct (store out 0 text) as [o1|]; cbn [bind]; [|reflexivity].
  destruct (store o1 (be_value pre) [Byte.x00]) as [o2|]; cbn [bind];
    [|reflexivity].
  rewrite to_int_small by (unfold INT_MIN, INT_MAX; lia).
  reflexivity.
Qed.

(** ** Field round trips *)

Lemma u16_round_trip (buf : buffer) (p x : Z) :
  is_uint16 x -> 0 <= p -> p + 2 <= len buf ->
  exists buf', write_u16 buf p x = Ret (2, buf') /\
               read_u16 buf' p = Ret (2, x).
Proof.
  unfold is_uint16. intros Hx Hp Hb.
  destruct (bounds_split buf p 2 Hp ltac:(lia) Hb)
    as (pre & old & post & -> & Hpre & Hold).
  exists (pre ++ be_bytes 2 x ++ post). split.
  - rewrite write_u16_store, (store_split pre old post); auto.
  - rewrite read_u16_load, (load_split pre (be_bytes 2 x) post); auto.
    cbn [bind]. rewrite be_value_be_bytes.
    change (2 ^ (8 * Z.of_nat 2)) with (2 ^ 16).
    rewrite Z.mod_small by lia. reflexivity.
Qed.

Lemma u32_round_trip (buf : buffer) (p x : Z) :
  is_uint32 x -> 0 <= p -> p + 4 <= len buf ->
  exists buf', write_u32 buf p x = Ret (4, buf') /\
               read_u32 buf' p = Ret (4, x).
Proof.
  unfold is_uint32. intros Hx Hp Hb.
  destruct (bounds_split buf p 4 Hp ltac:(lia) Hb)
    as (pre & old & post & -> & Hpre & Hold).
  exists (pre ++ be_bytes 4 x ++ post). split.
  - rewrite write_u32_store, (store_split pre old post); auto.
  - rewrite read_u32_load, (load_split pre (be_bytes 4 x) post); auto.
    cbn [bind]. rewrite be_value_be_bytes.
    change (2 ^ (8 * Z.of_nat 4)) with (2 ^ 32).
    rewrite Z.mod_small by lia. reflexivity.
Qed.

Lemma i64_round_trip (buf : buffer) (p x : Z) :
  is_int64 x -> 0 <= p -> p + 8 <= len buf ->
  exists buf', write_i64 buf p x = Ret (8, buf') /\
               load buf' p 8 =
                 Ret (be_bytes 4 ((x / 2 ^ 32) mod 2 ^ 32) ++
                      be_bytes 4 (x mod 2 ^ 32)) /\
               read_i64 buf' p = Ret (8, x).
Proof.
  intros Hx Hp Hb.
  destruct (bounds_split buf p 8 Hp ltac:(lia) Hb)
    as (pre & old & post & -> & Hpre & Hold).
  assert (load (pre ++ be_bytes 8 x ++ post) p 8 = Ret (be_bytes 8 x)) as Hload
    by (apply load_split; auto).
  exists (pre ++ be_bytes 8 x ++ post). repeat split.
  - rewrite write_i64_store, (store_split pre old post); auto.
  - rewrite Hload. change (2 ^ 32) with (2 ^ (8 * Z.of_nat 4)).
    rewrite !be_bytes_mod. change 8%nat with (4 + 4)%nat.
    rewrite be_bytes_app. reflexivity.
  - rewrite read_i64_load, Hload. cbn [bind].
    rewrite be_value_be_bytes. change (2 ^ (8 * Z.of_nat 8)) with (2 ^ 64).
    rewrite to_int64_mod by exact Hx. reflexivity.
Qed.

Lemma string_round_trip (buf : buffer) (p : Z) (str : list byte) (l : Z)
    (out : buffer) (max_len : Z) :
  strlen str = Ret l -> l <= 65535 -> l < max_len -> max_len <= len out ->
  0 <= p -> p + 2 + l <= len buf ->
  exists buf' out',
    write_string buf p str = Ret (2 + l, buf') /\
    read_string buf' p out max_len = Ret (2 + l, out') /\
    c_str out' = c_str str.
Proof.
  intros Hl Hmax Hcap Hout Hp Hb.
  destruct (strlen_Ret _ _ Hl) as (Hlen & rest & Hstr).
  pose proof (len_nonneg (c_str str)) as Hnn.
  destruct (bounds_split buf p (2 + l) Hp ltac:(lia) ltac:(lia))
    as (pre & old & post & -> & Hpre & Hold).
  destruct (bounds_split out 0 (l + 1) ltac:(lia) ltac:(lia) ltac:(lia))
    as (o0 & o1 & o2 & -> & Ho0 & Ho1).
  set (s := c_str str) in *.
  exists (pre ++ (be_bytes 2 l ++ s) ++ post), (o0 ++ (s ++ [Byte.x00]) ++ o2).
  assert (len (be_bytes 2 l ++ s) = 2 + l) as Hws
    by (rewrite len_app, len_be_bytes; lia).
  assert (len (s ++ [Byte.x00]) = l + 1) as Hs0
    by (rewrite len_app; change (len [Byte.x00]) with 1; lia).
  repeat split.
  - rewrite (write_string_store _ _ _ _ Hl).
    rewrite Z.min_l by lia.
    rewrite firstn_all2 by (unfold len in Hlen; fold s; lia).
    fold s. rewrite (store_split pre old post); auto. lia.
  - rewrite read_string_load.
    rewrite <- app_assoc.
    rewrite (load_split pre (be_bytes 2 l) (s ++ post)); auto. cbn [bind].
    rewrite be_value_be_bytes. change (2 ^ (8 * Z.of_nat 2)) with (2 ^ 16).
    rewrite Z.mod_small by lia.
    destruct (Z.leb_spec max_len l); [lia|].
    rewrite (app_assoc pre (be_bytes 2 l)).
    rewrite (load_split (pre ++ be_bytes 2 l) s post);
      [|rewrite len_app, len_be_bytes; lia|lia].
    cbn [bind].
    rewrite (store_split o0 o1 o2); [reflexivity|exact Ho0|lia].
  - destruct o0; [|rewrite len_cons in Ho0; pose proof (len_nonneg o0); lia].
    cbn [app]. rewrite <- app_assoc. cbn [app].
    apply c_str_terminated, c_str_no_nul.
Qed.

(** C4.  Decoding what was encoded gives the value back, for each kind of
    field, on every array with room for the field at the offset used:
    every 16-bit and every 32-bit unsigned value; every signed 64-bit value
    (negative ones and zero included), which is written as the big-endian
    high word followed by the big-endian low word; and every C string of at
    most 65535 bytes that is shorter than the capacity [max_len] of the
    output array, where writer and reader both return 2 plus its length. *)
Theorem field_round_trip :
  (forall buf p x, is_uint16 x -> 0 <= p -> p + 2 <= len buf ->
     exists buf', write_u16 buf p x = Ret (2, buf') /\
                  read_u16 buf' p = Ret (2, x)) /\
  (forall buf p x, is_uint32 x -> 0 <= p -> p + 4 <= len buf ->
     exists buf', write_u32 buf p x = Ret (4, buf') /\
                  read_u32 buf' p = Ret (4, x)) /\
  (forall buf p x, is_int64 x -> 0 <= p -> p + 8 <= len buf ->
     exists buf', write_i64 buf p x = Ret (8, buf') /\
                  load buf' p 8 =
                    Ret (be_bytes 4 ((x / 2 ^ 32) mod 2 ^ 32) ++
                         be_bytes 4 (x mod 2 ^ 32)) /\
                  read_i64 buf' p = Ret (8, x)) /\
  (forall buf p str l out max_len,
     strlen str = Ret l -> l <= 65535 -> l < max_len -> max_len <= len out ->
     0 <= p -> p + 2 + l <= len buf ->
     exists buf' out',
       write_string buf p str = Ret (2 + l, buf') /\
       read_string buf' p out max_len = Ret (2 + l, out') /\
       c_str out' = c_str str).
Proof.
  split; [exact u16_round_trip|].
  split; [exact u32_round_trip|].
  split; [exact i64_round_trip|exact string_round_trip].
Qed.

(** ** Clamping of long strings *)

(** C8.  For every C string of length [l], [write_string] on an array with
    room for the result stores the big-endian 16-bit prefix
    [min l 65535] followed by the first [min l 65535] bytes of the string,
    and returns [2 + min l 65535]: a longer string is cut, and the call
    returns a byte count like any other, not an error. *)
Theorem write_string_clamps (buf : buffer) (p : Z) (str : list byte) (l : Z) :
  strlen str = Ret l -> 0 <= p -> p + 2 + Z.min l 65535 <= len buf ->
  exists pre old post,
    buf = pre ++ old ++ post /\ len pre = p /\ len old = 2 + Z.min l 65535 /\
    write_string buf p str =
      Ret (2 + Z.min l 65535,
           pre ++ ([byte_of_Z (Z.min l 65535 / 256); byte_of_Z (Z.min l 65535)]
                   ++ firstn (Z.to_nat (Z.min l 65535)) (c_str str)) ++ post) /\
    len (firstn (Z.to_nat (Z.min l 65535)) (c_str str)) = Z.min l 65535.
Proof.
  intros Hl Hp Hb.
  destruct (strlen_Ret _ _ Hl) as (Hlen & rest & Hstr).
  pose proof (len_nonneg (c_str str)) as Hnn.
  assert (len (firstn (Z.to_nat (Z.min l 65535)) (c_str str)) = Z.min l 65535)
    as Hcut.
  { unfold len in *. rewrite length_firstn. lia. }
  destruct (bounds_split buf p (2 + Z.min l 65535) Hp ltac:(lia) ltac:(lia))
    as (pre & old & post & -> & Hpre & Hold).
  exists pre, old, post. repeat split; auto.
  rewrite (write_string_store _ _ _ _ Hl).
  change (be_bytes 2 (Z.min l 65535))
    with [byte_of_Z (Z.min l 65535 / 256); byte_of_Z (Z.min l 65535)].
  rewrite (store_split pre old post); auto.
  rewrite len_app, Hcut, Hold. reflexivity.
Qed.

(** ** The retry loop *)

Lemma sent_datagrams_app (tr1 tr2 : list event) :
  sent_datagrams (tr1 ++ tr2) = sent_datagrams tr1 ++ sent_datagrams tr2.
Proof.
  induction tr1 as [|e tr1 IH]; [reflexivity|].
  destruct e; cbn [app sent_datagrams]; rewrite IH; reflexivity.
Qed.

Lemma to_int_range (z : Z) : is_int (to_int z).
Proof.
  unfold is_int, INT_MIN, INT_MAX, to_int.
  pose proof (Z.mod_pos_bound (z + 2 ^ 31) (2 ^ 32) ltac:(lia)). lia.
Qed.

Lemma load_whole_prefix (b : buffer) (n : Z) :
  0 <= n <= len b -> load b 0 n = Ret (firstn (Z.to_nat n) b).
Proof.
  intros H. rewrite <- (app_nil_r b) at 1. apply load_prefix. exact H.
Qed.

Lemma repeat_snoc {A : Type} (a : A) (n : nat) :
  repeat a n ++ [a] = repeat a (S n).
Proof. induction n; simpl; [reflexivity|]. rewrite IHn. reflexivity. Qed.

Ltac sent_simpl :=
  cbn [snd];
  repeat rewrite sent_datagrams_app;
  cbn [sent_datagrams snd repeat];
  repeat rewrite app_nil_r; repeat rewrite <- app_assoc; cbn [app];
  try reflexivity.

Section Loop.

Variable net : transport.
Variables request response : buffer.
Variables req_len resp_max timeout_ms max_retries : Z.

Let loop := fun fuel => udp_invoke_loop fuel net request req_len response
                          resp_max timeout_ms max_retries.

(** The datagram [sendto] is handed. *)
Let dgram := firstn (Z.to_nat (to_int req_len)) request.

(** Whatever the network does, the datagrams sent are copies of [dgram]. *)
Lemma loop_sends_same (fuel : nat) :
  forall k attempt tr,
  exists n, sent_datagrams (snd (loop fuel k attempt tr)) =
            sent_datagrams tr ++ repeat dgram n.
Proof.
  unfold loop.
  induction fuel as [|fuel IH]; intros k attempt tr; cbn [udp_invoke_loop];
    cbv zeta.
  - exists 0%nat. sent_simpl.
  - destruct (attempt <=? max_retries); [|exists 0%nat; sent_simpl].
    destruct (load request 0 (to_int req_len)) as [d|] eqn:El;
      [|exists 0%nat; sent_simpl].
    assert (d = dgram) as ->.
    { unfold load in El. destruct (in_bounds request 0 (to_int req_len));
        [|discriminate]. injection El as <-. reflexivity. }
    destruct (sendto_result net k <? 0).
    { destruct (IH (S k) (to_int (attempt + 1))
                  ((tr ++ [EvSendto dgram]) ++ [EvPerror "sendto failed"]))
        as (n & Hn).
      exists (S n). rewrite Hn. sent_simpl. }
    destruct (select_result net k <? 0); [exists 1%nat; sent_simpl|].
    destruct (select_result net k =? 0).
    { match goal with
      | |- context [udp_invoke_loop fuel _ _ _ _ _ _ _ ?k' ?a' ?tr'] =>
          destruct (IH k' a' tr') as (n & Hn)
      end.
      exists (S n). rewrite Hn. sent_simpl. }
    destruct (recvfrom_result net k) as [d|]; [|exists 1%nat; sent_simpl].
    destruct (store response 0 _); exists 1%nat; sent_simpl.
Qed.

Hypothesis request_valid : 0 <= req_len <= len request.
Hypothesis req_len_int : req_len <= INT_MAX.

Lemma load_request : load request 0 (to_int req_len) = Ret dgram.
Proof.
  unfold dgram. rewrite to_int_small by (unfold INT_MIN, INT_MAX in *; lia).
  apply load_whole_prefix. exact request_valid.
Qed.

(** [n] iterations without a reply, none of which ends the loop. *)
Lemma loop_skip (n : nat) :
  forall fuel k attempt tr,
  (forall j, (k <= j < k + n)%nat -> no_reply net j) ->
  INT_MIN <= attempt -> attempt + Z.of_nat n <= max_retries + 1 ->
  attempt + Z.of_nat n <= INT_MAX ->
  exists tr',
    loop (n + fuel) k attempt tr = loop fuel (k + n) (attempt + Z.of_nat n) tr' /\
    sent_datagrams tr' = sent_datagrams tr ++ repeat dgram n.
Proof.
  unfold loop.
  induction n as [|n IH]; intros fuel k attempt tr Hno Hmin Hmax Hint.
  - exists tr. cbn [Nat.add repeat]. rewrite Nat.add_0_r, Z.add_0_r, app_nil_r.
    auto.
  - cbn [Nat.add udp_invoke_loop]. cbv zeta.
    destruct (Z.leb_spec attempt max_retries); [|lia].
    rewrite load_request.
    assert (to_int (attempt + 1) = attempt + 1) as Hnext
      by (apply to_int_small; unfold INT_MIN, INT_MAX in *; lia).
    rewrite Hnext.
    destruct (Hno k ltac:(lia)) as [Hs | Hs].
    + destruct (Z.ltb_spec (sendto_result net k) 0); [|lia].
      destruct (IH fuel (S k) (attempt + 1)
                  ((tr ++ [EvSendto dgram]) ++ [EvPerror "sendto failed"]))
        as (tr' & Heq & Hsent); try lia.
      { intros j Hj. apply Hno. lia. }
      exists tr'. split.
      * rewrite Heq. f_equal; lia.
      * rewrite Hsent. sent_simpl.
    + destruct (Z.ltb_spec (sendto_result net k) 0).
      * destruct (IH fuel (S k) (attempt + 1)
                    ((tr ++ [EvSendto dgram]) ++ [EvPerror "sendto failed"]))
          as (tr' & Heq & Hsent); try lia.
        { intros j Hj. apply Hno. lia. }
        exists tr'. split.
        -- rewrite Heq. f_equal; lia.
        -- rewrite Hsent. sent_simpl.
      * rewrite Hs. cbn [Z.ltb Z.eqb Z.compare].
        match goal with
        | |- context [udp_invoke_loop (n + fuel) _ _ _ _ _ _ _ _ _ ?t] =>
            destruct (IH fuel (S k) (attempt + 1) t)
              as (tr' & Heq & Hsent); try lia
        end.
        { intros j Hj. apply Hno. lia. }
        exists tr'. split.
        -- rewrite Heq. f_equal; lia.
        -- rewrite Hsent. sent_simpl.
Qed.

(** Once [attempt] has passed [max_retries] the loop is left. *)
Lemma loop_exit (fuel : nat) (k : nat) (attempt : Z) (tr : list event) :
  max_retries < attempt ->
  loop (S fuel) k attempt tr =
  (Returned (-1, response),
   tr ++ [EvStderr (MsgFailedAfter (to_int (max_retries + 1)))]).
Proof.
  intros H. unfold loop. cbn [udp_invoke_loop].
  destruct (Z.leb_spec attempt max_retries); [lia|reflexivity].
Qed.

(** A reply in iteration [k], after [k] iterations without one. *)
Lemma loop_receive (k fuel : nat) (d : list byte) (response' : buffer) :
  (forall j, (j < k)%nat -> no_reply net j) ->
  Z.of_nat k <= max_retries -> max_retries <= INT_MAX ->
  0 <= sendto_result net k -> 0 < select_result net k ->
  recvfrom_result net k = Some d ->
  store response 0 (firstn (Z.to_nat (to_int resp_max)) d) = Ret response' ->
  exists tr,
    loop (k + S fuel) 0%nat 0 [] =
      (Returned (len (firstn (Z.to_nat (to_int resp_max)) d), response'),
       tr ++ [EvRecvfrom (to_int resp_max)]) /\
    sent_datagrams tr = repeat dgram (S k).
Proof.
  intros Hno Hk Hmax Hsend Hsel Hrecv Hstore.
  destruct (loop_skip k (S fuel) 0 0 []) as (tr & Heq & Hsent);
    try (unfold INT_MIN; lia).
  { intros j Hj. apply Hno. lia. }
  rewrite Heq. unfold loop. cbn [udp_invoke_loop]. cbv zeta.
  destruct (Z.leb_spec (0 + Z.of_nat k) max_retries); [|lia].
  rewrite load_request.
  destruct (Z.ltb_spec (sendto_result net (0 + k)) 0); [simpl in *; lia|].
  destruct (Z.ltb_spec (select_result net (0 + k)) 0); [simpl in *; lia|].
  destruct (Z.eqb_spec (select_result net (0 + k)) 0); [simpl in *; lia|].
  cbn [Nat.add]. rewrite Hrecv, Hstore.
  eexists. split; [reflexivity|].
  sent_simpl. rewrite Hsent. cbn [app]. apply repeat_snoc.
Qed.

(** Every negative result is [-1] with the response array untouched,
    whichever of the three failures produced it. *)
Lemma loop_failure (fuel : nat) :
  forall k attempt tr ret response' tr',
  loop fuel k attempt tr = (Returned (ret, response'), tr') -> ret < 0 ->
  ret = -1 /\ response' = response /\
  exists tr0 e,
    tr' = tr0 ++ [e] /\
    (e = EvStderr (MsgFailedAfter (to_int (max_retries + 1))) \/
     e = EvPerror "select failed" \/ e = EvPerror "recvfrom failed").
Proof.
  unfold loop.
  induction fuel as [|fuel IH]; intros k attempt tr ret response' tr';
    cbn [udp_invoke_loop]; cbv zeta; [discriminate|].
  destruct (attempt <=? max_retries).
  2:{ intros H _. injection H as <- <- <-. repeat split.
      do 2 eexists. split; [reflexivity|auto]. }
  destruct (load request 0 (to_int req_len)); [|discriminate].
  destruct (sendto_result net k <? 0); [apply IH|].
  destruct (select_result net k <? 0).
  { intros H _. injection H as <- <- <-. repeat split.
      do 2 eexists. split; [reflexivity|auto]. }
  destruct (select_result net k =? 0); [apply IH|].
  destruct (recvfrom_result net k) as [d|].
  2:{ intros H _. injection H as <- <- <-. repeat split.
      do 2 eexists. split; [reflexivity|auto]. }
  destruct (store response 0 _); [|discriminate].
  intros H Hneg. injection H as <- <- <-.
  pose proof (len_nonneg (firstn (Z.to_nat (to_int resp_max)) d)). lia.
Qed.

(** With [INT_MAX] retries the loop variable can never pass the bound:
    [attempt++] wraps at [INT_MAX] and the test stays true. *)
Lemma loop_unbounded (fuel : nat) :
  max_retries = INT_MAX -> always_times_out net ->
  forall k attempt tr,
  is_int attempt -> fst (loop fuel k attempt tr) = Unfinished.
Proof.
  intros Hmax Hnet. unfold loop.
  induction fuel as [|fuel IH]; intros k attempt tr Ha;
    cbn [udp_invoke_loop]; cbv zeta; [reflexivity|].
  destruct (Z.leb_spec attempt max_retries); [|unfold is_int in Ha; lia].
  rewrite load_request.
  destruct (Hnet k) as (Hs & Hsel).
  destruct (Z.ltb_spec (sendto_result net k) 0); [lia|].
  rewrite Hsel. cbn [Z.ltb Z.eqb Z.compare].
  apply IH, to_int_range.
Qed.

End Loop.

(** The retry bound for every budget below [INT_MAX]; the budget
    [INT_MAX] itself is among the scenarios.  If every attempt times out
    (each [sendto] succeeds and each [select] returns 0), then for every
    request, every timeout and every retry budget [0 <= r < INT_MAX],
    [udp_invoke] returns [-1], leaves the response array as it was, and
    has called [sendto] exactly [r + 1] times; [r + 2] units of fuel are
    enough for the run. *)
Theorem retry_bound (net : transport) (request response : buffer)
    (req_len resp_max timeout_ms r : Z) (fuel : nat) :
  always_times_out net ->
  0 <= req_len <= len request -> req_len <= INT_MAX ->
  0 <= r < INT_MAX ->
  (Z.to_nat r + 1 < fuel)%nat ->
  exists tr,
    udp_invoke fuel net request req_len response resp_max timeout_ms r =
      (Returned (-1, response), tr) /\
    len (sent_datagrams tr) = r + 1.
Proof.
  intros Hnet Hreq Hint Hr Hfuel. unfold udp_invoke.
  destruct (loop_skip net request response req_len resp_max timeout_ms r
              Hreq Hint (Z.to_nat (r + 1)) (fuel - Z.to_nat (r + 1)) 0 0 [])
    as (tr & Heq & Hsent); try (unfold INT_MIN, INT_MAX in *; lia).
  { intros j _. right. apply Hnet. }
  replace (Z.to_nat (r + 1) + (fuel - Z.to_nat (r + 1)))%nat with fuel in Heq
    by lia.
  rewrite Heq.
  destruct (fuel - Z.to_nat (r + 1))%nat as [|fuel'] eqn:Ef; [lia|].
  rewrite loop_exit by lia.
  eexists. split; [reflexivity|].
  rewrite sent_datagrams_app, Hsent. cbn [sent_datagrams app].
  rewrite app_nil_r. unfold len. rewrite repeat_length. lia.
Qed.

(** C9.  Whatever the network does and however the call ends, every
    datagram [udp_invoke] hands to [sendto] is the same: the first
    [req_len] bytes of the request array as the caller passed it. *)
Theorem retry_identity (fuel : nat) (net : transport)
    (request response : buffer) (req_len resp_max timeout_ms max_retries : Z) :
  exists n,
    sent_datagrams
      (snd (udp_invoke fuel net request req_len response resp_max
              timeout_ms max_retries)) =
    repeat (firstn (Z.to_nat (to_int req_len)) request) n.
Proof.
  unfold udp_invoke.
  destruct (loop_sends_same net request response req_len resp_max timeout_ms
              max_retries fuel 0%nat 0 []) as (n & Hn).
  exists n. exact Hn.
Qed.

(** C6 as the code has it.  Running out of retries and a hard failure end
    [udp_invoke] with the same result.  On a network on which no attempt
    gets a reply, the call returns [-1] with the response array as the
    caller passed it, after the line "Failed after r+1 retries"; on a
    network on which [select] fails, or [recvfrom] fails after [select]
    reported data, in some attempt [k <= r], the call returns the same
    [-1] with the same response array, after the diagnostic of the failing
    call.  The two results are equal; only the last line written to the
    standard error stream differs.  No negative result is anything but
    [-1] with the response array untouched. *)
Theorem failure_results_coincide (fuel : nat) (net_slow net_hard : transport)
    (request response : buffer) (req_len resp_max timeout_ms r : Z)
    (k : nat) :
  0 <= req_len <= len request -> req_len <= INT_MAX ->
  r < INT_MAX ->
  (forall j, no_reply net_slow j) ->
  (forall j, (j < k)%nat -> no_reply net_hard j) ->
  Z.of_nat k <= r -> 0 <= sendto_result net_hard k ->
  select_result net_hard k < 0 \/
  (0 < select_result net_hard k /\ recvfrom_result net_hard k = None) ->
  (Z.to_nat r + 1 < fuel)%nat ->
  exists tr_slow tr_hard what,
    udp_invoke fuel net_slow request req_len response resp_max timeout_ms r =
      (Returned (-1, response),
       tr_slow ++ [EvStderr (MsgFailedAfter (r + 1))]) /\
    udp_invoke fuel net_hard request req_len response resp_max timeout_ms r =
      (Returned (-1, response), tr_hard ++ [EvPerror what]) /\
    (what = "select failed"%string \/ what = "recvfrom failed"%string) /\
    (forall net ret response' tr,
       udp_invoke fuel net request req_len response resp_max timeout_ms r =
         (Returned (ret, response'), tr) ->
       ret < 0 -> ret = -1 /\ response' = response).
Proof.
  intros Hreq Hint Hr Hslow Hhard Hk Hsend Herr Hfuel.
  assert (0 <= r) as Hr0 by lia.
  assert (to_int (r + 1) = r + 1) as Hr1
    by (apply to_int_small; unfold INT_MIN, INT_MAX in *; lia).
  (* running out of retries *)
  destruct (loop_skip net_slow request response req_len resp_max timeout_ms r
              Hreq Hint (Z.to_nat (r + 1)) (fuel - Z.to_nat (r + 1)) 0 0 [])
    as (tr1 & Heq1 & _); try (unfold INT_MIN, INT_MAX in *; lia).
  { intros j _. apply Hslow. }
  replace (Z.to_nat (r + 1) + (fuel - Z.to_nat (r + 1)))%nat with fuel
    in Heq1 by lia.
  destruct (fuel - Z.to_nat (r + 1))%nat as [|fuel1] eqn:Ef; [lia|].
  rewrite loop_exit in Heq1 by lia. rewrite Hr1 in Heq1.
  (* the hard failure in attempt [k] *)
  destruct (loop_skip net_hard request response req_len resp_max timeout_ms r
              Hreq Hint k (fuel - k) 0 0 [])
    as (tr2 & Heq2 & _); try (unfold INT_MIN, INT_MAX in *; lia).
  { intros j Hj. apply Hhard. lia. }
  replace (k + (fuel - k))%nat with fuel in Heq2 by lia.
  destruct (fuel - k)%nat as [|fuel2] eqn:Ef2; [lia|].
  cbn [udp_invoke_loop] in Heq2. cbv zeta in Heq2.
  destruct (Z.leb_spec (0 + Z.of_nat k) r); [|lia].
  rewrite (load_request request req_len Hreq Hint) in Heq2.
  cbn [Nat.add] in Heq2.
  destruct (Z.ltb_spec (sendto_result net_hard k) 0); [lia|].
  assert (exists tr_hard what,
            udp_invoke fuel net_hard request req_len response resp_max
              timeout_ms r =
              (Returned (-1, response), tr_hard ++ [EvPerror what]) /\
            (what = "select failed"%string \/
             what = "recvfrom failed"%string)) as (tr_hard & what & H2 & Hw).
  { unfold udp_invoke. destruct Herr as [Hsel | (Hsel & Hrecv)].
    - destruct (Z.ltb_spec (select_result net_hard k) 0); [|lia].
      eexists _, _. split; [exact Heq2|]. left. reflexivity.
    - destruct (Z.ltb_spec (select_result net_hard k) 0); [lia|].
      destruct (Z.eqb_spec (select_result net_hard k) 0); [lia|].
      rewrite Hrecv in Heq2.
      eexists _, _. split; [exact Heq2|]. right. reflexivity. }
  exists tr1, tr_hard, what.
  split; [exact Heq1|]. split; [exact H2|]. split; [exact Hw|].
  intros net ret response' tr Hrun Hneg.
  destruct (loop_failure net request response req_len resp_max timeout_ms r
              fuel 0%nat 0 [] ret response' tr Hrun Hneg)
    as (Hret & Hsame & _).
  split; assumption.
Qed.

(** ** Requests *)

Lemma len_string_wire (str : list byte) :
  len (string_wire str) = 2 + Z.min (len (c_str str)) 65535.
Proof.
  unfold string_wire. cbv zeta. rewrite len_app, len_be_bytes.
  pose proof (len_nonneg (c_str str)).
  unfold len in *. rewrite length_firstn. lia.
Qed.

Lemma len_string_wire_bound (str : list byte) :
  2 <= len (string_wire str) <= 65537.
Proof.
  rewrite len_string_wire. pose proof (len_nonneg (c_str str)). lia.
Qed.

Lemma write_string_wire (buf : buffer) (p : Z) (str : list byte) (l : Z) :
  strlen str = Ret l ->
  write_string buf p str =
  (buf' <- store buf p (string_wire str) ;; Ret (len (string_wire str), buf')).
Proof.
  intros Hl. rewrite (write_string_store _ _ _ _ Hl), len_string_wire.
  destruct (strlen_Ret _ _ Hl) as (-> & _). reflexivity.
Qed.

(** One writer of a sequence: the store it makes is split off the store of
    everything written from here on. *)
Lemma writer_step {A : Type} (w : access (Z * buffer)) (b : buffer)
    (q q' n : Z) (s rest : list byte)
    (K : Z * buffer -> access A) (G : buffer -> access A) :
  w = (b' <- store b q s ;; Ret (n, b')) ->
  q = q' ->
  (forall b1, K (n, b1) = (b2 <- store b1 (q' + len s) rest ;; G b2)) ->
  bind w K = (b2 <- store b q' (s ++ rest) ;; G b2).
Proof.
  intros -> <- HK.
  rewrite <- store_store_adjacent, !bind_assoc.
  destruct (store b q s); cbn [bind]; auto.
Qed.

Lemma writer_last {A : Type} (w : access (Z * buffer)) (b : buffer)
    (q q' n : Z) (s : list byte)
    (K : Z * buffer -> access A) (G : buffer -> access A) :
  w = (b' <- store b q s ;; Ret (n, b')) ->
  q = q' ->
  (forall b1, K (n, b1) = G b1) ->
  bind w K = (b2 <- store b q' s ;; G b2).
Proof.
  intros -> <- HK. rewrite !bind_assoc.
  destruct (store b q s); cbn [bind]; auto.
Qed.

(** The payload first, then the header in front of it. *)
Lemma header_last {A : Type} (b : buffer) (h : Header) (payload : list byte)
    (G : buffer -> access A) :
  (b' <- store b 0 (header_wire h ++ payload) ;; G b') =
  (b1 <- store b 16 payload ;; '(_, b') <- write_header b1 0 h ;; G b').
Proof.
  rewrite <- store_store_before, len_header_wire, bind_assoc.
  change (0 + 16) with 16.
  destruct (store b 16 payload); cbn [bind]; [|reflexivity].
  rewrite write_header_store, bind_assoc. reflexivity.
Qed.

Ltac to_int_ok :=
  repeat match goal with
  | |- context [to_int ?z] =>
      lazymatch z with
      | context [to_int _] => fail
      | _ => rewrite (to_int_small z) by (unfold INT_MIN, INT_MAX; lia)
      end
  end.

Ltac offsets := to_int_ok; rewrite ?len_app, ?len_be_bytes; lia.

Lemma to_uint32_small (z : Z) : 0 <= z < 2 ^ 32 -> to_uint32 z = z.
Proof. intros H. unfold to_uint32. apply Z.mod_small. exact H. Qed.

Lemma request_header_wf (op g at_most_once payload_len : Z) :
  is_uint16 op -> header_wf (request_header op g at_most_once payload_len).
Proof.
  intros Hop. unfold header_wf, request_header, next_request_id.
  cbn [version opCode requestId flags payloadLen].
  unfold is_uint16, is_uint32, to_uint32, PROTOCOL_VERSION, FLAG_AT_MOST_ONCE in *.
  pose proof (Z.mod_pos_bound (g + 1) (2 ^ 32) ltac:(lia)).
  pose proof (Z.mod_pos_bound payload_len (2 ^ 32) ltac:(lia)).
  change (Z.shiftl 1 0) with 1.
  destruct (at_most_once =? 0); lia.
Qed.

Lemma framed_of_store (req_buf b : buffer) (op g amo : Z) (payload : list byte) :
  is_uint16 op -> len payload < 2 ^ 32 ->
  store req_buf 0
    (header_wire (request_header op g amo (len payload)) ++ payload) = Ret b ->
  framed b (HEADER_LEN + len payload) payload.
Proof.
  intros Hop Hlen Hst.
  set (h := request_header op g amo (len payload)) in *.
  apply load_store_same in Hst. apply load_app_inv in Hst.
  destruct Hst as (Hh & Hp).
  rewrite len_header_wire in Hh, Hp.
  exists h. unfold HEADER_LEN.
  assert (payloadLen h = len payload) as Hpl.
  { unfold h, request_header. cbn [payloadLen].
    apply to_uint32_small. pose proof (len_nonneg payload). lia. }
  repeat split.
  - rewrite read_header_load, Hh. cbn [bind].
    rewrite header_of_wire_header_wire; [reflexivity|].
    apply request_header_wf. exact Hop.
  - exact Hp.
  - exact Hpl.
  - rewrite Hpl. reflexivity.
Qed.

(** The end of every [cmd_*_request]: the header that is written carries
    the length of the payload, and the offset returned is the header length
    plus that. *)
Ltac finish_request :=
  to_int_ok; rewrite ?len_app, ?len_be_bytes;
  match goal with
  | |- bind (write_header _ _ (request_header _ _ _ ?a)) _ =
       bind (write_header _ _ (request_header _ _ _ ?a')) _ =>
      replace a with a' by lia
  end;
  match goal with
  | |- bind ?w _ = _ => destruct w as [[? ?]|]; cbn [bind]; [|reflexivity]
  end;
  cbn [requestId request_header];
  match goal with
  | |- Ret (_, ?x, _) = Ret (_, ?y, _) => replace x with y by lia; reflexivity
  end.

Lemma cmd_query_request_store (g : Z) (req_buf facility : list byte)
    (amo l : Z) :
  strlen facility = Ret l ->
  cmd_query_request g req_buf facility amo =
  (b <- store req_buf 0
          (header_wire (request_header OP_QUERY_AVAIL g amo
                          (len (query_payload facility)))
           ++ query_payload facility) ;;
   Ret (b, HEADER_LEN + len (query_payload facility), next_request_id g)).
Proof.
  intros Hl. pose proof (len_string_wire_bound facility).
  rewrite header_last.
  unfold cmd_query_request, query_payload, HEADER_LEN. cbv zeta.
  eapply writer_step;
    [apply (write_string_wire _ _ _ _ Hl) | reflexivity
    | intros b1; cbv beta iota zeta].
  eapply writer_step;
    [apply write_i64_store | offsets | intros b2; cbv beta iota zeta].
  eapply writer_last;
    [apply write_i64_store | offsets | intros b3; cbv beta iota zeta].
  finish_request.
Qed.

Lemma write_u32_cast_store (buf : buffer) (p val : Z) :
  write_u32 buf p (to_uint32 val) =
  (buf' <- store buf p (be_bytes 4 val) ;; Ret (4, buf')).
Proof.
  rewrite write_u32_store. unfold to_uint32.
  change (2 ^ 32) with (2 ^ (8 * Z.of_nat 4)). rewrite be_bytes_mod.
  reflexivity.
Qed.

Lemma cmd_book_request_store (g : Z) (req_buf facility user : list byte)
    (start_ms end_ms amo l1 l2 : Z) :
  strlen facility = Ret l1 -> strlen user = Ret l2 ->
  cmd_book_request g req_buf facility user start_ms end_ms amo =
  (b <- store req_buf 0
          (header_wire (request_header OP_BOOK g amo
                          (len (book_payload facility user start_ms end_ms)))
           ++ book_payload facility user start_ms end_ms) ;;
   Ret (b, HEADER_LEN + len (book_payload facility user start_ms end_ms),
        next_request_id g)).
Proof.
  intros Hl1 Hl2. pose proof (len_string_wire_bound facility).
  pose proof (len_string_wire_bound user).
  rewrite header_last.
  unfold cmd_book_request, book_payload, HEADER_LEN. cbv zeta.
  eapply writer_step;
    [apply (write_string_wire _ _ _ _ Hl1) | reflexivity
    | intros b1; cbv beta iota zeta].
  eapply writer_step;
    [apply (write_string_wire _ _ _ _ Hl2) | offsets
    | intros b2; cbv beta iota zeta].
  eapply writer_step;
    [apply write_i64_store | offsets | intros b3; cbv beta iota zeta].
  eapply writer_last;
    [apply write_i64_store | offsets | intros b4; cbv beta iota zeta].
  finish_request.
Qed.

Lemma cmd_custom_incr_request_store (g : Z) (req_buf facility : list byte)
    (amo l : Z) :
  strlen facility = Ret l ->
  cmd_custom_incr_request g req_buf facility amo =
  (b <- store req_buf 0
          (header_wire (request_header OP_CUSTOM_NON_IDEMPOTENT g amo
                          (len (custom_incr_payload facility)))
           ++ custom_incr_payload facility) ;;
   Ret (b, HEADER_LEN + len (custom_incr_payload facility), next_request_id g)).
Proof.
  intros Hl. pose proof (len_string_wire_bound facility).
  rewrite header_last.
  unfold cmd_custom_incr_request, custom_incr_payload, HEADER_LEN. cbv zeta.
  eapply writer_last;
    [apply (write_string_wire _ _ _ _ Hl) | reflexivity
    | intros b1; cbv beta iota zeta].
  finish_request.
Qed.

Lemma cmd_change_request_store (g : Z) (req_buf : list byte)
    (booking_id offset_minutes amo : Z) :
  cmd_change_request g req_buf booking_id offset_minutes amo =
  (b <- store req_buf 0
          (header_wire (request_header OP_CHANGE_BOOKING g amo
                          (len (change_payload booking_id offset_minutes)))
           ++ change_payload booking_id offset_minutes) ;;
   Ret (b, HEADER_LEN + len (change_payload booking_id offset_minutes),
        next_request_id g)).
Proof.
  rewrite header_last.
  unfold cmd_change_request, change_payload, HEADER_LEN. cbv zeta.
  eapply writer_step;
    [apply write_i64_store | reflexivity | intros b1; cbv beta iota zeta].
  eapply writer_last;
    [apply write_u32_cast_store | offsets | intros b2; cbv beta iota zeta].
  finish_request.
Qed.

Lemma cmd_monitor_request_store (g : Z) (req_buf facility : list byte)
    (duration_seconds callback_port amo l : Z) :
  strlen facility = Ret l ->
  cmd_monitor_request g req_buf facility duration_seconds callback_port amo =
  (b <- store req_buf 0
          (header_wire (request_header OP_MONITOR g amo
                          (len (monitor_payload facility duration_seconds
                                  callback_port)))
           ++ monitor_payload facility duration_seconds callback_port) ;;
   Ret (b, HEADER_LEN + len (monitor_payload facility duration_seconds
                               callback_port),
        next_request_id g)).
Proof.
  intros Hl. pose proof (len_string_wire_bound facility).
  rewrite header_last.
  unfold cmd_monitor_request, monitor_payload, HEADER_LEN. cbv zeta.
  eapply writer_step;
    [apply (write_string_wire _ _ _ _ Hl) | reflexivity
    | intros b1; cbv beta iota zeta].
  eapply writer_step;
    [apply write_u32_store | offsets | intros b2; cbv beta iota zeta].
  eapply writer_last;
    [apply write_u32_store | offsets | intros b3; cbv beta iota zeta].
  finish_request.
Qed.

Lemma cmd_reset_request_store (g : Z) (req_buf facility : list byte)
    (day_start day_end amo l : Z) :
  strlen facility = Ret l ->
  cmd_reset_request g req_buf facility day_start day_end amo =
  (b <- store req_buf 0
          (header_wire (request_header OP_CUSTOM_IDEMPOTENT g amo
                          (len (reset_payload facility day_start day_end)))
           ++ reset_payload facility day_start day_end) ;;
   Ret (b, HEADER_LEN + len (reset_payload facility day_start day_end),
        next_request_id g)).
Proof.
  intros Hl. pose proof (len_string_wire_bound facility).
  rewrite header_last.
  unfold cmd_reset_request, reset_payload, HEADER_LEN. cbv zeta.
  eapply writer_step;
    [apply (write_string_wire _ _ _ _ Hl) | reflexivity
    | intros b1; cbv beta iota zeta].
  eapply writer_step;
    [apply write_i64_store | offsets | intros b2; cbv beta iota zeta].
  eapply writer_last;
    [apply write_i64_store | offsets | intros b3; cbv beta iota zeta].
  finish_request.
Qed.

(** What follows from a request being one store of header and payload. *)
Lemma request_built (builder : access (buffer * Z * Z)) (req_buf : buffer)
    (op g amo : Z) (payload : list byte) :
  builder =
    (b <- store req_buf 0
            (header_wire (request_header op g amo (len payload)) ++ payload) ;;
     Ret (b, HEADER_LEN + len payload, next_request_id g)) ->
  is_uint16 op -> len payload < 2 ^ 32 ->
  (forall b offset g',
     builder = Ret (b, offset, g') -> framed b offset payload) /\
  (HEADER_LEN + len payload <= len req_buf ->
   exists b, builder = Ret (b, HEADER_LEN + len payload, next_request_id g)).
Proof.
  intros -> Hop Hlen. split.
  - intros b offset g'.
    destruct (store req_buf 0 _) as [b0|] eqn:E; cbn [bind]; [|discriminate].
    intros H. injection H as <- <- <-.
    apply (framed_of_store _ _ _ _ _ _ Hop Hlen E).
  - intros Hroom.
    destruct (store req_buf 0 _) as [b0|] eqn:E; cbn [bind]; [eauto|].
    apply store_Overrun in E. exfalso. apply E.
    rewrite len_app, len_header_wire. unfold HEADER_LEN in Hroom. lia.
Qed.

Ltac payload_small :=
  unfold query_payload, book_payload, custom_incr_payload, change_payload,
    monitor_payload, reset_payload;
  rewrite ?len_app, ?len_be_bytes;
  repeat match goal with
  | |- context [len (string_wire ?s)] =>
      lazymatch goal with
      | _ : 2 <= len (string_wire s) <= 65537 |- _ => fail
      | _ => pose proof (len_string_wire_bound s)
      end
  end;
  lia.

Ltac op_small :=
  unfold is_uint16, OP_QUERY_AVAIL, OP_BOOK, OP_CHANGE_BOOKING, OP_MONITOR,
    OP_CUSTOM_IDEMPOTENT, OP_CUSTOM_NON_IDEMPOTENT; lia.

(** When every string argument is terminated and the array has room for
    header and payload, each command builds its request. *)
Lemma requests_are_built (g : Z) (req_buf : buffer) (amo : Z) :
  (forall facility l,
     strlen facility = Ret l ->
     HEADER_LEN + len (query_payload facility) <= len req_buf ->
     exists b, cmd_query_request g req_buf facility amo =
               Ret (b, HEADER_LEN + len (query_payload facility),
                    next_request_id g)) /\
  (forall facility user start_ms end_ms l1 l2,
     strlen facility = Ret l1 -> strlen user = Ret l2 ->
     HEADER_LEN + len (book_payload facility user start_ms end_ms)
       <= len req_buf ->
     exists b, cmd_book_request g req_buf facility user start_ms end_ms amo =
               Ret (b, HEADER_LEN +
                       len (book_payload facility user start_ms end_ms),
                    next_request_id g)) /\
  (forall booking_id offset_minutes,
     HEADER_LEN + len (change_payload booking_id offset_minutes)
       <= len req_buf ->
     exists b, cmd_change_request g req_buf booking_id offset_minutes amo =
               Ret (b, HEADER_LEN +
                       len (change_payload booking_id offset_minutes),
                    next_request_id g)) /\
  (forall facility duration_seconds callback_port l,
     strlen facility = Ret l ->
     HEADER_LEN + len (monitor_payload facility duration_seconds callback_port)
       <= len req_buf ->
     exists b, cmd_monitor_request g req_buf facility duration_seconds
                 callback_port amo =
               Ret (b, HEADER_LEN +
                       len (monitor_payload facility duration_seconds
                              callback_port),
                    next_request_id g)) /\
  (forall facility day_start day_end l,
     strlen facility = Ret l ->
     HEADER_LEN + len (reset_payload facility day_start day_end)
       <= len req_buf ->
     exists b, cmd_reset_request g req_buf facility day_start day_end amo =
               Ret (b, HEADER_LEN +
                       len (reset_payload facility day_start day_end),
                    next_request_id g)) /\
  (forall facility l,
     strlen facility = Ret l ->
     HEADER_LEN + len (custom_incr_payload facility) <= len req_buf ->
     exists b, cmd_custom_incr_request g req_buf facility amo =
               Ret (b, HEADER_LEN + len (custom_incr_payload facility),
                    next_request_id g)).
Proof.
  split; [|split; [|split; [|split; [|split]]]].
  - intros facility l Hl.
    eapply request_built;
      [apply (cmd_query_request_store _ _ _ _ _ Hl) | op_small | payload_small].
  - intros facility user start_ms end_ms l1 l2 Hl1 Hl2.
    eapply request_built;
      [apply (cmd_book_request_store _ _ _ _ _ _ _ _ _ Hl1 Hl2)
      | op_small | payload_small].
  - intros booking_id offset_minutes.
    eapply request_built;
      [apply cmd_change_request_store | op_small | payload_small].
  - intros facility duration_seconds callback_port l Hl.
    eapply request_built;
      [apply (cmd_monitor_request_store _ _ _ _ _ _ _ Hl)
      | op_small | payload_small].
  - intros facility day_start day_end l Hl.
    eapply request_built;
      [apply (cmd_reset_request_store _ _ _ _ _ _ _ Hl)
      | op_small | payload_small].
  - intros facility l Hl.
    eapply request_built;
      [apply (cmd_custom_incr_request_store _ _ _ _ _ Hl)
      | op_small | payload_small].
Qed.

Ltac framing_case store_lemma :=
  match goal with
  | |- (_ -> exists b, ?builder = Ret (b, _ + len ?payload, _) /\ _) /\ _ =>
      let Hf := fresh "Hf" in
      let Hb := fresh "Hb" in
      let Hroom := fresh "Hroom" in
      let b := fresh "b" in
      let Hbuilt := fresh "Hbuilt" in
      destruct (request_built builder _ _ _ _ payload store_lemma
                  ltac:(op_small) ltac:(payload_small)) as (Hf & Hb);
      split; [|exact Hf];
      intros Hroom; destruct (Hb Hroom) as (b & Hbuilt);
      exists b; split; [exact Hbuilt|exact (Hf _ _ _ Hbuilt)]
  end.

(** C10.  Each of the six commands, given terminated strings and a
    request array with room for header and payload, builds a request, and
    the request is framed: the header read back from the array carries as
    [payloadLen] the number of bytes of the payload fields written after
    the 16 bytes of the header, those bytes are exactly the fields of the
    operation in order, and the length handed to [udp_invoke] is
    [16 + payloadLen].  No command builds a request that is not framed. *)
Theorem request_framing (g amo : Z) (req_buf : buffer) :
  let framed_request (builder : access (buffer * Z * Z))
                     (payload : list byte) :=
    (HEADER_LEN + len payload <= len req_buf ->
     exists b,
       builder = Ret (b, HEADER_LEN + len payload, next_request_id g) /\
       framed b (HEADER_LEN + len payload) payload) /\
    (forall b offset g',
       builder = Ret (b, offset, g') -> framed b offset payload) in
  (forall facility l,
     strlen facility = Ret l ->
     framed_request (cmd_query_request g req_buf facility amo)
       (query_payload facility)) /\
  (forall facility user start_ms end_ms l1 l2,
     strlen facility = Ret l1 -> strlen user = Ret l2 ->
     framed_request
       (cmd_book_request g req_buf facility user start_ms end_ms amo)
       (book_payload facility user start_ms end_ms)) /\
  (forall booking_id offset_minutes,
     framed_request
       (cmd_change_request g req_buf booking_id offset_minutes amo)
       (change_payload booking_id offset_minutes)) /\
  (forall facility duration_seconds callback_port l,
     strlen facility = Ret l ->
     framed_request
       (cmd_monitor_request g req_buf facility duration_seconds callback_port
          amo)
       (monitor_payload facility duration_seconds callback_port)) /\
  (forall facility day_start day_end l,
     strlen facility = Ret l ->
     framed_request
       (cmd_reset_request g req_buf facility day_start day_end amo)
       (reset_payload facility day_start day_end)) /\
  (forall facility l,
     strlen facility = Ret l ->
     framed_request (cmd_custom_incr_request g req_buf facility amo)
       (custom_incr_payload facility)).
Proof.
  cbv zeta.
  split; [|split; [|split; [|split; [|split]]]].
  - intros facility l Hl.
    framing_case (cmd_query_request_store g req_buf facility amo l Hl).
  - intros facility user start_ms end_ms l1 l2 Hl1 Hl2.
    framing_case (cmd_book_request_store g req_buf facility user start_ms
                      end_ms amo l1 l2 Hl1 Hl2).
  - intros booking_id offset_minutes.
    framing_case (cmd_change_request_store g req_buf booking_id
                      offset_minutes amo).
  - intros facility duration_seconds callback_port l Hl.
    framing_case (cmd_monitor_request_store g req_buf facility
                      duration_seconds callback_port amo l Hl).
  - intros facility day_start day_end l Hl.
    framing_case (cmd_reset_request_store g req_buf facility day_start
                      day_end amo l Hl).
  - intros facility l Hl.
    framing_case (cmd_custom_incr_request_store g req_buf facility amo l Hl).
Qed.

(** ** Decoders and short buffers *)

Lemma load_short (buf : buffer) (p n : Z) :
  len buf < p + n -> load buf p n = Overrun.
Proof. intros H. apply load_Overrun. lia. Qed.

(** C2 as the code has it.  The decoders are given no length and test no
    bound.  On an array with fewer bytes at the offset than the field
    needs (2, 4, 8, 16; for [read_string] 2 for the count, and the declared
    count when it is less than [max_len]) the access runs past the end of
    the array, and no result is returned.  When [read_u16], [read_u32],
    [read_i64] or [read_header] return, the result is 2, 4, 8 or 16, never
    a failure.  The one failure a decoder reports is the [-1] of
    [read_string], returned with the output array untouched when the
    declared count is not less than [max_len], whether or not the text lies
    within the array. *)
Theorem decoders_unchecked (buf : buffer) (p : Z) :
  0 <= p ->
  (len buf < p + 2 -> read_u16 buf p = Overrun) /\
  (len buf < p + 4 -> read_u32 buf p = Overrun) /\
  (len buf < p + 8 -> read_i64 buf p = Overrun) /\
  (len buf < p + 16 -> read_header buf p = Overrun) /\
  (forall out max_len,
     len buf < p + 2 -> read_string buf p out max_len = Overrun) /\
  (forall out max_len count,
     load buf p 2 = Ret count -> be_value count < max_len ->
     len buf < p + 2 + be_value count ->
     read_string buf p out max_len = Overrun) /\
  (forall out max_len count,
     load buf p 2 = Ret count -> max_len <= be_value count ->
     read_string buf p out max_len = Ret (-1, out)) /\
  (forall r v, read_u16 buf p = Ret (r, v) -> r = 2) /\
  (forall r v, read_u32 buf p = Ret (r, v) -> r = 4) /\
  (forall r v, read_i64 buf p = Ret (r, v) -> r = 8) /\
  (forall r h, read_header buf p = Ret (r, h) -> r = 16).
Proof.
  intros Hp. repeat split.
  - intros H. rewrite read_u16_load, load_short by lia. reflexivity.
  - intros H. rewrite read_u32_load, load_short by lia. reflexivity.
  - intros H. rewrite read_i64_load, load_short by lia. reflexivity.
  - intros H. rewrite read_header_load, load_short by lia. reflexivity.
  - intros out max_len H.
    rewrite read_string_load, load_short by lia. reflexivity.
  - intros out max_len count Hc Hlt Hshort.
    rewrite read_string_load, Hc. cbn [bind].
    destruct (Z.leb_spec max_len (be_value count)); [lia|].
    rewrite load_short by lia. reflexivity.
  - intros out max_len count Hc Hge.
    rewrite read_string_load, Hc. cbn [bind].
    destruct (Z.leb_spec max_len (be_value count)); [reflexivity|lia].
  - intros r v. rewrite read_u16_load.
    destruct (load buf p 2); cbn [bind]; [|discriminate]. congruence.
  - intros r v. rewrite read_u32_load.
    destruct (load buf p 4); cbn [bind]; [|discriminate]. congruence.
  - intros r v. rewrite read_i64_load.
    destruct (load buf p 8); cbn [bind]; [|discriminate]. congruence.
  - intros r h. rewrite read_header_load.
    destruct (load buf p 16); cbn [bind]; [|discriminate]. congruence.
Qed.

(** ** The version field of a received message *)

Section Version.

(** Two arrays of the size of the response array that differ at most in
    their first two bytes, where the version field lies. *)
Variables resp_buf resp_buf' : buffer.
Hypothesis size : len resp_buf = MAX_DGRAM_SIZE.
Hypothesis size' : len resp_buf' = MAX_DGRAM_SIZE.
Hypothesis same_after_version : skipn 2 resp_buf = skipn 2 resp_buf'.

Lemma load_after_version (p n : Z) :
  2 <= p -> load resp_buf p n = load resp_buf' p n.
Proof.
  intros Hp. unfold load, in_bounds. rewrite size, size'.
  destruct ((0 <=? p) && (0 <=? n) && (p + n <=? MAX_DGRAM_SIZE));
    [|reflexivity].
  replace (Z.to_nat p) with (Z.to_nat (p - 2) + 2)%nat by lia.
  rewrite <- !skipn_skipn, same_after_version. reflexivity.
Qed.

Lemma read_u16_after_version (p : Z) :
  2 <= p -> read_u16 resp_buf p = read_u16 resp_buf' p.
Proof. intros. rewrite !read_u16_load, load_after_version; auto. Qed.

Lemma read_u32_after_version (p : Z) :
  2 <= p -> read_u32 resp_buf p = read_u32 resp_buf' p.
Proof. intros. rewrite !read_u32_load, load_after_version; auto. Qed.

Lemma read_i64_after_version (p : Z) :
  2 <= p -> read_i64 resp_buf p = read_i64 resp_buf' p.
Proof. intros. rewrite !read_i64_load, load_after_version; auto. Qed.

(** Only the version differs between the two headers. *)
Lemma read_header_after_version :
  match read_header resp_buf 0, read_header resp_buf' 0 with
  | Ret (r, h), Ret (r', h') =>
      r = r' /\ opCode h = opCode h' /\ requestId h = requestId h' /\
      flags h = flags h' /\ payloadLen h = payloadLen h'
  | _, _ => False
  end.
Proof.
  rewrite !read_header_load.
  destruct (load resp_buf 0 16) as [bs|] eqn:E.
  2:{ apply load_Overrun in E. rewrite size in E.
      unfold MAX_DGRAM_SIZE in E. lia. }
  destruct (load resp_buf' 0 16) as [bs'|] eqn:E'.
  2:{ apply load_Overrun in E'. rewrite size' in E'.
      unfold MAX_DGRAM_SIZE in E'. lia. }
  cbn [bind]. unfold header_of_wire.
  cbn [opCode requestId flags payloadLen].
  assert (forall i m : nat, (2 <= i)%nat -> (i + m <= 16)%nat ->
                            slice bs i m = slice bs' i m) as Hs.
  { intros i m Hi Him.
    pose proof (load_at _ _ _ _ (Z.of_nat i) (Z.of_nat m) i E
                  ltac:(lia) ltac:(lia) ltac:(lia)) as H1.
    pose proof (load_at _ _ _ _ (Z.of_nat i) (Z.of_nat m) i E'
                  ltac:(lia) ltac:(lia) ltac:(lia)) as H2.
    rewrite load_after_version in H1 by lia. rewrite H1 in H2.
    injection H2 as H2. rewrite Nat2Z.id in H2. exact H2. }
  rewrite !Hs by lia. auto.
Qed.

Lemma cmd_query_intervals_after_version (n : nat) :
  forall pos out, 2 <= pos ->
  cmd_query_intervals resp_buf n pos out =
  cmd_query_intervals resp_buf' n pos out.
Proof.
  induction n as [|n IH]; intros pos out Hpos; cbn [cmd_query_intervals];
    [reflexivity|].
  rewrite read_i64_after_version by exact Hpos.
  rewrite read_i64_load, bind_assoc.
  destruct (load resp_buf' pos 8) as [bs|] eqn:E; cbn [bind]; [|reflexivity].
  apply load_bounds in E. rewrite size' in E. unfold MAX_DGRAM_SIZE in E.
  rewrite (to_int_small (pos + 8)) by (unfold INT_MIN, INT_MAX; lia).
  rewrite read_i64_after_version by lia.
  rewrite read_i64_load, bind_assoc.
  destruct (load resp_buf' (pos + 8) 8) as [bs2|] eqn:E2; cbn [bind];
    [|reflexivity].
  apply load_bounds in E2. rewrite size' in E2. unfold MAX_DGRAM_SIZE in E2.
  rewrite (to_int_small (pos + 8 + 8)) by (unfold INT_MIN, INT_MAX; lia).
  apply IH. lia.
Qed.

Lemma callback_intervals_after_version (n : nat) :
  forall pos out, 2 <= pos ->
  callback_intervals resp_buf n pos out =
  callback_intervals resp_buf' n pos out.
Proof.
  induction n as [|n IH]; intros pos out Hpos; cbn [callback_intervals];
    [reflexivity|].
  rewrite read_i64_after_version by exact Hpos.
  rewrite read_i64_load, bind_assoc.
  destruct (load resp_buf' pos 8) as [bs|] eqn:E; cbn [bind]; [|reflexivity].
  apply load_bounds in E. rewrite size' in E. unfold MAX_DGRAM_SIZE in E.
  rewrite (to_int_small (pos + 8)) by (unfold INT_MIN, INT_MAX; lia).
  rewrite read_i64_after_version by lia.
  rewrite read_i64_load, bind_assoc.
  destruct (load resp_buf' (pos + 8) 8) as [bs2|] eqn:E2; cbn [bind];
    [|reflexivity].
  apply load_bounds in E2. rewrite size' in E2. unfold MAX_DGRAM_SIZE in E2.
  rewrite (to_int_small (pos + 8 + 8)) by (unfold INT_MIN, INT_MAX; lia).
  apply IH. lia.
Qed.

Lemma cmd_query_reply_after_version :
  cmd_query_reply resp_buf = cmd_query_reply resp_buf'.
Proof.
  unfold cmd_query_reply, HEADER_LEN.
  rewrite read_u16_after_version by lia.
  rewrite read_u16_load, bind_assoc.
  destruct (load resp_buf' 16 2); cbn [bind]; [|reflexivity].
  apply cmd_query_intervals_after_version.
  rewrite to_int_small by (unfold INT_MIN, INT_MAX; lia). lia.
Qed.

Lemma response_outcome_after_version
    (reply : buffer -> completion unit * list event) :
  reply resp_buf = reply resp_buf' ->
  response_outcome resp_buf reply = response_outcome resp_buf' reply.
Proof.
  intros Hreply. unfold response_outcome.
  pose proof read_header_after_version as H.
  destruct (read_header resp_buf 0) as [[r h]|]; [|contradiction].
  destruct (read_header resp_buf' 0) as [[r' h']|]; [|contradiction].
  destruct H as (_ & -> & _). rewrite Hreply. reflexivity.
Qed.

End Version.

(** C7 as the code has it.  No receiver compares the version of a
    received header with [PROTOCOL_VERSION]: for two received arrays that
    differ at most in the two bytes of the version field, each of the six
    commands and the notification listener do exactly the same, so a
    message with another version is interpreted like one with version 1. *)
Theorem version_is_ignored (resp_buf resp_buf' : buffer) :
  len resp_buf = MAX_DGRAM_SIZE -> len resp_buf' = MAX_DGRAM_SIZE ->
  skipn 2 resp_buf = skipn 2 resp_buf' ->
  response_outcome resp_buf (fun r => printed (cmd_query_reply r)) =
    response_outcome resp_buf' (fun r => printed (cmd_query_reply r)) /\
  response_outcome resp_buf (fun r => printed (cmd_book_reply r)) =
    response_outcome resp_buf' (fun r => printed (cmd_book_reply r)) /\
  response_outcome resp_buf (fun r => printed (cmd_change_reply r)) =
    response_outcome resp_buf' (fun r => printed (cmd_change_reply r)) /\
  (forall cb callback_buf facility duration_seconds callback_port,
     response_outcome resp_buf
       (cmd_monitor_reply cb callback_buf facility duration_seconds
          callback_port) =
     response_outcome resp_buf'
       (cmd_monitor_reply cb callback_buf facility duration_seconds
          callback_port)) /\
  (forall facility,
     response_outcome resp_buf (fun r => printed (cmd_reset_reply facility r)) =
     response_outcome resp_buf' (fun r => printed (cmd_reset_reply facility r))) /\
  (forall facility,
     response_outcome resp_buf
       (fun r => printed (cmd_custom_incr_reply facility r)) =
     response_outcome resp_buf'
       (fun r => printed (cmd_custom_incr_reply facility r))) /\
  callback_message resp_buf = callback_message resp_buf'.
Proof.
  intros Hs Hs' Hv.
  pose proof (read_i64_after_version _ _ Hs Hs' Hv) as Hi64.
  pose proof (read_u32_after_version _ _ Hs Hs' Hv) as Hu32.
  pose proof (read_u16_after_version _ _ Hs Hs' Hv) as Hu16.
  repeat split; intros;
    try (apply (response_outcome_after_version _ _ Hs Hs' Hv)).
  - rewrite (cmd_query_reply_after_version _ _ Hs Hs' Hv). reflexivity.
  - unfold cmd_book_reply, HEADER_LEN. rewrite Hi64 by lia. reflexivity.
  - unfold cmd_change_reply, HEADER_LEN. rewrite Hi64 by lia.
    destruct (read_i64 resp_buf' 16) as [[? ?]|]; cbn [bind]; [|reflexivity].
    rewrite Hi64 by lia. reflexivity.
  - unfold cmd_monitor_reply, cmd_monitor_reply_ok, HEADER_LEN.
    rewrite Hu16 by lia. reflexivity.
  - unfold cmd_reset_reply, HEADER_LEN. rewrite Hu32 by lia. reflexivity.
  - unfold cmd_custom_incr_reply, HEADER_LEN. rewrite Hi64 by lia. reflexivity.
  - unfold callback_message.
    pose proof (read_header_after_version _ _ Hs Hs' Hv) as H.
    destruct (read_header resp_buf 0) as [[r h]|]; [|contradiction].
    destruct (read_header resp_buf' 0) as [[r' h']|]; [|contradiction].
    destruct H as (-> & Ho & Hr & Hf & _). cbn [bind].
    rewrite Ho, Hr, Hf.
    destruct (opCode h' =? OP_QUERY_AVAIL); [|reflexivity].
    unfold HEADER_LEN. rewrite Hu16 by lia.
    rewrite read_u16_load, !bind_assoc.
    destruct (load resp_buf' 16 2); cbn [bind]; [|reflexivity].
    rewrite (callback_intervals_after_version _ _ Hs Hs' Hv) by lia.
    reflexivity.
Qed.

(** ** Error responses *)

Lemma read_header_prefix (d rest : list byte) (r : Z) (h : Header) :
  read_header d 0 = Ret (r, h) -> read_header (d ++ rest) 0 = Ret (r, h).
Proof.
  rewrite !read_header_load.
  destruct (load d 0 16) as [bs|] eqn:E; cbn [bind]; [|discriminate].
  intros H. apply load_Ret in E. destruct E as (pre & post & -> & Hpre & Hbs).
  rewrite <- !app_assoc, (load_split pre bs (post ++ rest)) by auto.
  exact H.
Qed.

Lemma store_front (buf d : list byte) :
  len d <= len buf -> exists rest, store buf 0 d = Ret (d ++ rest).
Proof.
  intros H.
  destruct (bounds_split buf 0 (len d) ltac:(lia) (len_nonneg d) ltac:(lia))
    as (pre & mid & post & -> & Hpre & Hmid).
  destruct pre; [|rewrite len_cons in Hpre; pose proof (len_nonneg pre); lia].
  exists post. apply (store_split [] mid post d 0); auto.
Qed.


(* ================================================================= *)
(** * Further properties of the codec *)

Lemma length_slice (bs : list byte) (i m : nat) :
  (i + m <= List.length bs)%nat -> List.length (slice bs i m) = m.
Proof.
  intros H. unfold slice. rewrite length_firstn, length_skipn. lia.
Qed.

Lemma be_bytes_of_slice (s : list byte) (n : nat) :
  List.length s = n -> be_bytes n (be_value s) = s.
Proof. intros <-. apply be_bytes_be_value. Qed.

Lemma slices_of_16 (bs : list byte) :
  len bs = 16 ->
  slice bs 0 2 ++ slice bs 2 2 ++ slice bs 4 4 ++ slice bs 8 4 ++ slice bs 12 4
  = bs.
Proof.
  intros H. unfold len in H.
  do 17 (destruct bs as [|? bs]; [simpl in H; try lia|]).
  - reflexivity.
  - simpl in H. lia.
Qed.

Lemma header_wire_header_of_wire (bs : list byte) :
  len bs = 16 -> header_wire (header_of_wire bs) = bs.
Proof.
  intros H. unfold header_wire, header_of_wire.
  cbn [version opCode requestId flags payloadLen].
  assert (List.length bs = 16%nat) as Hl by (unfold len in H; lia).
  rewrite !be_bytes_of_slice by (apply length_slice; lia).
  apply slices_of_16. exact H.
Qed.

Lemma header_of_wire_wf (bs : list byte) :
  len bs = 16 -> header_wf (header_of_wire bs).
Proof.
  intros H. assert (List.length bs = 16%nat) as Hl by (unfold len in H; lia).
  unfold header_wf, header_of_wire, is_uint16, is_uint32.
  cbn [version opCode requestId flags payloadLen].
  pose proof (be_value_range (slice bs 0 2)) as H1.
  pose proof (be_value_range (slice bs 2 2)) as H2.
  pose proof (be_value_range (slice bs 4 4)) as H3.
  pose proof (be_value_range (slice bs 8 4)) as H4.
  pose proof (be_value_range (slice bs 12 4)) as H5.
  unfold len in H1, H2, H3, H4, H5.
  rewrite length_slice in H1, H2, H3, H4, H5 by lia.
  change (2 ^ (8 * Z.of_nat 2)) with (2 ^ 16) in *.
  change (2 ^ (8 * Z.of_nat 4)) with (2 ^ 32) in *.
  auto.
Qed.

(** Storing what is already there leaves the array as it is. *)
Lemma store_loaded (buf : buffer) (p : Z) (bs : list byte) :
  load buf p (len bs) = Ret bs -> store buf p bs = Ret buf.
Proof.
  intros H. apply load_Ret in H. destruct H as (pre & post & -> & Hp & _).
  apply (store_split pre bs post bs p Hp eq_refl).
Qed.

Lemma load_self_len (buf : buffer) (p n : Z) (bs : list byte) :
  load buf p n = Ret bs -> load buf p (len bs) = Ret bs.
Proof. intros H. rewrite (load_len _ _ _ _ H). exact H. Qed.

Lemma to_int64_range (z : Z) : is_int64 (to_int64 z).
Proof.
  unfold is_int64, to_int64.
  pose proof (Z.mod_pos_bound (z + 2 ^ 63) (2 ^ 64) ltac:(lia)). lia.
Qed.

Lemma be_bytes_8_to_int64 (z : Z) : be_bytes 8 (to_int64 z) = be_bytes 8 z.
Proof.
  rewrite <- (be_bytes_mod 8 (to_int64 z)), <- (be_bytes_mod 8 z).
  f_equal. change (2 ^ (8 * Z.of_nat 8)) with (2 ^ 64).
  unfold to_int64. Z.div_mod_to_equations. lia.
Qed.

(** X1.  Decoding then encoding is the identity on the wire: whatever 16
    bytes [read_header] reads, the header it returns has every field
    within its C type, and [write_header] of that header at the same place
    writes the same 16 bytes back (the array is unchanged).  So no two
    different byte sequences decode to the same header. *)
Theorem header_decode_encode (buf : buffer) (p r : Z) (h : Header) :
  read_header buf p = Ret (r, h) ->
  header_wf h /\ write_header buf p h = Ret (16, buf).
Proof.
  rewrite read_header_load.
  destruct (load buf p 16) as [bs|] eqn:E; cbn [bind]; [|discriminate].
  intros H. injection H as <- <-.
  pose proof (load_len _ _ _ _ E) as Hl. split.
  - apply header_of_wire_wf. exact Hl.
  - rewrite write_header_store, (header_wire_header_of_wire bs Hl).
    rewrite store_loaded by (rewrite Hl; exact E). reflexivity.
Qed.

(** X2.  The same for the integer fields: what [read_u16], [read_u32] and
    [read_i64] return is within [uint16_t], [uint32_t] and [int64_t], and
    writing it back at the same offset leaves the array unchanged. *)
Theorem field_decode_encode (buf : buffer) (p r v : Z) :
  (read_u16 buf p = Ret (r, v) ->
   is_uint16 v /\ write_u16 buf p v = Ret (2, buf)) /\
  (read_u32 buf p = Ret (r, v) ->
   is_uint32 v /\ write_u32 buf p v = Ret (4, buf)) /\
  (read_i64 buf p = Ret (r, v) ->
   is_int64 v /\ write_i64 buf p v = Ret (8, buf)).
Proof.
  split; [|split].
  - rewrite read_u16_load.
    destruct (load buf p 2) as [bs|] eqn:E; cbn [bind]; [|discriminate].
    intros H. injection H as <- <-.
    pose proof (load_len _ _ _ _ E) as Hl.
    pose proof (be_value_range bs) as Hr. rewrite Hl in Hr. split; [exact Hr|].
    rewrite write_u16_store, be_bytes_of_slice by (unfold len in Hl; lia).
    rewrite store_loaded by (rewrite Hl; exact E). reflexivity.
  - rewrite read_u32_load.
    destruct (load buf p 4) as [bs|] eqn:E; cbn [bind]; [|discriminate].
    intros H. injection H as <- <-.
    pose proof (load_len _ _ _ _ E) as Hl.
    pose proof (be_value_range bs) as Hr. rewrite Hl in Hr. split; [exact Hr|].
    rewrite write_u32_store, be_bytes_of_slice by (unfold len in Hl; lia).
    rewrite store_loaded by (rewrite Hl; exact E). reflexivity.
  - rewrite read_i64_load.
    destruct (load buf p 8) as [bs|] eqn:E; cbn [bind]; [|discriminate].
    intros H. injection H as <- <-.
    pose proof (load_len _ _ _ _ E) as Hl. split; [apply to_int64_range|].
    rewrite write_i64_store, be_bytes_8_to_int64.
    rewrite be_bytes_of_slice by (unfold len in Hl; lia).
    rewrite store_loaded by (rewrite Hl; exact E). reflexivity.
Qed.

(** X3.  The writers check no bound either: each one runs past the end of
    the array exactly when the array has less room at the offset than it
    writes (2, 4, 8, 16 bytes; for a string 2 plus its clamped length), and
    otherwise returns that number of bytes. *)
Theorem writers_unchecked (buf : buffer) (p : Z) :
  (forall v, write_u16 buf p v = Overrun <-> ~ (0 <= p /\ p + 2 <= len buf)) /\
  (forall v, write_u32 buf p v = Overrun <-> ~ (0 <= p /\ p + 4 <= len buf)) /\
  (forall v, write_i64 buf p v = Overrun <-> ~ (0 <= p /\ p + 8 <= len buf)) /\
  (forall h, write_header buf p h = Overrun <->
             ~ (0 <= p /\ p + 16 <= len buf)) /\
  (forall str l, strlen str = Ret l ->
     (write_string buf p str = Overrun <->
      ~ (0 <= p /\ p + (2 + Z.min l 65535) <= len buf))) /\
  (forall str, strlen str = Overrun -> write_string buf p str = Overrun).
Proof.
  assert (forall (A : Type) (s : list byte) (n : A),
            (b' <- store buf p s ;; Ret (n, b')) = Overrun <->
            ~ (0 <= p /\ p + len s <= len buf)) as Hst.
  { intros A s n. rewrite <- store_Overrun.
    destruct (store buf p s); cbn [bind]; split; intros; easy. }
  repeat split.
  - rewrite write_u16_store, Hst, len_be_bytes. auto.
  - rewrite write_u16_store, Hst, len_be_bytes. auto.
  - rewrite write_u32_store, Hst, len_be_bytes. auto.
  - rewrite write_u32_store, Hst, len_be_bytes. auto.
  - rewrite write_i64_store, Hst, len_be_bytes. auto.
  - rewrite write_i64_store, Hst, len_be_bytes. auto.
  - rewrite write_header_store, Hst, len_header_wire. auto.
  - rewrite write_header_store, Hst, len_header_wire. auto.
  - rewrite (write_string_wire _ _ _ _ H), Hst, len_string_wire.
    destruct (strlen_Ret _ _ H) as (<- & _). auto.
  - rewrite (write_string_wire _ _ _ _ H), Hst, len_string_wire.
    destruct (strlen_Ret _ _ H) as (<- & _). auto.
  - apply write_string_unterminated.
Qed.

Lemma strlen_with_nul (t rest : list byte) :
  strlen (t ++ Byte.x00 :: rest) = Ret (len (c_str (t ++ Byte.x00 :: rest))) /\
  len (c_str (t ++ Byte.x00 :: rest)) <= len t /\
  c_str (t ++ Byte.x00 :: rest) = c_str (t ++ [Byte.x00]).
Proof.
  induction t as [|c t IH]; cbn [app strlen c_str].
  - change (Byte.eqb Byte.x00 Byte.x00) with true. cbv iota.
    repeat split. change (len (@nil byte)) with 0. lia.
  - destruct (Byte.eqb c Byte.x00).
    + repeat split. change (len (@nil byte)) with 0.
      pose proof (len_nonneg (c :: t)). lia.
    + destruct IH as (Hs & Hle & Hc). rewrite Hs, Hc in *. cbn [bind].
      rewrite !len_cons. repeat split; [f_equal; lia | lia].
Qed.

(** X4.  What [read_string] does with the count it reads.  When the
    result [r] is not [-1], it is 2 plus the count held big-endian in the
    two bytes at the offset, the count is below [max_len], and the output
    array holds the [count] bytes that follow the count on the wire, then
    a NUL, then what it held before: a terminated C string, whose [strlen]
    is at most the count (less when the text on the wire contains a NUL:
    the string ends there).  Conversely, whenever the count is below
    [max_len], the text lies within the array and the output array has
    room for it and the NUL, [read_string] returns just that. *)
Theorem read_string_output (buf : buffer) (p : Z) (out : buffer)
    (max_len : Z) :
  (forall r out',
     read_string buf p out max_len = Ret (r, out') -> r <> -1 ->
     exists count text,
       load buf p 2 = Ret count /\
       r = 2 + be_value count /\ be_value count < max_len /\
       load buf (p + 2) (be_value count) = Ret text /\
       out' = text ++ Byte.x00 :: skipn (Z.to_nat (be_value count + 1)) out /\
       len out' = len out /\
       strlen out' = Ret (len (c_str out')) /\
       len (c_str out') <= be_value count /\
       c_str out' = c_str (text ++ [Byte.x00])) /\
  (forall count text,
     load buf p 2 = Ret count -> be_value count < max_len ->
     load buf (p + 2) (be_value count) = Ret text ->
     be_value count + 1 <= len out ->
     read_string buf p out max_len =
     Ret (2 + be_value count,
          text ++ Byte.x00 :: skipn (Z.to_nat (be_value count + 1)) out)).
Proof.
  split.
  - intros r out'. rewrite read_string_load.
    destruct (load buf p 2) as [count|] eqn:Ec; cbn [bind]; [|discriminate].
    destruct (Z.leb_spec max_len (be_value count)) as [Hge|Hlt].
    { intros H Hr. injection H as <- <-. contradiction. }
    destruct (load buf (p + 2) (be_value count)) as [text|] eqn:Et;
      cbn [bind]; [|discriminate].
    destruct (store out 0 (text ++ [Byte.x00])) as [o|] eqn:Es; cbn [bind];
      [|discriminate].
    intros H _.
    assert (r = 2 + be_value count /\ out' = o) as [-> ->]
      by (split; congruence).
    clear H.
    pose proof (load_len _ _ _ _ Et) as Hl.
    pose proof (store_len _ _ _ _ Es) as Hlo.
    apply store_Ret in Es.
    destruct Es as (pre & mid & post & -> & -> & Hpre & Hmid).
    destruct pre;
      [|rewrite len_cons in Hpre; pose proof (len_nonneg pre); lia].
    rewrite !app_nil_l in *.
    rewrite len_app in Hmid. change (len [Byte.x00]) with 1 in Hmid.
    exists count, text.
    assert (skipn (Z.to_nat (be_value count + 1)) (mid ++ post) = post) as ->.
    { replace (Z.to_nat (be_value count + 1)) with (List.length mid)
        by (unfold len in *; lia).
      rewrite skipn_app, skipn_all, Nat.sub_diag. reflexivity. }
    rewrite <- app_assoc in *. rewrite <- app_comm_cons, app_nil_l in *.
    destruct (strlen_with_nul text post) as (Hs & Hle & Hc).
    split; [reflexivity|]. split; [reflexivity|]. split; [exact Hlt|].
    split; [exact Et|]. split; [reflexivity|]. split; [exact Hlo|].
    split; [exact Hs|]. split; [lia|exact Hc].
  - intros count text Hc Hlt Ht Hroom. rewrite read_string_load, Hc.
    cbn [bind].
    destruct (Z.leb_spec max_len (be_value count)) as [Hge|_]; [lia|].
    rewrite Ht. cbn [bind].
    pose proof (load_len _ _ _ _ Ht) as Hl.
    pose proof (len_nonneg text) as Hnn.
    assert (len (text ++ [Byte.x00]) = be_value count + 1) as Hlen
      by (rewrite len_app, Hl; reflexivity).
    destruct (bounds_split out 0 (be_value count + 1) ltac:(lia) ltac:(lia)
                ltac:(lia)) as (pre & mid & post & -> & Hpre & Hmid).
    destruct pre;
      [|rewrite len_cons in Hpre; pose proof (len_nonneg pre); lia].
    rewrite !app_nil_l.
    pose proof (store_split [] mid post (text ++ [Byte.x00]) 0 eq_refl
                  ltac:(lia)) as Hst.
    rewrite !app_nil_l in Hst. rewrite Hst. cbn [bind].
    replace (Z.to_nat (be_value count + 1)) with (List.length mid)
      by (unfold len in *; lia).
    rewrite skipn_app, skipn_all, Nat.sub_diag. cbn [skipn app].
    rewrite <- app_assoc. reflexivity.
Qed.

(* ================================================================= *)
(** * Further properties of the requests *)

(** The header and the result of a request that is one store of header and
    payload. *)
Lemma request_header_read (builder : access (buffer * Z * Z))
    (req_buf : buffer) (op g amo : Z) (payload : list byte) :
  builder =
    (b <- store req_buf 0
            (header_wire (request_header op g amo (len payload)) ++ payload) ;;
     Ret (b, HEADER_LEN + len payload, next_request_id g)) ->
  is_uint16 op -> len payload < 2 ^ 32 ->
  forall b offset g',
    builder = Ret (b, offset, g') ->
    read_header b 0 =
      Ret (HEADER_LEN,
           {| version := 1; opCode := op;
              requestId := (g + 1) mod 2 ^ 32;
              flags := if amo =? 0 then 0 else 1;
              payloadLen := offset - 16 |}) /\
    g' = (g + 1) mod 2 ^ 32 /\
    b = header_wire (request_header op g amo (len payload)) ++ payload
        ++ skipn (Z.to_nat offset) req_buf /\
    offset = HEADER_LEN + len payload.
Proof.
  intros -> Hop Hlen b offset g'.
  destruct (store req_buf 0 _) as [b0|] eqn:E; cbn [bind]; [|discriminate].
  intros H.
  assert (b0 = b /\ offset = HEADER_LEN + len payload
          /\ g' = next_request_id g) as (<- & -> & ->)
    by (repeat split; congruence).
  clear H. pose proof (len_nonneg payload) as Hnn.
  pose proof E as Hst. apply load_store_same, load_app_inv in Hst.
  destruct Hst as (Hh & _). rewrite len_header_wire in Hh.
  repeat split.
  - rewrite read_header_load, Hh. cbn [bind].
    rewrite header_of_wire_header_wire by (apply request_header_wf; exact Hop).
    unfold request_header, next_request_id, to_uint32, HEADER_LEN,
      PROTOCOL_VERSION, FLAG_AT_MOST_ONCE.
    rewrite (Z.mod_small (len payload)) by lia.
    replace (16 + len payload - 16) with (len payload) by lia.
    reflexivity.
  - apply store_Ret in E.
    destruct E as (pre & mid & post & -> & -> & Hpre & Hmid).
    destruct pre; [|rewrite len_cons in Hpre; pose proof (len_nonneg pre); lia].
    rewrite !app_nil_l.
    replace (Z.to_nat (HEADER_LEN + len payload)) with (List.length mid).
    + rewrite skipn_app, skipn_all, Nat.sub_diag, <- app_assoc. reflexivity.
    + rewrite len_app, len_header_wire in Hmid. unfold len, HEADER_LEN in *.
      lia.
Qed.

Ltac header_case store_lemma :=
  match goal with
  | |- (_ -> exists b, ?builder = Ret (b, 16 + len ?payload, _) /\ _) /\ _ =>
      let Hh := fresh "Hh" in
      let Hb := fresh "Hb" in
      pose proof (request_header_read builder _ _ _ _ payload store_lemma
                    ltac:(op_small) ltac:(payload_small)) as Hh;
      destruct (request_built builder _ _ _ _ payload store_lemma
                  ltac:(op_small) ltac:(payload_small)) as (_ & Hb);
      assert (forall b offset g',
                builder = Ret (b, offset, g') ->
                read_header b 0 =
                  Ret (HEADER_LEN,
                       {| version := 1; opCode := _;
                          requestId := _; flags := _;
                          payloadLen := len payload |}) /\
                offset = 16 + len payload /\ g' = _) as Hall
        by (let b := fresh "b" in
            let offset := fresh "offset" in
            let g' := fresh "g'" in
            let H := fresh "H" in
            let H1 := fresh "H1" in
            let H2 := fresh "H2" in
            let H4 := fresh "H4" in
            intros b offset g' H;
            destruct (Hh b offset g' H) as (H1 & H2 & _ & H4);
            unfold HEADER_LEN in H4; rewrite H1, H4;
            replace (16 + len payload - 16) with (len payload) by lia;
            split; [reflexivity|]; split; [reflexivity|exact H2]);
      split; [|exact Hall];
      let Hroom := fresh "Hroom" in
      let b := fresh "b" in
      let Hbuilt := fresh "Hbuilt" in
      intros Hroom; destruct (Hb Hroom) as (b & Hbuilt);
      exists b; split;
        [exact Hbuilt|exact (proj1 (Hall _ _ _ Hbuilt))]
  end.

(** X5.  The header of every request.  Each of the six commands, given
    terminated strings and a request array with room for header and
    payload, builds a request whose header is: version 1, the opcode of
    the command, the request id one above the global counter (modulo
    2^32), which is also the new value of the counter, flag bit 0 set
    exactly when [at_most_once] is not zero and no other flag, and as
    payload length the number of payload bytes, which is the length
    passed to [udp_invoke] less 16.  No command builds a request with
    another header. *)
Theorem request_headers (g amo : Z) (req_buf : buffer) :
  let header op (payload : list byte) :=
    {| version := 1; opCode := op; requestId := (g + 1) mod 2 ^ 32;
       flags := if amo =? 0 then 0 else 1;
       payloadLen := len payload |} in
  let request (builder : access (buffer * Z * Z)) op (payload : list byte) :=
    (HEADER_LEN + len payload <= len req_buf ->
     exists b,
       builder = Ret (b, 16 + len payload, (g + 1) mod 2 ^ 32) /\
       read_header b 0 = Ret (HEADER_LEN, header op payload)) /\
    (forall b offset g',
       builder = Ret (b, offset, g') ->
       read_header b 0 = Ret (HEADER_LEN, header op payload) /\
       offset = 16 + len payload /\ g' = (g + 1) mod 2 ^ 32) in
  (forall facility l,
     strlen facility = Ret l ->
     request (cmd_query_request g req_buf facility amo) 0x0001
       (query_payload facility)) /\
  (forall facility user start_ms end_ms l1 l2,
     strlen facility = Ret l1 -> strlen user = Ret l2 ->
     request (cmd_book_request g req_buf facility user start_ms end_ms amo)
       0x0002 (book_payload facility user start_ms end_ms)) /\
  (forall booking_id offset_minutes,
     request (cmd_change_request g req_buf booking_id offset_minutes amo)
       0x0003 (change_payload booking_id offset_minutes)) /\
  (forall facility duration_seconds callback_port l,
     strlen facility = Ret l ->
     request
       (cmd_monitor_request g req_buf facility duration_seconds callback_port
          amo)
       0x0004 (monitor_payload facility duration_seconds callback_port)) /\
  (forall facility day_start day_end l,
     strlen facility = Ret l ->
     request (cmd_reset_request g req_buf facility day_start day_end amo)
       0x1001 (reset_payload facility day_start day_end)) /\
  (forall facility l,
     strlen facility = Ret l ->
     request (cmd_custom_incr_request g req_buf facility amo) 0x1002
       (custom_incr_payload facility)).
Proof.
  cbv zeta.
  split; [|split; [|split; [|split; [|split]]]].
  - intros facility l Hl.
    header_case (cmd_query_request_store g req_buf facility amo l Hl).
  - intros facility user start_ms end_ms l1 l2 Hl1 Hl2.
    header_case (cmd_book_request_store g req_buf facility user start_ms
                      end_ms amo l1 l2 Hl1 Hl2).
  - intros booking_id offset_minutes.
    header_case (cmd_change_request_store g req_buf booking_id
                      offset_minutes amo).
  - intros facility duration_seconds callback_port l Hl.
    header_case (cmd_monitor_request_store g req_buf facility
                      duration_seconds callback_port amo l Hl).
  - intros facility day_start day_end l Hl.
    header_case (cmd_reset_request_store g req_buf facility day_start
                      day_end amo l Hl).
  - intros facility l Hl.
    header_case (cmd_custom_incr_request_store g req_buf facility amo l Hl).
Qed.

Lemma request_overrun (builder : access (buffer * Z * Z)) (req_buf : buffer)
    (op g amo : Z) (payload : list byte) :
  builder =
    (b <- store req_buf 0
            (header_wire (request_header op g amo (len payload)) ++ payload) ;;
     Ret (b, HEADER_LEN + len payload, next_request_id g)) ->
  (builder = Overrun <-> len req_buf < 16 + len payload).
Proof.
  intros ->. pose proof (len_nonneg payload).
  destruct (store req_buf 0 _) as [b|] eqn:E; cbn [bind].
  - apply store_Ret in E.
    destruct E as (pre & mid & post & -> & _ & Hpre & Hmid).
    rewrite len_app, len_header_wire in Hmid. rewrite !len_app.
    pose proof (len_nonneg pre). pose proof (len_nonneg post).
    split; [discriminate|lia].
  - apply store_Overrun in E. rewrite len_app, len_header_wire in E.
    split; [lia|reflexivity].
Qed.

(** X6.  The request array of [MAX_DGRAM_SIZE] bytes is written without a
    bound check, so long strings run past its end.  With [l], [l1], [l2]
    the lengths of the string arguments (each counts for at most 65535):
    a query or reset overruns exactly when [l > 65502], a monitor request
    when [l > 65510], an increment when [l > 65518], and a booking when the
    two clamped lengths add up to more than 65500; a change request never
    does. *)
Theorem request_array_overrun (g amo : Z) (req_buf : buffer) :
  len req_buf = MAX_DGRAM_SIZE ->
  (forall facility l, strlen facility = Ret l ->
     (cmd_query_request g req_buf facility amo = Overrun <-> 65502 < l)) /\
  (forall facility user start_ms end_ms l1 l2,
     strlen facility = Ret l1 -> strlen user = Ret l2 ->
     (cmd_book_request g req_buf facility user start_ms end_ms amo = Overrun
      <-> 65500 < Z.min l1 65535 + Z.min l2 65535)) /\
  (forall booking_id offset_minutes,
     cmd_change_request g req_buf booking_id offset_minutes amo <> Overrun) /\
  (forall facility duration_seconds callback_port l,
     strlen facility = Ret l ->
     (cmd_monitor_request g req_buf facility duration_seconds callback_port amo
        = Overrun <-> 65510 < l)) /\
  (forall facility day_start day_end l, strlen facility = Ret l ->
     (cmd_reset_request g req_buf facility day_start day_end amo = Overrun
      <-> 65502 < l)) /\
  (forall facility l, strlen facility = Ret l ->
     (cmd_custom_incr_request g req_buf facility amo = Overrun
      <-> 65518 < l)).
Proof.
  intros Hsize. unfold MAX_DGRAM_SIZE in Hsize.
  split; [|split; [|split; [|split; [|split]]]].
  - intros facility l Hl.
    rewrite (request_overrun _ _ _ _ _ _
               (cmd_query_request_store g req_buf _ amo _ Hl)).
    unfold query_payload. rewrite !len_app, !len_be_bytes, len_string_wire.
    destruct (strlen_Ret _ _ Hl) as (<- & _). lia.
  - intros facility user start_ms end_ms l1 l2 Hl1 Hl2.
    rewrite (request_overrun _ _ _ _ _ _
               (cmd_book_request_store g req_buf _ _ start_ms end_ms amo _ _
                  Hl1 Hl2)).
    unfold book_payload. rewrite !len_app, !len_be_bytes, !len_string_wire.
    destruct (strlen_Ret _ _ Hl1) as (<- & _).
    destruct (strlen_Ret _ _ Hl2) as (<- & _). lia.
  - intros booking_id offset_minutes H.
    apply (request_overrun _ _ _ _ _ _
             (cmd_change_request_store g req_buf booking_id offset_minutes amo))
      in H.
    unfold change_payload in H. rewrite !len_app, !len_be_bytes in H. lia.
  - intros facility duration_seconds callback_port l Hl.
    rewrite (request_overrun _ _ _ _ _ _
               (cmd_monitor_request_store g req_buf _ duration_seconds
                  callback_port amo _ Hl)).
    unfold monitor_payload. rewrite !len_app, !len_be_bytes, len_string_wire.
    destruct (strlen_Ret _ _ Hl) as (<- & _). lia.
  - intros facility day_start day_end l Hl.
    rewrite (request_overrun _ _ _ _ _ _
               (cmd_reset_request_store g req_buf _ day_start day_end amo _ Hl)).
    unfold reset_payload. rewrite !len_app, !len_be_bytes, len_string_wire.
    destruct (strlen_Ret _ _ Hl) as (<- & _). lia.
  - intros facility l Hl.
    rewrite (request_overrun _ _ _ _ _ _
               (cmd_custom_incr_request_store g req_buf _ amo _ Hl)).
    unfold custom_incr_payload. rewrite len_string_wire.
    destruct (strlen_Ret _ _ Hl) as (<- & _). lia.
Qed.

(** Reading a string where [string_wire] lies. *)
Lemma read_string_of_wire (pre post str : list byte) (l : Z) (out : buffer)
    (max_len : Z) :
  strlen str = Ret l -> l <= 65535 -> l < max_len -> max_len <= len out ->
  exists out',
    read_string (pre ++ string_wire str ++ post) (len pre) out max_len
      = Ret (2 + l, out') /\
    c_str out' = c_str str.
Proof.
  intros Hl Hmax Hcap Hout.
  destruct (strlen_Ret _ _ Hl) as (Hlen & _).
  pose proof (len_nonneg (c_str str)) as Hnn.
  destruct (bounds_split out 0 (l + 1) ltac:(lia) ltac:(lia) ltac:(lia))
    as (o0 & o1 & o2 & -> & Ho0 & Ho1).
  destruct o0; [|rewrite len_cons in Ho0; pose proof (len_nonneg o0); lia].
  unfold string_wire. cbv zeta. rewrite <- Hlen, Z.min_l by lia.
  rewrite firstn_all2 by (unfold len in Hlen; lia).
  set (s := c_str str) in *.
  exists ((s ++ [Byte.x00]) ++ o2). split.
  - rewrite read_string_load.
    rewrite <- (app_assoc (be_bytes 2 l)).
    rewrite (load_split pre (be_bytes 2 l) (s ++ post)) by
      (auto using len_be_bytes).
    cbn [bind]. rewrite be_value_be_bytes.
    change (2 ^ (8 * Z.of_nat 2)) with (2 ^ 16).
    rewrite Z.mod_small by lia.
    destruct (Z.leb_spec max_len l); [lia|].
    rewrite (app_assoc pre (be_bytes 2 l)).
    rewrite (load_split (pre ++ be_bytes 2 l) s post)
      by (rewrite ?len_app, ?len_be_bytes; lia).
    cbn [bind].
    rewrite (store_split [] o1 o2 (s ++ [Byte.x00]) 0);
      [reflexivity|reflexivity|].
    rewrite len_app. change (len [Byte.x00]) with 1. lia.
  - rewrite <- app_assoc. cbn [app].
    apply c_str_terminated, c_str_no_nul.
Qed.

Lemma read_i64_of_wire (pre post : list byte) (x : Z) :
  is_int64 x ->
  read_i64 (pre ++ be_bytes 8 x ++ post) (len pre) = Ret (8, x).
Proof.
  intros Hx. rewrite read_i64_load.
  rewrite (load_split pre (be_bytes 8 x) post) by (auto using len_be_bytes).
  cbn [bind]. rewrite be_value_be_bytes.
  change (2 ^ (8 * Z.of_nat 8)) with (2 ^ 64).
  rewrite to_int64_mod by exact Hx. reflexivity.
Qed.

Lemma read_u32_of_wire (pre post : list byte) (x : Z) :
  read_u32 (pre ++ be_bytes 4 x ++ post) (len pre) = Ret (4, to_uint32 x).
Proof.
  rewrite read_u32_load.
  rewrite (load_split pre (be_bytes 4 x) post) by (auto using len_be_bytes).
  cbn [bind]. rewrite be_value_be_bytes. reflexivity.
Qed.

Lemma read_u16_of_wire (pre post : list byte) (x : Z) :
  read_u16 (pre ++ be_bytes 2 x ++ post) (len pre) = Ret (2, to_uint16 x).
Proof.
  rewrite read_u16_load.
  rewrite (load_split pre (be_bytes 2 x) post) by (auto using len_be_bytes).
  cbn [bind]. rewrite be_value_be_bytes. reflexivity.
Qed.

(** X7.  The payload of a booking request decodes to the arguments of the
    command: on the request array as built, [read_string] twice and
    [read_i64] twice, each at the offset where the one before stopped,
    return the facility, the user and the two times, for strings of at most
    65535 bytes that fit the output arrays. *)
Theorem book_request_decodes (g amo : Z) (req_buf b : buffer)
    (facility user : list byte) (start_ms end_ms offset g' l1 l2 : Z)
    (out1 out2 : buffer) (max1 max2 : Z) :
  cmd_book_request g req_buf facility user start_ms end_ms amo
    = Ret (b, offset, g') ->
  strlen facility = Ret l1 -> strlen user = Ret l2 ->
  l1 <= 65535 -> l2 <= 65535 ->
  l1 < max1 -> max1 <= len out1 -> l2 < max2 -> max2 <= len out2 ->
  is_int64 start_ms -> is_int64 end_ms ->
  exists o1 o2,
    read_string b 16 out1 max1 = Ret (2 + l1, o1) /\
    c_str o1 = c_str facility /\
    read_string b (16 + (2 + l1)) out2 max2 = Ret (2 + l2, o2) /\
    c_str o2 = c_str user /\
    read_i64 b (16 + (2 + l1) + (2 + l2)) = Ret (8, start_ms) /\
    read_i64 b (16 + (2 + l1) + (2 + l2) + 8) = Ret (8, end_ms) /\
    offset = 16 + (2 + l1) + (2 + l2) + 8 + 8.
Proof.
  intros H Hl1 Hl2 Hm1 Hm2 Hc1 Ho1 Hc2 Ho2 Hs He.
  eapply request_header_read in H;
    [| apply (cmd_book_request_store _ _ _ _ _ _ _ _ _ Hl1 Hl2)
     | op_small | payload_small].
  destruct H as (_ & _ & -> & ->).
  set (hw := header_wire _). set (post := skipn _ req_buf).
  assert (len hw = 16) as Hhw by apply len_header_wire.
  assert (len (string_wire facility) = 2 + l1) as Hw1.
  { rewrite len_string_wire. destruct (strlen_Ret _ _ Hl1) as (<- & _). lia. }
  assert (len (string_wire user) = 2 + l2) as Hw2.
  { rewrite len_string_wire. destruct (strlen_Ret _ _ Hl2) as (<- & _). lia. }
  unfold book_payload. rewrite <- !app_assoc.
  destruct (read_string_of_wire hw
              (string_wire user ++ be_bytes 8 start_ms ++ be_bytes 8 end_ms
               ++ post) facility l1 out1 max1 Hl1 Hm1 Hc1 Ho1)
    as (o1 & Hr1 & Hs1).
  destruct (read_string_of_wire (hw ++ string_wire facility)
              (be_bytes 8 start_ms ++ be_bytes 8 end_ms ++ post)
              user l2 out2 max2 Hl2 Hm2 Hc2 Ho2)
    as (o2 & Hr2 & Hs2).
  pose proof (read_i64_of_wire (hw ++ string_wire facility ++ string_wire user)
                (be_bytes 8 end_ms ++ post) start_ms Hs) as Hr3.
  pose proof (read_i64_of_wire
                (hw ++ string_wire facility ++ string_wire user
                 ++ be_bytes 8 start_ms) post end_ms He) as Hr4.
  rewrite Hhw in Hr1.
  rewrite !len_app, Hhw, Hw1 in Hr2.
  rewrite !len_app, Hhw, Hw1, Hw2 in Hr3.
  rewrite !len_app, len_be_bytes, Hhw, Hw1, Hw2 in Hr4.
  repeat rewrite <- app_assoc in Hr2.
  repeat rewrite <- app_assoc in Hr3.
  repeat rewrite <- app_assoc in Hr4.
  exists o1, o2.
  replace (16 + (2 + l1) + (2 + l2)) with (16 + ((2 + l1) + (2 + l2))) by lia.
  replace (16 + ((2 + l1) + (2 + l2)) + 8)
    with (16 + ((2 + l1) + ((2 + l2) + Z.of_nat 8))) by lia.
  repeat split; auto.
  unfold HEADER_LEN, book_payload. rewrite !len_app, !len_be_bytes, Hw1, Hw2.
  lia.
Qed.

(** X8.  The payload of a change request decodes to the booking id and to
    the offset converted to [uint32_t]: a negative offset in minutes
    travels as its value modulo 2^32.  The request is always 28 bytes. *)
Theorem change_request_decodes (g amo : Z) (req_buf b : buffer)
    (booking_id offset_minutes offset g' : Z) :
  cmd_change_request g req_buf booking_id offset_minutes amo
    = Ret (b, offset, g') ->
  is_int64 booking_id ->
  read_i64 b 16 = Ret (8, booking_id) /\
  read_u32 b 24 = Ret (4, offset_minutes mod 2 ^ 32) /\
  offset = 28.
Proof.
  intros H Hid.
  eapply request_header_read in H;
    [| apply cmd_change_request_store | op_small | payload_small].
  destruct H as (_ & _ & -> & ->).
  set (hw := header_wire _). set (post := skipn _ req_buf).
  assert (len hw = 16) as Hhw by apply len_header_wire.
  unfold change_payload. rewrite <- !app_assoc.
  pose proof (read_i64_of_wire hw (be_bytes 4 offset_minutes ++ post)
                booking_id Hid) as H1.
  pose proof (read_u32_of_wire (hw ++ be_bytes 8 booking_id) post
                offset_minutes) as H2.
  rewrite Hhw in H1. rewrite len_app, len_be_bytes, Hhw, <- app_assoc in H2.
  repeat split; auto.
Qed.

(* ================================================================= *)
(** * The request id counter *)

Lemma to_uint32_add (a b : Z) : to_uint32 (to_uint32 a + b) = to_uint32 (a + b).
Proof. unfold to_uint32. apply Zplus_mod_idemp_l. Qed.

Lemma length_request_ids (n : nat) (g : Z) :
  List.length (request_ids n g) = n.
Proof. revert g. induction n; intros; cbn [request_ids List.length]; auto. Qed.

Lemma nth_request_id (n : nat) :
  forall g i, (i < n)%nat ->
  nth_error (request_ids n g) i = Some ((g + Z.of_nat i + 1) mod 2 ^ 32).
Proof.
  induction n as [|n IH]; intros g i Hi; [lia|].
  cbn [request_ids]. cbv zeta. destruct i as [|i]; cbn [nth_error].
  - unfold next_request_id, to_uint32. do 2 f_equal. lia.
  - rewrite IH by lia. unfold next_request_id.
    fold (to_uint32 (to_uint32 (g + 1) + Z.of_nat i + 1)).
    rewrite <- Z.add_assoc, to_uint32_add. unfold to_uint32.
    do 2 f_equal. lia.
Qed.

(** X9.  Request ids count up modulo 2^32: the call number [i] (from 0)
    after the counter was [g] returns [(g + i + 1) mod 2^32].  So any two
    of up to 2^32 successive calls return different ids, and the id comes
    back to where it was after exactly 2^32 calls. *)
Theorem request_ids_wrap (n : nat) (g : Z) (i j : nat) :
  (i < j < n)%nat ->
  nth_error (request_ids n g) i = Some ((g + Z.of_nat i + 1) mod 2 ^ 32) /\
  (Z.of_nat j - Z.of_nat i < 2 ^ 32 ->
   nth_error (request_ids n g) i <> nth_error (request_ids n g) j) /\
  (Z.of_nat j - Z.of_nat i = 2 ^ 32 ->
   nth_error (request_ids n g) i = nth_error (request_ids n g) j).
Proof.
  intros Hij. rewrite !nth_request_id by lia. repeat split.
  - intros Hd H.
    assert ((g + Z.of_nat i + 1) mod 2 ^ 32 = (g + Z.of_nat j + 1) mod 2 ^ 32)
      as H' by congruence.
    clear H. Z.div_mod_to_equations. lia.
  - intros Hd. f_equal.
    replace (g + Z.of_nat j + 1) with (g + Z.of_nat i + 1 + 1 * 2 ^ 32) by lia.
    rewrite Z.mod_add by lia. reflexivity.
Qed.

Lemma init_request_id_range (rand_value : Z) :
  0 <= init_request_id rand_value < 2 ^ 30.
Proof.
  unfold init_request_id, to_uint32.
  change 0x3FFFFFFF with (Z.ones 30). rewrite Z.land_ones by lia.
  pose proof (Z.mod_pos_bound rand_value (2 ^ 30) ltac:(lia)).
  rewrite Z.mod_small by lia. lia.
Qed.

(** X10.  After [init_request_id], whatever [rand] returned, the counter
    is below 2^30, so the first 3 * 2^30 request ids of the process do not
    wrap: call number [i] returns the seed plus [i + 1], each id is
    positive and larger than the one before. *)
Theorem request_ids_after_init (rand_value : Z) (n i : nat) :
  Z.of_nat n <= 3 * 2 ^ 30 -> (i < n)%nat ->
  0 <= init_request_id rand_value < 2 ^ 30 /\
  nth_error (request_ids n (init_request_id rand_value)) i =
    Some (init_request_id rand_value + Z.of_nat i + 1) /\
  (forall a c, (S i < n)%nat ->
     nth_error (request_ids n (init_request_id rand_value)) i = Some a ->
     nth_error (request_ids n (init_request_id rand_value)) (S i) = Some c ->
     0 < a < c).
Proof.
  intros Hn Hi. pose proof (init_request_id_range rand_value) as Hr.
  split; [exact Hr|]. split.
  - rewrite nth_request_id by lia. rewrite Z.mod_small by lia. reflexivity.
  - intros a c Hsi. rewrite !nth_request_id by lia.
    rewrite !Z.mod_small by lia. intros Ha Hc.
    assert (a = init_request_id rand_value + Z.of_nat i + 1) by congruence.
    assert (c = init_request_id rand_value + Z.of_nat (S i) + 1) by congruence.
    lia.
Qed.

(* ================================================================= *)
(** * Further properties of the invocation engine *)

Section Engine.

Variable net : transport.
Variables request response : buffer.
Variables req_len resp_max timeout_ms max_retries : Z.

Let run := fun fuel => udp_invoke_loop fuel net request req_len response
                         resp_max timeout_ms max_retries.
Let datagram := firstn (Z.to_nat (to_int req_len)) request.

Lemma loaded_datagram (d : list byte) :
  load request 0 (to_int req_len) = Ret d -> d = datagram.
Proof.
  unfold load. destruct (in_bounds request 0 (to_int req_len));
    [|discriminate].
  intros H. injection H as <-. reflexivity.
Qed.

(** From [attempt] on, at most [max_retries + 1 - attempt] datagrams are
    sent. *)
Lemma run_send_bound (fuel : nat) :
  max_retries < INT_MAX ->
  forall k attempt tr, 0 <= attempt ->
  len (sent_datagrams (snd (run fuel k attempt tr))) <=
  len (sent_datagrams tr) + Z.max 0 (max_retries + 1 - attempt).
Proof.
  intros Hmax. unfold run.
  induction fuel as [|fuel IH]; intros k attempt tr Ha;
    cbn [udp_invoke_loop]; cbv zeta.
  - cbn [snd]. lia.
  - destruct (Z.leb_spec attempt max_retries) as [Hle|Hgt].
    2:{ sent_simpl. lia. }
    assert (to_int (attempt + 1) = attempt + 1) as ->
      by (apply to_int_small; unfold INT_MIN, INT_MAX in *; lia).
    destruct (load request 0 (to_int req_len)) as [d|]; [|cbn [snd]; lia].
    destruct (sendto_result net k <? 0).
    { eapply Z.le_trans; [apply IH; lia|]. sent_simpl.
      rewrite len_app. change (len [d]) with 1. lia. }
    destruct (select_result net k <? 0).
    { sent_simpl. rewrite len_app. change (len [d]) with 1. lia. }
    destruct (select_result net k =? 0).
    { eapply Z.le_trans; [apply IH; lia|]. sent_simpl.
      rewrite len_app. change (len [d]) with 1. lia. }
    destruct (recvfrom_result net k) as [dd|].
    2:{ sent_simpl. rewrite len_app. change (len [d]) with 1. lia. }
    destruct (store response 0 _); sent_simpl;
      rewrite len_app; change (len [d]) with 1; lia.
Qed.

Lemma run_waits_timeout (fuel : nat) :
  forall k attempt tr,
  Forall (waits_timeout timeout_ms) tr ->
  Forall (waits_timeout timeout_ms) (snd (run fuel k attempt tr)).
Proof.
  unfold run.
  induction fuel as [|fuel IH]; intros k attempt tr Htr;
    cbn [udp_invoke_loop]; cbv zeta; [exact Htr|].
  assert (forall e, waits_timeout timeout_ms e -> forall t, Forall (waits_timeout timeout_ms) t ->
                    Forall (waits_timeout timeout_ms) (t ++ [e])) as Hsnoc.
  { intros e He t Ht. apply Forall_app. split; [exact Ht|].
    constructor; [exact He|constructor]. }
  destruct (attempt <=? max_retries); [|apply Hsnoc; cbn; auto].
  destruct (load request 0 (to_int req_len)) as [d|]; [|exact Htr].
  destruct (sendto_result net k <? 0).
  { apply IH. repeat apply Hsnoc; cbn; auto. }
  destruct (select_result net k <? 0).
  { cbn [snd]. repeat apply Hsnoc; cbn; auto. }
  destruct (select_result net k =? 0).
  { apply IH. repeat apply Hsnoc; cbn; auto. }
  destruct (recvfrom_result net k) as [dd|].
  2:{ cbn [snd]. repeat apply Hsnoc; cbn; auto. }
  destruct (store response 0 _); cbn [snd]; repeat apply Hsnoc; cbn; auto.
Qed.

Lemma run_ends_at_recvfrom (fuel : nat) :
  forall k attempt tr,
  filter is_recvfrom tr = [] ->
  ends_at_recvfrom (snd (run fuel k attempt tr)).
Proof.
  unfold run.
  induction fuel as [|fuel IH]; intros k attempt tr Htr;
    cbn [udp_invoke_loop]; cbv zeta; [left; exact Htr|].
  assert (forall e t, is_recvfrom e = false -> filter is_recvfrom t = [] ->
                      filter is_recvfrom (t ++ [e]) = []) as Hsnoc.
  { intros e t He Ht. rewrite filter_app, Ht. cbn [filter app]. rewrite He.
    reflexivity. }
  destruct (attempt <=? max_retries); [|left; cbn [snd]; apply Hsnoc; auto].
  destruct (load request 0 (to_int req_len)) as [d|]; [|left; exact Htr].
  destruct (sendto_result net k <? 0).
  { apply IH. repeat apply Hsnoc; auto. }
  destruct (select_result net k <? 0).
  { left. cbn [snd]. repeat apply Hsnoc; auto. }
  destruct (select_result net k =? 0).
  { apply IH. repeat apply Hsnoc; auto. }
  destruct (recvfrom_result net k) as [dd|].
  2:{ right. cbn [snd]. eexists. exists (to_int resp_max). split.
      2:{ right. rewrite <- app_assoc. reflexivity. }
      repeat apply Hsnoc; auto. }
  destruct (store response 0 _); right; cbn [snd]; eexists;
    exists (to_int resp_max); (split; [|left; reflexivity]);
    repeat apply Hsnoc; auto.
Qed.

Hypothesis request_valid : 0 <= req_len <= len request.
Hypothesis req_len_int : req_len <= INT_MAX.

Lemma run_load : load request 0 (to_int req_len) = Ret datagram.
Proof. apply load_request; assumption. Qed.

(** [n] attempts that time out. *)
Lemma run_timeouts (n : nat) :
  forall fuel k attempt tr,
  (forall j, (k <= j < k + n)%nat ->
             0 <= sendto_result net j /\ select_result net j = 0) ->
  INT_MIN <= attempt -> attempt + Z.of_nat n <= max_retries + 1 ->
  max_retries < INT_MAX ->
  run (n + fuel) k attempt tr =
  run fuel (k + n) (attempt + Z.of_nat n)
    (tr ++ timeout_trace datagram timeout_ms (max_retries + 1) n attempt).
Proof.
  unfold run.
  induction n as [|n IH]; intros fuel k attempt tr Hnet Hmin Hle Hmax.
  - cbn [Nat.add timeout_trace]. rewrite Nat.add_0_r, Z.add_0_r, app_nil_r.
    reflexivity.
  - cbn [Nat.add udp_invoke_loop timeout_trace]. cbv zeta.
    destruct (Z.leb_spec attempt max_retries); [|lia].
    rewrite run_load.
    rewrite (to_int_small (attempt + 1))
      by (unfold INT_MIN, INT_MAX in *; lia).
    rewrite (to_int_small (max_retries + 1))
      by (unfold INT_MIN, INT_MAX in *; lia).
    destruct (Hnet k ltac:(lia)) as (Hs & Hsel).
    destruct (Z.ltb_spec (sendto_result net k) 0); [lia|].
    rewrite Hsel. cbn [Z.ltb Z.eqb Z.compare].
    rewrite IH; try lia.
    + f_equal; [lia|lia|]. rewrite <- !app_assoc. reflexivity.
    + intros j Hj. apply Hnet. lia.
Qed.

(** [n] attempts in which [sendto] fails. *)
Lemma run_send_failures (n : nat) :
  forall fuel k attempt tr,
  (forall j, (k <= j < k + n)%nat -> sendto_result net j < 0) ->
  INT_MIN <= attempt -> attempt + Z.of_nat n <= max_retries + 1 ->
  max_retries < INT_MAX ->
  run (n + fuel) k attempt tr =
  run fuel (k + n) (attempt + Z.of_nat n)
    (tr ++ send_failure_trace datagram n).
Proof.
  unfold run.
  induction n as [|n IH]; intros fuel k attempt tr Hnet Hmin Hle Hmax.
  - cbn [Nat.add send_failure_trace].
    rewrite Nat.add_0_r, Z.add_0_r, app_nil_r. reflexivity.
  - cbn [Nat.add udp_invoke_loop send_failure_trace]. cbv zeta.
    destruct (Z.leb_spec attempt max_retries); [|lia].
    rewrite run_load.
    rewrite (to_int_small (attempt + 1))
      by (unfold INT_MIN, INT_MAX in *; lia).
    pose proof (Hnet k ltac:(lia)) as Hs.
    destruct (Z.ltb_spec (sendto_result net k) 0); [|lia].
    rewrite IH; try lia.
    + f_equal; [lia|lia|]. rewrite <- !app_assoc. reflexivity.
    + intros j Hj. apply Hnet. lia.
Qed.

(** A hard error in iteration [k], after [k] iterations without a reply. *)
Lemma run_hard_error (k fuel : nat) :
  (forall j, (j < k)%nat -> no_reply net j) ->
  Z.of_nat k <= max_retries -> max_retries <= INT_MAX ->
  0 <= sendto_result net k ->
  select_result net k < 0 \/
  (0 < select_result net k /\ recvfrom_result net k = None) ->
  exists tr,
    run (k + S fuel) 0%nat 0 [] = (Returned (-1, response), tr) /\
    sent_datagrams tr = repeat datagram (S k).
Proof.
  intros Hno Hk Hmax Hsend Herr.
  destruct (loop_skip net request response req_len resp_max timeout_ms
              max_retries request_valid req_len_int k (S fuel) 0 0 [])
    as (tr & Heq & Hsent); try (unfold INT_MIN; lia).
  { intros j Hj. apply Hno. lia. }
  unfold run. rewrite Heq. cbn [udp_invoke_loop]. cbv zeta.
  destruct (Z.leb_spec (0 + Z.of_nat k) max_retries); [|lia].
  rewrite run_load. cbn [Nat.add] in *.
  destruct (Z.ltb_spec (sendto_result net k) 0); [lia|].
  destruct Herr as [Hsel | (Hsel & Hrecv)].
  - destruct (Z.ltb_spec (select_result net k) 0); [|lia].
    eexists. split; [reflexivity|].
    sent_simpl. rewrite Hsent. cbn [app]. apply repeat_snoc.
  - destruct (Z.ltb_spec (select_result net k) 0); [lia|].
    destruct (Z.eqb_spec (select_result net k) 0); [lia|].
    rewrite Hrecv.
    eexists. split; [reflexivity|].
    sent_simpl. rewrite Hsent. cbn [app]. apply repeat_snoc.
Qed.

End Engine.

(** X11.  For every network and every budget below [INT_MAX],
    [udp_invoke] never hands more than [max_retries + 1] datagrams to
    [sendto]; with a negative budget it sends nothing and returns [-1] at
    once. *)
Theorem sends_bounded (fuel : nat) (net : transport)
    (request response : buffer) (req_len resp_max timeout_ms max_retries : Z) :
  max_retries < INT_MAX ->
  len (sent_datagrams
         (snd (udp_invoke fuel net request req_len response resp_max
                 timeout_ms max_retries)))
    <= Z.max 0 (max_retries + 1) /\
  (max_retries < 0 ->
   udp_invoke (S fuel) net request req_len response resp_max timeout_ms
     max_retries =
   (Returned (-1, response),
    [EvStderr (MsgFailedAfter (to_int (max_retries + 1)))])).
Proof.
  intros Hmax. split.
  - pose proof (run_send_bound net request response req_len resp_max
                  timeout_ms max_retries fuel Hmax 0%nat 0 [] ltac:(lia)) as H.
    unfold udp_invoke. cbn [sent_datagrams] in H.
    change (len (@nil (list byte))) with 0 in H. lia.
  - intros Hneg. unfold udp_invoke. cbn [udp_invoke_loop].
    destruct (Z.leb_spec 0 max_retries); [lia|reflexivity].
Qed.

(** X12.  A reply in attempt [k], after [k] attempts without one, ends
    the call with success: the result is the number of bytes received (the
    datagram cut to [resp_max]), they are at the start of the response
    array and the rest of the array is as before; the request was sent
    [k + 1] times and [recvfrom] is the last thing done. *)
Theorem invoke_receives (fuel : nat) (net : transport)
    (request response : buffer) (req_len resp_max timeout_ms max_retries : Z)
    (k : nat) (d : list byte) :
  0 <= req_len <= len request -> req_len <= INT_MAX ->
  0 <= resp_max <= len response -> resp_max <= INT_MAX ->
  (forall j, (j < k)%nat -> no_reply net j) ->
  Z.of_nat k <= max_retries -> max_retries <= INT_MAX ->
  0 <= sendto_result net k -> 0 < select_result net k ->
  recvfrom_result net k = Some d ->
  (k < fuel)%nat ->
  exists tr,
    udp_invoke fuel net request req_len response resp_max timeout_ms
      max_retries =
      (Returned (Z.min (len d) resp_max,
                 firstn (Z.to_nat resp_max) d
                 ++ skipn (Z.to_nat (Z.min (len d) resp_max)) response),
       tr ++ [EvRecvfrom resp_max]) /\
    sent_datagrams tr = repeat (firstn (Z.to_nat req_len) request) (S k).
Proof.
  intros Hreq Hint Hresp Hrint Hno Hk Hmax Hsend Hsel Hrecv Hfuel.
  assert (to_int resp_max = resp_max) as Hrm
    by (apply to_int_small; unfold INT_MIN, INT_MAX in *; lia).
  assert (to_int req_len = req_len) as Hrl
    by (apply to_int_small; unfold INT_MIN, INT_MAX in *; lia).
  set (d' := firstn (Z.to_nat resp_max) d).
  assert (len d' = Z.min (len d) resp_max) as Hd'.
  { unfold d', len. rewrite length_firstn. lia. }
  destruct (bounds_split response 0 (len d') ltac:(lia) (len_nonneg d')
              ltac:(lia)) as (pre & mid & post & Hsplit & Hpre & Hmid).
  destruct pre; [|rewrite len_cons in Hpre; pose proof (len_nonneg pre); lia].
  rewrite app_nil_l in Hsplit.
  assert (store response 0 d' = Ret (d' ++ post)) as Hst.
  { rewrite Hsplit. apply (store_split [] mid post d' 0); auto. }
  assert (skipn (Z.to_nat (Z.min (len d) resp_max)) response = post) as Hpost.
  { rewrite <- Hd', Hsplit.
    replace (Z.to_nat (len d')) with (List.length mid)
      by (unfold len in *; lia).
    rewrite skipn_app, skipn_all, Nat.sub_diag. reflexivity. }
  replace fuel with (k + S (fuel - k - 1))%nat by lia.
  destruct (loop_receive net request response req_len resp_max timeout_ms
              max_retries Hreq Hint k (fuel - k - 1)%nat d (d' ++ post)
              Hno Hk Hmax Hsend Hsel Hrecv
              ltac:(rewrite Hrm; exact Hst)) as (tr & Hrun & Hsent).
  exists tr. unfold udp_invoke. rewrite Hrun, Hrm, Hrl in *.
  fold d'. rewrite Hd', Hpost. auto.
Qed.

(** X13.  A hard error is never retried: when [select] fails, or
    [recvfrom] fails after [select] reported data, in attempt [k],
    [udp_invoke] returns [-1] at once with the response array untouched,
    having sent the request [k + 1] times, however many retries are
    left. *)
Theorem invoke_hard_error (fuel : nat) (net : transport)
    (request response : buffer) (req_len resp_max timeout_ms max_retries : Z)
    (k : nat) :
  0 <= req_len <= len request -> req_len <= INT_MAX ->
  (forall j, (j < k)%nat -> no_reply net j) ->
  Z.of_nat k <= max_retries -> max_retries <= INT_MAX ->
  0 <= sendto_result net k ->
  select_result net k < 0 \/
  (0 < select_result net k /\ recvfrom_result net k = None) ->
  (k < fuel)%nat ->
  exists tr,
    udp_invoke fuel net request req_len response resp_max timeout_ms
      max_retries = (Returned (-1, response), tr) /\
    len (sent_datagrams tr) = Z.of_nat k + 1.
Proof.
  intros Hreq Hint Hno Hk Hmax Hsend Herr Hfuel.
  replace fuel with (k + S (fuel - k - 1))%nat by lia.
  destruct (run_hard_error net request response req_len resp_max timeout_ms
              max_retries Hreq Hint k (fuel - k - 1)%nat Hno Hk Hmax Hsend
              Herr) as (tr & Hrun & Hsent).
  exists tr. split; [exact Hrun|].
  rewrite Hsent. unfold len. rewrite repeat_length. lia.
Qed.

(** X14.  A failing [sendto] counts as an attempt and is retried without
    waiting: when every [sendto] fails, [udp_invoke] with budget
    [0 <= r < INT_MAX] calls [sendto] [r + 1] times, each followed by its
    diagnostic and nothing else ([select] is never called), then reports
    the failure and returns [-1]. *)
Theorem invoke_send_failures (fuel : nat) (net : transport)
    (request response : buffer) (req_len resp_max timeout_ms r : Z) :
  0 <= req_len <= len request -> req_len <= INT_MAX ->
  (forall j, sendto_result net j < 0) ->
  0 <= r < INT_MAX -> (Z.to_nat r + 1 < fuel)%nat ->
  udp_invoke fuel net request req_len response resp_max timeout_ms r =
  (Returned (-1, response),
   send_failure_trace (firstn (Z.to_nat req_len) request) (Z.to_nat (r + 1))
   ++ [EvStderr (MsgFailedAfter (r + 1))]).
Proof.
  intros Hreq Hint Hnet Hr Hfuel.
  assert (to_int req_len = req_len) as Hrl
    by (apply to_int_small; unfold INT_MIN, INT_MAX in *; lia).
  unfold udp_invoke.
  replace fuel with (Z.to_nat (r + 1) + (fuel - Z.to_nat (r + 1)))%nat by lia.
  rewrite (run_send_failures net request response req_len resp_max
             timeout_ms r Hreq Hint);
    try (unfold INT_MIN, INT_MAX in *; lia); [|intros j _; apply Hnet].
  destruct (fuel - Z.to_nat (r + 1))%nat as [|fuel'] eqn:Ef; [lia|].
  rewrite loop_exit by lia.
  rewrite (to_int_small (r + 1)) by (unfold INT_MIN, INT_MAX in *; lia).
  rewrite Hrl. reflexivity.
Qed.

(** X15.  On a network that never answers, budget [0 <= r < INT_MAX]: the
    whole run is [r + 1] times "send, wait, print the progress line", the
    lines numbered [1/(r+1)] to [(r+1)/(r+1)], then "Failed after r+1
    retries"; the result is [-1]. *)
Theorem invoke_silent_trace (fuel : nat) (net : transport)
    (request response : buffer) (req_len resp_max timeout_ms r : Z) :
  0 <= req_len <= len request -> req_len <= INT_MAX ->
  always_times_out net ->
  0 <= r < INT_MAX -> (Z.to_nat r + 1 < fuel)%nat ->
  udp_invoke fuel net request req_len response resp_max timeout_ms r =
  (Returned (-1, response),
   timeout_trace (firstn (Z.to_nat req_len) request) timeout_ms (r + 1)
     (Z.to_nat (r + 1)) 0
   ++ [EvStderr (MsgFailedAfter (r + 1))]).
Proof.
  intros Hreq Hint Hnet Hr Hfuel.
  assert (to_int req_len = req_len) as Hrl
    by (apply to_int_small; unfold INT_MIN, INT_MAX in *; lia).
  unfold udp_invoke.
  replace fuel with (Z.to_nat (r + 1) + (fuel - Z.to_nat (r + 1)))%nat by lia.
  rewrite (run_timeouts net request response req_len resp_max
             timeout_ms r Hreq Hint);
    try (unfold INT_MIN, INT_MAX in *; lia); [|intros j _; apply Hnet].
  destruct (fuel - Z.to_nat (r + 1))%nat as [|fuel'] eqn:Ef; [lia|].
  rewrite loop_exit by lia.
  rewrite (to_int_small (r + 1)) by (unfold INT_MIN, INT_MAX in *; lia).
  rewrite Hrl. reflexivity.
Qed.

(** X16.  Every [select] of a call waits the configured timeout: its
    [timeval] is [timeout_ms / 1000] seconds and [(timeout_ms % 1000) *
    1000] microseconds, which for a timeout that is not negative is a
    normalised [timeval] (microseconds below one million) worth exactly
    [timeout_ms] milliseconds. *)
Theorem select_waits_timeout (fuel : nat) (net : transport)
    (request response : buffer) (req_len resp_max timeout_ms max_retries : Z)
    (tv_sec tv_usec : Z) :
  In (EvSelect tv_sec tv_usec)
     (snd (udp_invoke fuel net request req_len response resp_max timeout_ms
             max_retries)) ->
  tv_sec = Z.quot timeout_ms 1000 /\
  tv_usec = Z.rem timeout_ms 1000 * 1000 /\
  tv_sec * 1000000 + tv_usec = timeout_ms * 1000 /\
  (0 <= timeout_ms -> 0 <= tv_sec /\ 0 <= tv_usec < 1000000).
Proof.
  intros Hin.
  pose proof (run_waits_timeout net request response req_len resp_max
                timeout_ms max_retries fuel 0%nat 0 [] (Forall_nil _)) as H.
  rewrite Forall_forall in H. apply H in Hin. cbn in Hin.
  destruct Hin as (-> & ->).
  pose proof (Z.quot_rem' timeout_ms 1000) as Hqr.
  split; [reflexivity|]. split; [reflexivity|]. split; [lia|].
  intros Hnn.
  pose proof (Z.quot_pos timeout_ms 1000 Hnn ltac:(lia)).
  pose proof (Z.rem_bound_pos timeout_ms 1000 Hnn ltac:(lia)). lia.
Qed.

(** X17.  A call receives at most once, and the receive ends it: in every
    trace of [udp_invoke] either there is no [recvfrom], or the one
    [recvfrom] is the last event but for the diagnostic of its failure.
    Nothing is sent or waited for after a reply. *)
Theorem nothing_after_recvfrom (fuel : nat) (net : transport)
    (request response : buffer) (req_len resp_max timeout_ms max_retries : Z) :
  ends_at_recvfrom
    (snd (udp_invoke fuel net request req_len response resp_max timeout_ms
            max_retries)).
Proof.
  unfold udp_invoke. apply run_ends_at_recvfrom. reflexivity.
Qed.

(* ================================================================= *)
(** * Responses *)

Lemma len_intervals_wire (l : list (Z * Z)) :
  len (intervals_wire l) = 16 * len l.
Proof.
  induction l as [|[s e] l IH]; [reflexivity|].
  cbn [intervals_wire]. rewrite !len_app, !len_be_bytes, IH, len_cons. lia.
Qed.

Lemma cmd_query_intervals_wire (l : list (Z * Z)) :
  forall pre post out,
  intervals_ok l ->
  len (pre ++ intervals_wire l ++ post) <= INT_MAX ->
  cmd_query_intervals (pre ++ intervals_wire l ++ post) (List.length l)
    (len pre) out = Ret (out ++ interval_lines l).
Proof.
  induction l as [|[s e] l IH]; intros pre post out Hok Hlen.
  - cbn [List.length cmd_query_intervals interval_lines map].
    rewrite app_nil_r. reflexivity.
  - inversion Hok as [|? ? (Hs & He) Hok']; subst. cbn [fst snd] in *.
    cbn [List.length cmd_query_intervals intervals_wire].
    cbn [intervals_wire] in Hlen.
    rewrite <- !app_assoc.
    rewrite !len_app, !len_be_bytes in Hlen.
    pose proof (len_nonneg pre). pose proof (len_nonneg post).
    pose proof (len_nonneg (intervals_wire l)).
    rewrite read_i64_of_wire by exact Hs. cbn [bind].
    rewrite to_int_small by (unfold INT_MIN, INT_MAX in *; lia).
    pose proof (read_i64_of_wire (pre ++ be_bytes 8 s)
                  (intervals_wire l ++ post) e He) as H2.
    rewrite len_app, len_be_bytes, <- app_assoc in H2.
    change (Z.of_nat 8) with 8 in H2. rewrite H2. cbn [bind].
    rewrite to_int_small by (unfold INT_MIN, INT_MAX in *; lia).
    pose proof (IH (pre ++ be_bytes 8 s ++ be_bytes 8 e) post
                  (out ++ [EvStdout (MsgInterval s e)]) Hok') as H3.
    rewrite !len_app, !len_be_bytes, <- !app_assoc in H3.
    replace (len pre + 8 + 8) with (len pre + (Z.of_nat 8 + Z.of_nat 8)) by lia.
    rewrite H3 by lia.
    unfold interval_lines. cbn [map fst snd]. reflexivity.
Qed.

Lemma callback_intervals_wire (l : list (Z * Z)) :
  forall pre post out,
  intervals_ok l ->
  len (pre ++ intervals_wire l ++ post) <= INT_MAX ->
  callback_intervals (pre ++ intervals_wire l ++ post) (List.length l)
    (len pre) out = Ret (out ++ interval_lines l).
Proof.
  induction l as [|[s e] l IH]; intros pre post out Hok Hlen.
  - cbn [List.length callback_intervals interval_lines map].
    rewrite app_nil_r. reflexivity.
  - inversion Hok as [|? ? (Hs & He) Hok']; subst. cbn [fst snd] in *.
    cbn [List.length callback_intervals intervals_wire].
    cbn [intervals_wire] in Hlen.
    rewrite <- !app_assoc.
    rewrite !len_app, !len_be_bytes in Hlen.
    pose proof (len_nonneg pre). pose proof (len_nonneg post).
    pose proof (len_nonneg (intervals_wire l)).
    rewrite read_i64_of_wire by exact Hs. cbn [bind].
    rewrite to_int_small by (unfold INT_MIN, INT_MAX in *; lia).
    pose proof (read_i64_of_wire (pre ++ be_bytes 8 s)
                  (intervals_wire l ++ post) e He) as H2.
    rewrite len_app, len_be_bytes, <- app_assoc in H2.
    change (Z.of_nat 8) with 8 in H2. rewrite H2. cbn [bind].
    rewrite to_int_small by (unfold INT_MIN, INT_MAX in *; lia).
    pose proof (IH (pre ++ be_bytes 8 s ++ be_bytes 8 e) post
                  (out ++ [EvStdout (MsgInterval s e)]) Hok') as H3.
    rewrite !len_app, !len_be_bytes, <- !app_assoc in H3.
    replace (len pre + 8 + 8) with (len pre + (Z.of_nat 8 + Z.of_nat 8)) by lia.
    rewrite H3 by lia.
    unfold interval_lines. cbn [map fst snd]. reflexivity.
Qed.

(** The reply part of [cmd_query] on a response that holds a count and
    that many intervals. *)
Lemma cmd_query_reply_wire (hdr : list byte) (l : list (Z * Z))
    (post : list byte) :
  len hdr = 16 -> len l <= 65535 -> intervals_ok l ->
  len (hdr ++ be_bytes 2 (len l) ++ intervals_wire l ++ post) <= INT_MAX ->
  cmd_query_reply (hdr ++ be_bytes 2 (len l) ++ intervals_wire l ++ post) =
  Ret (EvStdout (MsgAvailableIntervals (len l)) :: interval_lines l).
Proof.
  intros Hhdr Hn Hok Hlen. unfold cmd_query_reply, HEADER_LEN.
  pose proof (read_u16_of_wire hdr (intervals_wire l ++ post) (len l)) as Hc.
  rewrite Hhdr in Hc. rewrite Hc. cbn [bind].
  pose proof (len_nonneg l) as Hnn.
  unfold to_uint16. rewrite Z.mod_small by lia.
  rewrite to_int_small by (unfold INT_MIN, INT_MAX; lia).
  pose proof (cmd_query_intervals_wire l (hdr ++ be_bytes 2 (len l)) post
                [EvStdout (MsgAvailableIntervals (len l))] Hok) as H.
  replace (len (hdr ++ be_bytes 2 (len l))) with (16 + 2) in H
    by (rewrite len_app, len_be_bytes, Hhdr; reflexivity).
  rewrite <- app_assoc in H.
  replace (Z.to_nat (len l)) with (List.length l)
    by (unfold len; rewrite Nat2Z.id; reflexivity).
  apply H. exact Hlen.
Qed.

(** X18.  A query response decodes to what the server put in it: on a
    response array that holds, after the 16 bytes of the header, the
    count [n <= 65535] and [n] intervals, the reply part of [cmd_query]
    prints the count and the [n] intervals in order, negative bounds
    included. *)
Theorem query_reply_decodes (hdr : list byte) (l : list (Z * Z))
    (post : list byte) :
  len hdr = 16 -> len l <= 65535 -> intervals_ok l ->
  len (hdr ++ be_bytes 2 (len l) ++ intervals_wire l ++ post)
    = MAX_DGRAM_SIZE ->
  cmd_query_reply (hdr ++ be_bytes 2 (len l) ++ intervals_wire l ++ post) =
  Ret (EvStdout (MsgAvailableIntervals (len l)) :: interval_lines l).
Proof.
  intros Hhdr Hn Hok Hlen. apply cmd_query_reply_wire; auto.
  rewrite Hlen. unfold MAX_DGRAM_SIZE, INT_MAX. lia.
Qed.

Lemma cmd_query_intervals_overrun (resp_buf : buffer) (n : nat) :
  forall pos out,
  0 <= pos <= len resp_buf -> len resp_buf <= INT_MAX ->
  len resp_buf < pos + 16 * Z.of_nat n ->
  cmd_query_intervals resp_buf n pos out = Overrun.
Proof.
  induction n as [|n IH]; intros pos out Hpos Hlen Hshort; [lia|].
  cbn [cmd_query_intervals].
  rewrite read_i64_load, bind_assoc.
  destruct (load resp_buf pos 8) as [b1|] eqn:E1; cbn [bind]; [|reflexivity].
  apply load_bounds in E1.
  rewrite to_int_small by (unfold INT_MIN, INT_MAX in *; lia).
  rewrite read_i64_load, bind_assoc.
  destruct (load resp_buf (pos + 8) 8) as [b2|] eqn:E2; cbn [bind];
    [|reflexivity].
  apply load_bounds in E2.
  rewrite to_int_small by (unfold INT_MIN, INT_MAX in *; lia).
  apply IH; lia.
Qed.

(** X19.  The count of a query response is not compared with the size of
    anything: when the count read at offset 16 announces more intervals
    than the response array can hold after it ([18 + 16 * count] exceeds
    the length of the array; 4095 or more for [MAX_DGRAM_SIZE]), the reply
    part of [cmd_query] reads past the end of the array. *)
Theorem query_reply_overruns (resp_buf : buffer) (r count : Z) :
  len resp_buf <= INT_MAX ->
  read_u16 resp_buf 16 = Ret (r, count) ->
  len resp_buf < 18 + 16 * count ->
  cmd_query_reply resp_buf = Overrun.
Proof.
  intros Hlen Hcount Hshort. unfold cmd_query_reply, HEADER_LEN.
  rewrite Hcount. cbn [bind].
  rewrite read_u16_load in Hcount.
  destruct (load resp_buf 16 2) as [bs|] eqn:E; cbn [bind] in Hcount;
    [|discriminate].
  assert (r = 2 /\ count = be_value bs) as (-> & ->) by (split; congruence).
  pose proof (be_value_range bs) as Hr.
  apply load_bounds in E.
  rewrite to_int_small by (unfold INT_MIN, INT_MAX; lia).
  apply cmd_query_intervals_overrun; try lia.
Qed.


(* ================================================================= *)
(** * Commands, from the arguments to the printed lines *)

Lemma read_header_of_wire (h : Header) (post : list byte) :
  header_wf h -> read_header (header_wire h ++ post) 0 = Ret (HEADER_LEN, h).
Proof.
  intros Hwf. rewrite read_header_load.
  pose proof (load_split [] (header_wire h) post 0 16 eq_refl
                (len_header_wire h)) as H.
  rewrite app_nil_l in H. rewrite H. cbn [bind].
  rewrite header_of_wire_header_wire by exact Hwf. reflexivity.
Qed.

(** A request that fits the array: the array afterwards starts with the
    header and the payload. *)
Lemma built_request (builder : access (buffer * Z * Z)) (req_buf : buffer)
    (op g amo : Z) (payload : list byte) :
  builder =
    (b <- store req_buf 0
            (header_wire (request_header op g amo (len payload)) ++ payload) ;;
     Ret (b, HEADER_LEN + len payload, next_request_id g)) ->
  HEADER_LEN + len payload <= len req_buf ->
  exists b,
    builder = Ret (b, HEADER_LEN + len payload, next_request_id g) /\
    len b = len req_buf /\
    firstn (Z.to_nat (HEADER_LEN + len payload)) b =
      header_wire (request_header op g amo (len payload)) ++ payload.
Proof.
  intros -> Hroom.
  set (d := header_wire _ ++ payload).
  assert (len d = HEADER_LEN + len payload) as Hd
    by (unfold d; rewrite len_app, len_header_wire; reflexivity).
  destruct (store_front req_buf d ltac:(lia)) as (rest & Hst).
  rewrite Hst. cbn [bind]. exists (d ++ rest).
  split; [reflexivity|]. split.
  - apply (store_len _ _ _ _ Hst).
  - rewrite <- Hd. unfold len. rewrite Nat2Z.id, firstn_app, Nat.sub_diag.
    rewrite firstn_all. cbn [firstn]. apply app_nil_r.
Qed.

Section Exchange.

Variable net : transport.
Variables req_buf resp_buf : buffer.
Variables offset timeout_ms retries : Z.
Variable what : string.
Variable reply : buffer -> completion unit * list event.

Hypothesis offset_valid : 0 <= offset <= len req_buf.
Hypothesis offset_int : offset <= INT_MAX.
Hypothesis resp_size : len resp_buf = MAX_DGRAM_SIZE.

(** No answer at all: the command prints the progress lines, the two
    diagnostics and returns; [reply] is not run. *)
Lemma exchange_silent (fuel : nat) :
  always_times_out net -> 0 <= retries < INT_MAX ->
  (Z.to_nat retries + 1 < fuel)%nat ->
  exchange fuel net req_buf offset resp_buf timeout_ms retries what reply =
  (Returned tt,
   timeout_trace (firstn (Z.to_nat offset) req_buf) timeout_ms (retries + 1)
     (Z.to_nat (retries + 1)) 0
   ++ [EvStderr (MsgFailedAfter (retries + 1));
       EvStderr (MsgCommandFailed what)]).
Proof.
  intros Hnet Hr Hfuel.
  assert (to_int offset = offset) as Hrl
    by (apply to_int_small; unfold INT_MIN, INT_MAX in *; lia).
  unfold exchange, udp_invoke.
  replace fuel
    with (Z.to_nat (retries + 1) + (fuel - Z.to_nat (retries + 1)))%nat by lia.
  rewrite (run_timeouts net req_buf resp_buf offset MAX_DGRAM_SIZE
             timeout_ms retries offset_valid offset_int);
    try (unfold INT_MIN, INT_MAX in *; lia); [|intros j _; apply Hnet].
  destruct (fuel - Z.to_nat (retries + 1))%nat as [|fuel'] eqn:Ef; [lia|].
  rewrite loop_exit by lia.
  rewrite (to_int_small (retries + 1)) by (unfold INT_MIN, INT_MAX in *; lia).
  rewrite Hrl. cbn [Z.ltb Z.compare Z.opp]. cbn [app].
  rewrite <- !app_assoc. reflexivity.
Qed.

(** A reply without the error bit in attempt [k]: the command runs
    [reply] on the response array, which starts with the datagram. *)
Lemma exchange_receives (fuel k : nat) (d : list byte) (h : Header) :
  (forall j, (j < k)%nat -> no_reply net j) ->
  Z.of_nat k <= retries -> retries <= INT_MAX ->
  0 <= sendto_result net k -> 0 < select_result net k ->
  recvfrom_result net k = Some d -> len d <= MAX_DGRAM_SIZE ->
  read_header d 0 = Ret (HEADER_LEN, h) ->
  Z.land (opCode h) OP_ERROR_MASK = 0 ->
  (k < fuel)%nat ->
  exists tr rest,
    store resp_buf 0 d = Ret (d ++ rest) /\
    len (d ++ rest) = MAX_DGRAM_SIZE /\
    exchange fuel net req_buf offset resp_buf timeout_ms retries what reply =
      (fst (reply (d ++ rest)),
       tr ++ EvRecvfrom MAX_DGRAM_SIZE :: snd (reply (d ++ rest))) /\
    sent_datagrams tr = repeat (firstn (Z.to_nat offset) req_buf) (S k).
Proof.
  intros Hno Hk Hmax Hsend Hsel Hrecv Hd Hh Herr Hfuel.
  assert (to_int MAX_DGRAM_SIZE = MAX_DGRAM_SIZE) as Hm
    by (apply to_int_small; unfold INT_MIN, INT_MAX, MAX_DGRAM_SIZE; lia).
  assert (to_int offset = offset) as Hrl
    by (apply to_int_small; unfold INT_MIN, INT_MAX in *; lia).
  assert (firstn (Z.to_nat (to_int MAX_DGRAM_SIZE)) d = d) as Hd'.
  { apply firstn_all2. rewrite Hm. unfold len in *. lia. }
  destruct (store_front resp_buf d ltac:(lia)) as (rest & Hst).
  replace fuel with (k + S (fuel - k - 1))%nat by lia.
  destruct (loop_receive net req_buf resp_buf offset MAX_DGRAM_SIZE
              timeout_ms retries offset_valid offset_int
              k (fuel - k - 1)%nat d (d ++ rest) Hno Hk Hmax Hsend Hsel Hrecv
              ltac:(rewrite Hd'; exact Hst))
    as (tr & Hrun & Hsent).
  exists tr, rest. split; [exact Hst|]. split; [|split].
  - rewrite (store_len _ _ _ _ Hst). exact resp_size.
  - unfold exchange, udp_invoke. rewrite Hrun, Hd', Hm.
    destruct (Z.ltb_spec (len d) 0); [pose proof (len_nonneg d); lia|].
    unfold response_outcome. rewrite (read_header_prefix _ _ _ _ Hh).
    rewrite Herr. cbn [Z.eqb negb].
    destruct (reply (d ++ rest)) as [c out]. cbn [fst snd].
    rewrite <- app_assoc. reflexivity.
  - rewrite Hsent, Hrl. reflexivity.
Qed.

(** A reply with the error bit in attempt [k]: the command prints the
    one line and returns; [reply] is not run. *)
Lemma exchange_error (fuel k : nat) (d : list byte) (h : Header) :
  (forall j, (j < k)%nat -> no_reply net j) ->
  Z.of_nat k <= retries -> retries <= INT_MAX ->
  0 <= sendto_result net k -> 0 < select_result net k ->
  recvfrom_result net k = Some d -> len d <= MAX_DGRAM_SIZE ->
  read_header d 0 = Ret (HEADER_LEN, h) ->
  Z.land (opCode h) OP_ERROR_MASK <> 0 ->
  (k < fuel)%nat ->
  exists tr,
    exchange fuel net req_buf offset resp_buf timeout_ms retries what reply =
      (Returned tt,
       tr ++ [EvRecvfrom MAX_DGRAM_SIZE; EvStderr MsgServerError]) /\
    sent_datagrams tr = repeat (firstn (Z.to_nat offset) req_buf) (S k).
Proof.
  intros Hno Hk Hmax Hsend Hsel Hrecv Hd Hh Herr Hfuel.
  assert (to_int MAX_DGRAM_SIZE = MAX_DGRAM_SIZE) as Hm
    by (apply to_int_small; unfold INT_MIN, INT_MAX, MAX_DGRAM_SIZE; lia).
  assert (to_int offset = offset) as Hrl
    by (apply to_int_small; unfold INT_MIN, INT_MAX in *; lia).
  assert (firstn (Z.to_nat (to_int MAX_DGRAM_SIZE)) d = d) as Hd'.
  { apply firstn_all2. rewrite Hm. unfold len in *. lia. }
  destruct (store_front resp_buf d ltac:(lia)) as (rest & Hst).
  replace fuel with (k + S (fuel - k - 1))%nat by lia.
  destruct (loop_receive net req_buf resp_buf offset MAX_DGRAM_SIZE
              timeout_ms retries offset_valid offset_int
              k (fuel - k - 1)%nat d (d ++ rest) Hno Hk Hmax Hsend Hsel Hrecv
              ltac:(rewrite Hd'; exact Hst))
    as (tr & Hrun & Hsent).
  exists tr. split.
  - unfold exchange, udp_invoke. rewrite Hrun, Hd', Hm.
    destruct (Z.ltb_spec (len d) 0); [pose proof (len_nonneg d); lia|].
    unfold response_outcome. rewrite (read_header_prefix _ _ _ _ Hh).
    destruct (Z.eqb_spec (Z.land (opCode h) OP_ERROR_MASK) 0);
      [contradiction|].
    cbn [negb]. rewrite <- app_assoc. reflexivity.
  - rewrite Hsent, Hrl. reflexivity.
Qed.

End Exchange.

(** C5 as the code has it.  When the reply to a command arrives in
    attempt [k] and its header has the error bit set, the command prints
    the one line "Server error response" and returns, whatever the payload
    of the reply is and whichever of the six commands it is: the error
    kind is not read, so kind 1 is not told from any other.  The request
    was sent once per attempt up to the reply and is not sent again after
    it; [cmd_monitor] does not go on to listen. *)
Theorem error_response_is_generic (fuel : nat) (net : transport) (g : Z)
    (req_buf resp_buf : buffer) (timeout_ms retries amo : Z) (k : nat)
    (d : list byte) (h : Header) :
  len req_buf = MAX_DGRAM_SIZE -> len resp_buf = MAX_DGRAM_SIZE ->
  (forall j, (j < k)%nat -> no_reply net j) ->
  Z.of_nat k <= retries -> retries <= INT_MAX ->
  0 <= sendto_result net k -> 0 < select_result net k ->
  recvfrom_result net k = Some d -> len d <= MAX_DGRAM_SIZE ->
  read_header d 0 = Ret (HEADER_LEN, h) ->
  Z.land (opCode h) OP_ERROR_MASK <> 0 ->
  (k < fuel)%nat ->
  let generic (run : completion unit * list event) :=
    exists tr,
      run = (Returned tt,
             tr ++ [EvRecvfrom MAX_DGRAM_SIZE; EvStderr MsgServerError]) /\
      len (sent_datagrams tr) = Z.of_nat k + 1 in
  (forall facility date_str l,
     strlen facility = Ret l ->
     HEADER_LEN + len (query_payload facility) <= MAX_DGRAM_SIZE ->
     generic (cmd_query fuel net g req_buf resp_buf facility date_str
                timeout_ms retries amo)) /\
  (forall facility user start_ms end_ms l1 l2,
     strlen facility = Ret l1 -> strlen user = Ret l2 ->
     HEADER_LEN + len (book_payload facility user start_ms end_ms)
       <= MAX_DGRAM_SIZE ->
     generic (cmd_book fuel net g req_buf resp_buf facility user start_ms
                end_ms timeout_ms retries amo)) /\
  (forall booking_id offset_minutes,
     generic (cmd_change fuel net g req_buf resp_buf booking_id
                offset_minutes timeout_ms retries amo)) /\
  (forall cb callback_buf facility duration_seconds callback_port l,
     strlen facility = Ret l ->
     HEADER_LEN + len (monitor_payload facility duration_seconds callback_port)
       <= MAX_DGRAM_SIZE ->
     generic (cmd_monitor fuel net cb g req_buf resp_buf callback_buf facility
                duration_seconds callback_port timeout_ms retries amo)) /\
  (forall facility day_start day_end l,
     strlen facility = Ret l ->
     HEADER_LEN + len (reset_payload facility day_start day_end)
       <= MAX_DGRAM_SIZE ->
     generic (cmd_reset fuel net g req_buf resp_buf facility day_start day_end
                timeout_ms retries amo)) /\
  (forall facility l,
     strlen facility = Ret l ->
     HEADER_LEN + len (custom_incr_payload facility) <= MAX_DGRAM_SIZE ->
     generic (cmd_custom_incr fuel net g req_buf resp_buf facility timeout_ms
                retries amo)).
Proof.
  intros Hreq Hresp Hno Hk Hmax Hsend Hsel Hrecv Hd Hh Herr Hfuel generic.
  subst generic. cbv beta.
  assert (forall builder op payload what reply,
    builder =
      (b <- store req_buf 0
              (header_wire (request_header op g amo (len payload))
               ++ payload) ;;
       Ret (b, HEADER_LEN + len payload, next_request_id g)) ->
    HEADER_LEN + len payload <= MAX_DGRAM_SIZE ->
    exists tr,
      match builder with
      | Overrun => (Fault, [])
      | Ret (b, offset, _) =>
          exchange fuel net b offset resp_buf timeout_ms retries what reply
      end =
      (Returned tt,
       tr ++ [EvRecvfrom MAX_DGRAM_SIZE; EvStderr MsgServerError]) /\
      len (sent_datagrams tr) = Z.of_nat k + 1) as Hall.
  { intros builder op payload what reply Hstore Hfit.
    destruct (built_request builder req_buf op g amo payload Hstore
                ltac:(rewrite Hreq; exact Hfit)) as (b & Hb & Hlb & Hfirst).
    rewrite Hb. pose proof (len_nonneg payload) as Hpl.
    destruct (exchange_error net b resp_buf (HEADER_LEN + len payload)
                timeout_ms retries what reply
                ltac:(unfold HEADER_LEN in *; lia)
                ltac:(unfold HEADER_LEN, MAX_DGRAM_SIZE, INT_MAX in *; lia)
                Hresp fuel k d h Hno Hk Hmax Hsend Hsel Hrecv Hd Hh Herr Hfuel)
      as (tr & Hrun & Hsent).
    exists tr. split; [exact Hrun|].
    rewrite Hsent. unfold len. rewrite repeat_length. lia. }
  split; [|split; [|split; [|split; [|split]]]].
  - intros facility date_str l Hl Hfit. unfold cmd_query.
    eapply Hall; [apply (cmd_query_request_store _ _ _ _ _ Hl)|exact Hfit].
  - intros facility user start_ms end_ms l1 l2 Hl1 Hl2 Hfit. unfold cmd_book.
    eapply Hall;
      [apply (cmd_book_request_store _ _ _ _ _ _ _ _ _ Hl1 Hl2)|exact Hfit].
  - intros booking_id offset_minutes. unfold cmd_change.
    eapply Hall; [apply cmd_change_request_store|].
    unfold change_payload, HEADER_LEN, MAX_DGRAM_SIZE.
    rewrite len_app, !len_be_bytes. lia.
  - intros cb callback_buf facility duration_seconds callback_port l Hl Hfit.
    unfold cmd_monitor.
    eapply Hall; [apply (cmd_monitor_request_store _ _ _ _ _ _ _ Hl)|exact Hfit].
  - intros facility day_start day_end l Hl Hfit. unfold cmd_reset.
    eapply Hall; [apply (cmd_reset_request_store _ _ _ _ _ _ _ Hl)|exact Hfit].
  - intros facility l Hl Hfit. unfold cmd_custom_incr.
    eapply Hall;
      [apply (cmd_custom_incr_request_store _ _ _ _ _ Hl)|exact Hfit].
Qed.

(** X21.  A query from the arguments to the printed lines.  When the
    reply arrives in attempt [k] and its header has no error bit,
    [cmd_query] prints the count and the intervals of the reply.  The
    header of the reply is otherwise not looked at: its request id is not
    compared with the one sent, nor its operation code with [OP_QUERY_AVAIL].
    The [k + 1] datagrams sent are the same request, whose payload is the
    facility and the fixed day 2025-10-10: the date argument is not used. *)
Theorem query_end_to_end (fuel : nat) (net : transport) (g : Z)
    (req_buf resp_buf facility date_str : list byte)
    (timeout_ms retries amo : Z) (k : nat) (h : Header) (l : list (Z * Z))
    (lf : Z) :
  len req_buf = MAX_DGRAM_SIZE -> len resp_buf = MAX_DGRAM_SIZE ->
  strlen facility = Ret lf ->
  HEADER_LEN + len (query_payload facility) <= MAX_DGRAM_SIZE ->
  (forall j, (j < k)%nat -> no_reply net j) ->
  Z.of_nat k <= retries -> retries <= INT_MAX ->
  0 <= sendto_result net k -> 0 < select_result net k ->
  recvfrom_result net k =
    Some (header_wire h ++ be_bytes 2 (len l) ++ intervals_wire l) ->
  header_wf h -> Z.land (opCode h) OP_ERROR_MASK = 0 ->
  len l <= 4094 -> intervals_ok l ->
  (k < fuel)%nat ->
  exists tr,
    cmd_query fuel net g req_buf resp_buf facility date_str timeout_ms
      retries amo =
      (Returned tt,
       tr ++ EvRecvfrom MAX_DGRAM_SIZE
          :: EvStdout (MsgAvailableIntervals (len l)) :: interval_lines l) /\
    sent_datagrams tr =
      repeat (header_wire (request_header OP_QUERY_AVAIL g amo
                             (len (query_payload facility)))
              ++ query_payload facility) (S k).
Proof.
  intros Hreq Hresp Hl Hfit Hno Hk Hmax Hsend Hsel Hrecv Hwf Herr Hn Hok
    Hfuel.
  unfold cmd_query.
  destruct (built_request _ req_buf _ g amo _
              (cmd_query_request_store g req_buf facility amo lf Hl)
              ltac:(rewrite Hreq; exact Hfit)) as (b & Hb & Hlb & Hfirst).
  rewrite Hb.
  pose proof (len_nonneg (query_payload facility)) as Hpl.
  set (d := header_wire h ++ be_bytes 2 (len l) ++ intervals_wire l) in *.
  assert (len d = 18 + 16 * len l) as Hd.
  { unfold d. rewrite !len_app, len_header_wire, len_be_bytes,
      len_intervals_wire. lia. }
  destruct (exchange_receives net b resp_buf
              (HEADER_LEN + len (query_payload facility)) timeout_ms retries
              "Query failed"
              (fun resp_buf => printed (cmd_query_reply resp_buf))
              ltac:(unfold HEADER_LEN in *; lia)
              ltac:(unfold HEADER_LEN, MAX_DGRAM_SIZE, INT_MAX in *; lia)
              Hresp fuel k d h Hno Hk Hmax Hsend Hsel Hrecv
              ltac:(unfold MAX_DGRAM_SIZE; lia)
              (read_header_of_wire h _ Hwf) Herr Hfuel)
    as (tr & rest & _ & Hlen & Hrun & Hsent).
  exists tr. rewrite Hrun, Hsent, Hfirst. split; [|reflexivity].
  unfold d in *. rewrite <- !app_assoc in *.
  rewrite (cmd_query_reply_wire (header_wire h) l rest (len_header_wire h)
             ltac:(lia) Hok
             ltac:(rewrite Hlen; unfold MAX_DGRAM_SIZE, INT_MAX; lia)).
  reflexivity.
Qed.

(** X22.  The six commands when the server never answers, retry budget
    [0 <= r < INT_MAX]: each sends its own request [r + 1] times, waiting
    and printing the progress line after each, then prints "Failed after
    r+1 retries" and its own failure line, and returns; nothing is read
    from the response array, and [cmd_monitor] does not open the callback
    socket. *)
Theorem commands_on_silent_network (fuel : nat) (net : transport) (g : Z)
    (req_buf resp_buf : buffer) (timeout_ms r amo : Z) :
  len req_buf = MAX_DGRAM_SIZE -> len resp_buf = MAX_DGRAM_SIZE ->
  always_times_out net -> 0 <= r < INT_MAX ->
  (Z.to_nat r + 1 < fuel)%nat ->
  let silent op payload what :=
    (Returned tt,
     timeout_trace
       (header_wire (request_header op g amo (len payload)) ++ payload)
       timeout_ms (r + 1) (Z.to_nat (r + 1)) 0
     ++ [EvStderr (MsgFailedAfter (r + 1));
         EvStderr (MsgCommandFailed what)]) in
  (forall facility date_str l,
     strlen facility = Ret l ->
     HEADER_LEN + len (query_payload facility) <= MAX_DGRAM_SIZE ->
     cmd_query fuel net g req_buf resp_buf facility date_str timeout_ms r amo
     = silent OP_QUERY_AVAIL (query_payload facility) "Query failed"%string) /\
  (forall facility user start_ms end_ms l1 l2,
     strlen facility = Ret l1 -> strlen user = Ret l2 ->
     HEADER_LEN + len (book_payload facility user start_ms end_ms)
       <= MAX_DGRAM_SIZE ->
     cmd_book fuel net g req_buf resp_buf facility user start_ms end_ms
       timeout_ms r amo
     = silent OP_BOOK (book_payload facility user start_ms end_ms)
         "Book failed"%string) /\
  (forall booking_id offset_minutes,
     cmd_change fuel net g req_buf resp_buf booking_id offset_minutes
       timeout_ms r amo
     = silent OP_CHANGE_BOOKING (change_payload booking_id offset_minutes)
         "Change booking failed"%string) /\
  (forall cb callback_buf facility duration_seconds callback_port l,
     strlen facility = Ret l ->
     HEADER_LEN + len (monitor_payload facility duration_seconds callback_port)
       <= MAX_DGRAM_SIZE ->
     cmd_monitor fuel net cb g req_buf resp_buf callback_buf facility
       duration_seconds callback_port timeout_ms r amo
     = silent OP_MONITOR
         (monitor_payload facility duration_seconds callback_port)
         "Monitor registration failed"%string) /\
  (forall facility day_start day_end l,
     strlen facility = Ret l ->
     HEADER_LEN + len (reset_payload facility day_start day_end)
       <= MAX_DGRAM_SIZE ->
     cmd_reset fuel net g req_buf resp_buf facility day_start day_end
       timeout_ms r amo
     = silent OP_CUSTOM_IDEMPOTENT (reset_payload facility day_start day_end)
         "Schedule reset failed"%string) /\
  (forall facility l,
     strlen facility = Ret l ->
     HEADER_LEN + len (custom_incr_payload facility) <= MAX_DGRAM_SIZE ->
     cmd_custom_incr fuel net g req_buf resp_buf facility timeout_ms r amo
     = silent OP_CUSTOM_NON_IDEMPOTENT (custom_incr_payload facility)
         "Usage counter increment failed"%string).
Proof.
  intros Hreq Hresp Hnet Hr Hfuel silent. subst silent. cbv beta.
  assert (forall builder op payload what reply,
    builder =
      (b <- store req_buf 0
              (header_wire (request_header op g amo (len payload))
               ++ payload) ;;
       Ret (b, HEADER_LEN + len payload, next_request_id g)) ->
    HEADER_LEN + len payload <= MAX_DGRAM_SIZE ->
    match builder with
    | Overrun => (Fault, [])
    | Ret (b, offset, _) =>
        exchange fuel net b offset resp_buf timeout_ms r what reply
    end =
    (Returned tt,
     timeout_trace
       (header_wire (request_header op g amo (len payload)) ++ payload)
       timeout_ms (r + 1) (Z.to_nat (r + 1)) 0
     ++ [EvStderr (MsgFailedAfter (r + 1));
         EvStderr (MsgCommandFailed what)])) as Hall.
  { intros builder op payload what reply Hstore Hfit.
    destruct (built_request builder req_buf op g amo payload Hstore
                ltac:(rewrite Hreq; exact Hfit)) as (b & Hb & Hlb & Hfirst).
    rewrite Hb. pose proof (len_nonneg payload) as Hpl.
    rewrite exchange_silent; auto;
      try (unfold HEADER_LEN, MAX_DGRAM_SIZE, INT_MAX in *; lia).
    rewrite Hfirst. reflexivity. }
  split; [|split; [|split; [|split; [|split]]]].
  - intros facility date_str l Hl Hfit. unfold cmd_query.
    apply Hall; [apply (cmd_query_request_store _ _ _ _ _ Hl)|exact Hfit].
  - intros facility user start_ms end_ms l1 l2 Hl1 Hl2 Hfit. unfold cmd_book.
    apply Hall;
      [apply (cmd_book_request_store _ _ _ _ _ _ _ _ _ Hl1 Hl2)|exact Hfit].
  - intros booking_id offset_minutes. unfold cmd_change.
    apply Hall; [apply cmd_change_request_store|].
    unfold change_payload, HEADER_LEN, MAX_DGRAM_SIZE.
    rewrite len_app, !len_be_bytes. lia.
  - intros cb callback_buf facility duration_seconds callback_port l Hl Hfit.
    unfold cmd_monitor.
    apply Hall; [apply (cmd_monitor_request_store _ _ _ _ _ _ _ Hl)|exact Hfit].
  - intros facility day_start day_end l Hl Hfit. unfold cmd_reset.
    apply Hall; [apply (cmd_reset_request_store _ _ _ _ _ _ _ Hl)|exact Hfit].
  - intros facility l Hl Hfit. unfold cmd_custom_incr.
    apply Hall;
      [apply (cmd_custom_incr_request_store _ _ _ _ _ Hl)|exact Hfit].
Qed.

(* ================================================================= *)
(** * The notification listener *)

Lemma callback_message_wire (h : Header) (l : list (Z * Z))
    (post : list byte) :
  header_wf h -> len l <= 65535 -> intervals_ok l ->
  len (header_wire h ++ be_bytes 2 (len l) ++ intervals_wire l ++ post)
    <= INT_MAX ->
  callback_message
    (header_wire h ++ be_bytes 2 (len l) ++ intervals_wire l ++ post) =
  Ret (notification_lines (h, l)).
Proof.
  intros Hwf Hn Hok Hlen. unfold callback_message, notification_lines.
  rewrite (read_header_of_wire h _ Hwf). cbn [bind fst snd].
  destruct (opCode h =? OP_QUERY_AVAIL); [|reflexivity].
  pose proof (read_u16_of_wire (header_wire h) (intervals_wire l ++ post)
                (len l)) as Hc.
  rewrite len_header_wire in Hc. unfold HEADER_LEN. rewrite Hc. cbn [bind].
  pose proof (len_nonneg l) as Hnn.
  unfold to_uint16. rewrite Z.mod_small by lia.
  pose proof (callback_intervals_wire l (header_wire h ++ be_bytes 2 (len l))
                post
                [EvStdout (MsgCallbackReceived (opCode h) (requestId h)
                                               (flags h));
                 EvStdout (MsgAvailabilityUpdated (len l))] Hok) as H.
  replace (len (header_wire h ++ be_bytes 2 (len l))) with (16 + 2) in H
    by (rewrite len_app, len_be_bytes, len_header_wire; reflexivity).
  rewrite <- app_assoc in H.
  replace (Z.to_nat (len l)) with (List.length l)
    by (unfold len; rewrite Nat2Z.id; reflexivity).
  cbn [app]. cbn [app] in H. rewrite H by exact Hlen. cbn [bind].
  reflexivity.
Qed.

(** X23.  A notification decodes to what the server put in it: the
    listener prints operation code, request id and flags of the header,
    and, when the operation code is [OP_QUERY_AVAIL], the count and the
    intervals; for any other operation code the payload is not read.
    Nothing else of the header is looked at: a message without the
    [FLAG_IS_CALLBACK] flag, or with another version, is printed all the
    same. *)
Theorem notification_decodes (n : Header * list (Z * Z)) (post : list byte) :
  notification_ok n ->
  len (notification_wire n ++ post) = MAX_DGRAM_SIZE ->
  callback_message (notification_wire n ++ post) =
  Ret (notification_lines n).
Proof.
  destruct n as [h l]. unfold notification_ok, notification_wire.
  cbn [fst snd]. intros (Hwf & Hn & Hok) Hlen.
  rewrite <- !app_assoc in *.
  apply callback_message_wire; auto; [lia|].
  rewrite Hlen. unfold MAX_DGRAM_SIZE, INT_MAX. lia.
Qed.





(** One turn of the [while (1)] loop on a datagram received. *)
Lemma callback_loop_received (d : list byte) (rx : list (option (list byte)))
    (callback_buf : buffer) (tr : list event) :
  callback_loop (Some d :: rx) callback_buf tr =
  match store callback_buf 0 (firstn (Z.to_nat MAX_DGRAM_SIZE) d) with
  | Overrun => (Fault, tr ++ [EvRecvfrom MAX_DGRAM_SIZE])
  | Ret callback_buf =>
      match callback_message callback_buf with
      | Overrun => (Fault, tr ++ [EvRecvfrom MAX_DGRAM_SIZE])
      | Ret out =>
          callback_loop rx callback_buf
            ((tr ++ [EvRecvfrom MAX_DGRAM_SIZE]) ++ out)
      end
  end.
Proof. reflexivity. Qed.

(** X26.  The listener has no way out but a failure of [recvfrom]:
    whenever it returns, whatever was received, some [recvfrom] failed,
    the trace ends with that call and its diagnostic, and what the network
    would have delivered afterwards makes no difference.  As long as
    every [recvfrom] succeeds the listener goes on. *)
Theorem listener_returns_on_failure (rx : list (option (list byte)))
    (callback_buf : buffer) (tr tr' : list event) :
  callback_loop rx callback_buf tr = (Returned tt, tr') ->
  exists ds post out,
    rx = map Some ds ++ None :: post /\
    tr' = tr ++ out
             ++ [EvRecvfrom MAX_DGRAM_SIZE; EvPerror "recvfrom failed"] /\
    forall post',
      callback_loop (map Some ds ++ None :: post') callback_buf tr =
      (Returned tt, tr').
Proof.
  revert callback_buf tr tr'.
  induction rx as [|[d|] rx IH]; intros callback_buf tr tr' H.
  - discriminate.
  - rewrite callback_loop_received in H.
    destruct (store callback_buf 0 _) as [b|] eqn:Est; [|discriminate].
    destruct (callback_message b) as [out|] eqn:Emsg; [|discriminate].
    destruct (IH _ _ _ H) as (ds & post & out' & -> & -> & Hsame).
    exists (d :: ds), post, ([EvRecvfrom MAX_DGRAM_SIZE] ++ out ++ out').
    split; [reflexivity|]. split.
    + rewrite <- !app_assoc. reflexivity.
    + intros post'. cbn [map app].
      rewrite callback_loop_received, Est, Emsg. apply Hsame.
  - cbn [callback_loop] in H. injection H as <-.
    exists [], rx, []. split; [reflexivity|]. split; [reflexivity|].
    intros post'. reflexivity.
Qed.

(* ================================================================= *)
(** * Replies shorter than their fields *)

(** What lies after a datagram stored at the start of an array is what
    the array held there before. *)
Lemma load_after_store (b b' d : list byte) (p n : Z) :
  store b 0 d = Ret b' -> len d <= p -> load b' p n = load b p n.
Proof.
  intros Hst Hp. pose proof (store_len _ _ _ _ Hst) as Hlen.
  unfold store in Hst. destruct (in_bounds b 0 (len d)) eqn:Eb;
    [|discriminate].
  injection Hst as <-. unfold load, in_bounds. rewrite Hlen.
  destruct ((0 <=? p) && (0 <=? n) && (p + n <=? len b)); [|reflexivity].
  f_equal. f_equal. cbn [Z.to_nat firstn app Z.add].
  pose proof (len_nonneg d) as Hd.
  rewrite skipn_app, skipn_skipn.
  rewrite (skipn_all2 d) by (unfold len in *; lia).
  cbn [app]. f_equal. unfold len in *. lia.
Qed.

(** X27.  The length of the reply is only compared with zero.  When the
    reply to a booking is a bare header, 16 bytes without the error bit,
    [cmd_book] still prints a booking id: the one made of the 8 bytes that
    the response array held at offset 16 before the call, bytes that were
    never received. *)
Theorem short_reply_reads_array (fuel : nat) (net : transport) (g : Z)
    (req_buf resp_buf facility user : list byte)
    (start_ms end_ms timeout_ms retries amo : Z) (k : nat) (h : Header)
    (l1 l2 : Z) (stale : list byte) :
  len req_buf = MAX_DGRAM_SIZE -> len resp_buf = MAX_DGRAM_SIZE ->
  strlen facility = Ret l1 -> strlen user = Ret l2 ->
  HEADER_LEN + len (book_payload facility user start_ms end_ms)
    <= MAX_DGRAM_SIZE ->
  (forall j, (j < k)%nat -> no_reply net j) ->
  Z.of_nat k <= retries -> retries <= INT_MAX ->
  0 <= sendto_result net k -> 0 < select_result net k ->
  recvfrom_result net k = Some (header_wire h) ->
  header_wf h -> Z.land (opCode h) OP_ERROR_MASK = 0 ->
  load resp_buf 16 8 = Ret stale ->
  (k < fuel)%nat ->
  exists tr,
    cmd_book fuel net g req_buf resp_buf facility user start_ms end_ms
      timeout_ms retries amo =
    (Returned tt,
     tr ++ [EvRecvfrom MAX_DGRAM_SIZE;
            EvStdout (MsgBookingCreated (to_int64 (be_value stale)))]).
Proof.
  intros Hreq Hresp Hl1 Hl2 Hfit Hno Hk Hmax Hsend Hsel Hrecv Hwf Herr Hstale
    Hfuel.
  unfold cmd_book.
  destruct (built_request _ req_buf _ g amo _
              (cmd_book_request_store g req_buf facility user start_ms end_ms
                 amo l1 l2 Hl1 Hl2)
              ltac:(rewrite Hreq; exact Hfit)) as (b & Hb & Hlb & Hfirst).
  rewrite Hb.
  pose proof (len_nonneg (book_payload facility user start_ms end_ms)) as Hpl.
  pose proof (read_header_of_wire h [] Hwf) as Hh. rewrite app_nil_r in Hh.
  destruct (exchange_receives net b resp_buf
              (HEADER_LEN + len (book_payload facility user start_ms end_ms))
              timeout_ms retries "Book failed"
              (fun resp_buf => printed (cmd_book_reply resp_buf))
              ltac:(unfold HEADER_LEN in *; lia)
              ltac:(unfold HEADER_LEN, MAX_DGRAM_SIZE, INT_MAX in *; lia)
              Hresp fuel k (header_wire h) h Hno Hk Hmax Hsend Hsel Hrecv
              ltac:(rewrite len_header_wire; unfold MAX_DGRAM_SIZE; lia)
              Hh Herr Hfuel)
    as (tr & rest & Hst & Hlen & Hrun & Hsent).
  exists tr. rewrite Hrun.
  unfold cmd_book_reply, HEADER_LEN. rewrite read_i64_load.
  rewrite (load_after_store _ _ _ 16 8 Hst)
    by (rewrite len_header_wire; lia).
  rewrite Hstale. reflexivity.
Qed.

(* ================================================================= *)
(** * The options of [main] *)

Section CommandLineFacts.

Variables atoi atoll : string -> Z.

Ltac option_cases a :=
  unfold set_option;
  repeat match goal with
  | |- context [String.eqb a ?n] =>
      destruct (String.eqb_spec a n) as [->|?]; cbv iota
  end.

Lemma parse_options_step (a v : string) (rest : list string) (o : options) :
  parse_options atoi atoll (a :: v :: rest) o =
  match set_option atoi atoll a v o with
  | Some o' => parse_options atoi atoll rest o'
  | None => parse_options atoi atoll (v :: rest) o
  end.
Proof. reflexivity. Qed.


Lemma set_option_unknown (a v : string) (o : options) :
  ~ In a option_names -> set_option atoi atoll a v o = None.
Proof.
  intros H. option_cases a; try reflexivity;
    exfalso; apply H; unfold option_names; cbn [In]; tauto.
Qed.

(** X28.  An argument that is none of the sixteen option names is passed
    over without a diagnostic, wherever it stands: the options parsed are
    those of the arguments that follow it.  A misspelt option is not
    reported, and its value is then looked at as an argument of its
    own. *)
Theorem unknown_arguments_are_skipped (a : string) (rest : list string)
    (o : options) :
  ~ In a option_names ->
  parse_options atoi atoll (a :: rest) o = parse_options atoi atoll rest o.
Proof.
  intros H. destruct rest as [|v rest]; [reflexivity|].
  rewrite parse_options_step, (set_option_unknown a v o H). reflexivity.
Qed.

Lemma parse_options_frame {A : Type} (f : options -> A) (name : string) :
  (forall a v o o',
     a <> name -> set_option atoi atoll a v o = Some o' -> f o' = f o) ->
  forall n args o,
  (List.length args <= n)%nat -> ~ In name args ->
  f (parse_options atoi atoll args o) = f o.
Proof.
  intros Hset. induction n as [|n IH]; intros args o Hlen Hnot.
  - destruct args; [reflexivity|cbn [List.length] in Hlen; lia].
  - destruct args as [|a [|v rest]]; [reflexivity|reflexivity|].
    rewrite parse_options_step. cbn [List.length] in Hlen.
    destruct (set_option atoi atoll a v o) as [o'|] eqn:E.
    + rewrite IH.
      * apply (Hset a v o o'); [|exact E].
        intros ->. apply Hnot. left. reflexivity.
      * lia.
      * intros Hin. apply Hnot. right. right. exact Hin.
    + apply IH; [cbn [List.length]; lia|].
      intros Hin. apply Hnot. right. exact Hin.
Qed.

Ltac frame_case :=
  let a := fresh "a" in let v := fresh "v" in
  let o := fresh "o" in let o' := fresh "o'" in
  let Hne := fresh "Hne" in let H := fresh "H" in
  intros a v o o' Hne H; unfold set_option in H;
  repeat match type of H with
  | context [String.eqb a ?n] =>
      destruct (String.eqb_spec a n) as [->|?]; cbv iota in H;
      [first [congruence | injection H as <-; reflexivity]|]
  end;
  discriminate.

(** X29.  An option that does not occur among the arguments leaves its
    variable as it was: with [default_options], at the value [main]
    initialises it with.  No option changes the variable of another. *)
Theorem absent_options_keep_values (args : list string) (o : options) :
  (~ In "--host"%string args ->
   opt_host (parse_options atoi atoll args o) = opt_host o) /\
  (~ In "--port"%string args ->
   opt_port (parse_options atoi atoll args o) = opt_port o) /\
  (~ In "--timeoutMs"%string args ->
   opt_timeout_ms (parse_options atoi atoll args o) = opt_timeout_ms o) /\
  (~ In "--retries"%string args ->
   opt_retries (parse_options atoi atoll args o) = opt_retries o) /\
  (~ In "--atMostOnce"%string args ->
   opt_at_most_once (parse_options atoi atoll args o) = opt_at_most_once o) /\
  (~ In "--facility"%string args ->
   opt_facility (parse_options atoi atoll args o) = opt_facility o) /\
  (~ In "--user"%string args ->
   opt_user (parse_options atoi atoll args o) = opt_user o) /\
  (~ In "--date"%string args ->
   opt_date_str (parse_options atoi atoll args o) = opt_date_str o) /\
  (~ In "--start"%string args ->
   opt_start_ms (parse_options atoi atoll args o) = opt_start_ms o) /\
  (~ In "--end"%string args ->
   opt_end_ms (parse_options atoi atoll args o) = opt_end_ms o) /\
  (~ In "--day-start"%string args ->
   opt_day_start (parse_options atoi atoll args o) = opt_day_start o) /\
  (~ In "--day-end"%string args ->
   opt_day_end (parse_options atoi atoll args o) = opt_day_end o) /\
  (~ In "--booking-id"%string args ->
   opt_booking_id (parse_options atoi atoll args o) = opt_booking_id o) /\
  (~ In "--offset"%string args ->
   opt_offset_minutes (parse_options atoi atoll args o) = opt_offset_minutes o) /\
  (~ In "--duration"%string args ->
   opt_duration_seconds (parse_options atoi atoll args o) = opt_duration_seconds o) /\
  (~ In "--callback-port"%string args ->
   opt_callback_port (parse_options atoi atoll args o) = opt_callback_port o).
Proof.
  repeat match goal with |- _ /\ _ => split end;
    intros Hnot;
    match goal with
    | H : ~ In ?n args |- ?f (parse_options _ _ _ _) = _ =>
        refine (parse_options_frame f n _ (List.length args) args o
                  (Nat.le_refl _) H);
        frame_case
    end.
Qed.


End CommandLineFacts.

End Client.

(* ================================================================= *)
(** * Scenarios evaluated *)

(** ** The retry budget at the top of [int] *)

(** With [max_retries = INT_MAX] on a network that never answers, the test
    [attempt <= max_retries] holds for every [int], [attempt++] wraps from
    [INT_MAX] to [INT_MIN], and the call keeps sending: whatever the fuel,
    it has not returned. *)
Lemma invoke_unbounded_at_INT_MAX (fuel : nat) :
  fst (udp_invoke fuel net_silent (zeros 38) 38 (zeros 64) 64 500 INT_MAX)
  = Unfinished.
Proof.
  unfold udp_invoke. apply loop_unbounded.
  - change (len (zeros 38)) with 38. lia.
  - unfold INT_MAX. lia.
  - reflexivity.
  - intros k. split; [cbn; lia|reflexivity].
  - unfold is_int, INT_MIN, INT_MAX. lia.
Qed.

(** C1 at the retry budget [INT_MAX], which [--retries 2147483647]
    passes to [udp_invoke]: on a network on which every attempt times out,
    no run returns [-1] after [INT_MAX + 1] send attempts; no run returns
    at all.  The loop counter is an [int] compared with
    [attempt <= max_retries], so [attempt++] overflows at the bound the
    loop is meant to stop at, against the contract "returns -1 on failure
    after all retries". *)
Lemma retry_bound_overflow :
  ~ exists fuel tr,
      udp_invoke fuel net_silent (zeros 38) 38 (zeros 64) 64 500 INT_MAX =
        (Returned (-1, zeros 64), tr) /\
      len (sent_datagrams tr) = INT_MAX + 1.
Proof.
  intros (fuel & tr & Hrun & _).
  pose proof (invoke_unbounded_at_INT_MAX fuel) as H.
  rewrite Hrun in H. discriminate.
Qed.

Lemma retry_bound_witness :
  exists tr,
    udp_invoke 5 net_silent (zeros 38) 38 (zeros 64) 64 500 3 =
      (Returned (-1, zeros 64), tr) /\
    len (sent_datagrams tr) = 3 + 1.
Proof.
  apply retry_bound.
  - intros k. split; [cbn; lia|reflexivity].
  - change (len (zeros 38)) with 38. lia.
  - unfold INT_MAX. lia.
  - unfold INT_MAX. lia.
  - cbn. lia.
Defined.

(** ** Short buffers *)

(** The decoders on arrays one byte short of what they need (and
    [read_string] on a count of 5 followed by one byte): each reads past
    the end of its array; none returns a failure. *)
Lemma decoders_overrun_short_buffers :
  read_u16 LittleEndian [Byte.x12] 0 = Overrun /\
  read_u32 LittleEndian [Byte.x12; Byte.x34; Byte.x56] 0 = Overrun /\
  read_i64 LittleEndian (zeros 7) 0 = Overrun /\
  read_header LittleEndian (zeros 15) 0 = Overrun /\
  read_string LittleEndian [Byte.x00; Byte.x05; Byte.x61] 0 (zeros 16) 16
    = Overrun.
Proof. split; [|split; [|split; [|split]]]; vm_compute; reflexivity. Qed.

Lemma decoders_unchecked_witness :
  read_header BigEndian (zeros 15) 0 = Overrun /\
  read_string BigEndian [Byte.x00; Byte.x05; Byte.x61] 0 (zeros 4) 4
    = Ret (-1, zeros 4).
Proof.
  pose proof (decoders_unchecked BigEndian (zeros 15) 0 ltac:(lia))
    as (_ & _ & _ & Hh & _).
  pose proof (decoders_unchecked BigEndian [Byte.x00; Byte.x05; Byte.x61] 0
                ltac:(lia)) as (_ & _ & _ & _ & _ & _ & Hs & _).
  split.
  - apply Hh. change (len (zeros 15)) with 15. lia.
  - apply (Hs (zeros 4) 4 [Byte.x00; Byte.x05]).
    + vm_compute. reflexivity.
    + change (be_value [Byte.x00; Byte.x05]) with 5. lia.
Defined.

(** ** Round trips *)

Lemma header_round_trip_witness :
  exists buf',
    write_header LittleEndian (zeros 20) 2 sample_header = Ret (16, buf') /\
    read_header LittleEndian buf' 2 = Ret (16, sample_header).
Proof.
  destruct (header_round_trip LittleEndian (zeros 20) 2 sample_header)
    as (pre & old & post & _ & _ & _ & Hw & _ & Hr).
  - unfold header_wf, is_uint16, is_uint32. cbn. lia.
  - lia.
  - change (len (zeros 20)) with 20. lia.
  - eauto.
Defined.

Lemma field_round_trip_witness :
  (exists buf', write_u16 BigEndian (zeros 4) 1 65535 = Ret (2, buf') /\
                read_u16 BigEndian buf' 1 = Ret (2, 65535)) /\
  (exists buf', write_u32 BigEndian (zeros 4) 0 4294967295 = Ret (4, buf') /\
                read_u32 BigEndian buf' 0 = Ret (4, 4294967295)) /\
  (exists buf', write_i64 BigEndian (zeros 8) 0 (-1) = Ret (8, buf') /\
                read_i64 BigEndian buf' 0 = Ret (8, -1)) /\
  (exists buf' out',
     write_string BigEndian (zeros 8) 1 LabA = Ret (2 + 4, buf') /\
     read_string BigEndian buf' 1 (zeros 8) 8 = Ret (2 + 4, out') /\
     c_str out' = c_str LabA).
Proof.
  destruct (field_round_trip BigEndian) as (H16 & H32 & H64 & Hs).
  split; [|split; [|split]].
  - apply H16.
    + unfold is_uint16. lia.
    + lia.
    + change (len (zeros 4)) with 4. lia.
  - apply H32.
    + unfold is_uint32. lia.
    + lia.
    + change (len (zeros 4)) with 4. lia.
  - destruct (H64 (zeros 8) 0 (-1)) as (buf' & Hw & _ & Hr).
    + unfold is_int64. lia.
    + lia.
    + change (len (zeros 8)) with 8. lia.
    + eauto.
  - apply Hs.
    + reflexivity.
    + lia.
    + lia.
    + change (len (zeros 8)) with 8. lia.
    + lia.
    + change (len (zeros 8)) with 8. lia.
Defined.

(** A string of 70000 bytes is written as a count of 65535 and 65535
    bytes. *)
Lemma write_string_clamps_witness :
  exists buf',
    write_string LittleEndian (zeros 65600) 0
      (repeat Byte.x61 (Z.to_nat 70000) ++ [Byte.x00]) = Ret (65537, buf').
Proof.
  destruct (write_string_clamps LittleEndian (zeros 65600) 0
              (repeat Byte.x61 (Z.to_nat 70000) ++ [Byte.x00]) 70000)
    as (pre & old & post & _ & _ & _ & Hw & _).
  - vm_compute. reflexivity.
  - lia.
  - change (len (zeros 65600)) with 65600. lia.
  - eexists. exact Hw.
Defined.

(** ** Error responses *)

(** Each of the six commands answered with error kind 1 (conflict): the
    client prints "Server error response" and nothing else.  A query
    answered with kinds 2 and 4 runs the same, event for event. *)
Lemma conflict_response_not_classified :
  let net kind := net_answers (error_response kind) in
  let run kind :=
    cmd_query LittleEndian 1 (net kind) 41
      (zeros MAX_DGRAM_SIZE) (zeros MAX_DGRAM_SIZE) LabA date_2025_10_10
      500 3 0 in
  output (snd (run ERR_CONFLICT)) = [EvStderr MsgServerError] /\
  run ERR_CONFLICT = run ERR_NOT_FOUND /\
  run ERR_CONFLICT = run ERR_INTERNAL /\
  output (snd (cmd_book LittleEndian 1 (net ERR_CONFLICT) 41
                 (zeros MAX_DGRAM_SIZE) (zeros MAX_DGRAM_SIZE) LabA LabA
                 1000 2000 500 3 0)) = [EvStderr MsgServerError] /\
  output (snd (cmd_change LittleEndian 1 (net ERR_CONFLICT) 41
                 (zeros MAX_DGRAM_SIZE) (zeros MAX_DGRAM_SIZE) 1 60
                 500 3 0)) = [EvStderr MsgServerError] /\
  output (snd (cmd_monitor LittleEndian 1 (net ERR_CONFLICT)
                 {| socket_ok := true; bind_ok := true; deliveries := [] |}
                 41 (zeros MAX_DGRAM_SIZE) (zeros MAX_DGRAM_SIZE)
                 (zeros MAX_DGRAM_SIZE) LabA 30 10000 500 3 0))
    = [EvStderr MsgServerError] /\
  output (snd (cmd_reset LittleEndian 1 (net ERR_CONFLICT) 41
                 (zeros MAX_DGRAM_SIZE) (zeros MAX_DGRAM_SIZE) LabA
                 1728518400000 1728604800000 500 3 0))
    = [EvStderr MsgServerError] /\
  output (snd (cmd_custom_incr LittleEndian 1 (net ERR_CONFLICT) 41
                 (zeros MAX_DGRAM_SIZE) (zeros MAX_DGRAM_SIZE) LabA
                 500 3 0)) = [EvStderr MsgServerError].
Proof.
  cbv zeta.
  split; [|split; [|split; [|split; [|split; [|split; [|split]]]]]];
    vm_compute; reflexivity.
Qed.

Lemma error_response_is_generic_witness :
  let net := net_answers (error_response ERR_CONFLICT) in
  let generic (run : completion unit * list event) :=
    exists tr,
      run = (Returned tt,
             tr ++ [EvRecvfrom MAX_DGRAM_SIZE; EvStderr MsgServerError]) /\
      len (sent_datagrams tr) = Z.of_nat 0 + 1 in
  generic (cmd_query LittleEndian 1 net 41 (zeros MAX_DGRAM_SIZE)
             (zeros MAX_DGRAM_SIZE) LabA date_2025_10_10 500 3 0) /\
  generic (cmd_book LittleEndian 1 net 41 (zeros MAX_DGRAM_SIZE)
             (zeros MAX_DGRAM_SIZE) LabA LabA 1000 2000 500 3 0) /\
  generic (cmd_change LittleEndian 1 net 41 (zeros MAX_DGRAM_SIZE)
             (zeros MAX_DGRAM_SIZE) 1 60 500 3 0) /\
  generic (cmd_monitor LittleEndian 1 net
             {| socket_ok := true; bind_ok := true; deliveries := [] |}
             41 (zeros MAX_DGRAM_SIZE) (zeros MAX_DGRAM_SIZE)
             (zeros MAX_DGRAM_SIZE) LabA 30 10000 500 3 0) /\
  generic (cmd_reset LittleEndian 1 net 41 (zeros MAX_DGRAM_SIZE)
             (zeros MAX_DGRAM_SIZE) LabA 1728518400000 1728604800000
             500 3 0) /\
  generic (cmd_custom_incr LittleEndian 1 net 41 (zeros MAX_DGRAM_SIZE)
             (zeros MAX_DGRAM_SIZE) LabA 500 3 0).
Proof.
  cbv zeta.
  assert (len (zeros MAX_DGRAM_SIZE) = MAX_DGRAM_SIZE) as Hlen
    by (vm_compute; reflexivity).
  destruct (error_response_is_generic LittleEndian 1
              (net_answers (error_response ERR_CONFLICT)) 41
              (zeros MAX_DGRAM_SIZE) (zeros MAX_DGRAM_SIZE) 500 3 0 0
              (error_response ERR_CONFLICT)
              {| version := 1; opCode := 0x8001; requestId := 42; flags := 0;
                 payloadLen := 2 |} Hlen Hlen)
    as (Hq & Hb & Hc & Hm & Hr & Hi).
  - intros j Hj. lia.
  - lia.
  - unfold INT_MAX. lia.
  - cbn. lia.
  - cbn. lia.
  - reflexivity.
  - vm_compute. discriminate.
  - vm_compute. reflexivity.
  - vm_compute. discriminate.
  - lia.
  - split; [|split; [|split; [|split; [|split]]]].
    + apply (Hq LabA date_2025_10_10 4); [reflexivity|].
      vm_compute. discriminate.
    + apply (Hb LabA LabA 1000 2000 4 4); [reflexivity|reflexivity|].
      vm_compute. discriminate.
    + apply (Hc 1 60).
    + apply (Hm {| socket_ok := true; bind_ok := true; deliveries := [] |}
               (zeros MAX_DGRAM_SIZE) LabA 30 10000 4); [reflexivity|].
      vm_compute. discriminate.
    + apply (Hr LabA 1728518400000 1728604800000 4); [reflexivity|].
      vm_compute. discriminate.
    + apply (Hi LabA 4); [reflexivity|].
      vm_compute. discriminate.
Defined.

(** ** Failure results *)

(** One attempt that times out with no retry left, and one attempt in
    which [select] fails: the caller gets [-1] and an untouched response
    array both times; only the lines printed differ. *)
Lemma exhaustion_returns_like_hard_failure :
  fst (udp_invoke 2 net_silent (zeros 38) 38 (zeros 64) 64 500 0) =
    Returned (-1, zeros 64) /\
  fst (udp_invoke 2 net_broken (zeros 38) 38 (zeros 64) 64 500 0) =
    Returned (-1, zeros 64) /\
  output (snd (udp_invoke 2 net_silent (zeros 38) 38 (zeros 64) 64 500 0)) =
    [EvStdout (MsgRetryTimeout 1 1); EvStderr (MsgFailedAfter 1)] /\
  output (snd (udp_invoke 2 net_broken (zeros 38) 38 (zeros 64) 64 500 0)) =
    [EvPerror "select failed"].
Proof. split; [|split; [|split]]; vm_compute; reflexivity. Qed.

Lemma failure_results_coincide_witness :
  exists tr_slow tr_hard what,
    udp_invoke 2 net_silent (zeros 38) 38 (zeros 64) 64 500 0 =
      (Returned (-1, zeros 64),
       tr_slow ++ [EvStderr (MsgFailedAfter (0 + 1))]) /\
    udp_invoke 2 net_broken (zeros 38) 38 (zeros 64) 64 500 0 =
      (Returned (-1, zeros 64), tr_hard ++ [EvPerror what]) /\
    (what = "select failed"%string \/ what = "recvfrom failed"%string) /\
    (forall net ret response' tr,
       udp_invoke 2 net (zeros 38) 38 (zeros 64) 64 500 0 =
         (Returned (ret, response'), tr) ->
       ret < 0 -> ret = -1 /\ response' = zeros 64).
Proof.
  apply (failure_results_coincide 2 net_silent net_broken (zeros 38)
           (zeros 64) 38 64 500 0 0).
  - vm_compute. split; discriminate.
  - unfold INT_MAX. lia.
  - unfold INT_MAX. lia.
  - intros j. right. reflexivity.
  - intros j Hj. lia.
  - lia.
  - cbn. lia.
  - left. cbn. lia.
  - simpl. lia.
Defined.

(** ** Versions *)

(** A response with version 2 is read like any other: the count and the
    interval in it are printed. *)
Lemma other_version_is_interpreted :
  cmd_query LittleEndian 1 (net_answers version_2_response) 41
    (zeros MAX_DGRAM_SIZE) (zeros MAX_DGRAM_SIZE) LabA date_2025_10_10
    500 3 0 =
  (Returned tt,
   [EvSendto (header_wire (request_header OP_QUERY_AVAIL 41 0 22)
              ++ query_payload LabA);
    EvSelect 0 500000;
    EvRecvfrom MAX_DGRAM_SIZE;
    EvStdout (MsgAvailableIntervals 1);
    EvStdout (MsgInterval 1000 2000)]).
Proof. vm_compute. reflexivity. Qed.

Lemma version_is_ignored_witness :
  response_outcome LittleEndian (response_with_version 2)
    (fun r => printed (cmd_query_reply LittleEndian r)) =
  response_outcome LittleEndian (response_with_version PROTOCOL_VERSION)
    (fun r => printed (cmd_query_reply LittleEndian r)).
Proof.
  assert (len (response_with_version 2) = MAX_DGRAM_SIZE) as H1
    by (vm_compute; reflexivity).
  assert (len (response_with_version PROTOCOL_VERSION) = MAX_DGRAM_SIZE)
    as H2 by (vm_compute; reflexivity).
  assert (skipn 2 (response_with_version 2) =
          skipn 2 (response_with_version PROTOCOL_VERSION))
    as H3 by reflexivity.
  exact (proj1 (version_is_ignored LittleEndian _ _ H1 H2 H3)).
Defined.

(** ** Requests *)

Lemma request_framing_witness :
  let framed_request (builder : access (buffer * Z * Z))
                     (payload : list byte) :=
    exists b,
      builder = Ret (b, HEADER_LEN + len payload, next_request_id 41) /\
      framed BigEndian b (HEADER_LEN + len payload) payload in
  framed_request (cmd_query_request BigEndian 41 (zeros 64) LabA 1)
    (query_payload LabA) /\
  framed_request
    (cmd_book_request BigEndian 41 (zeros 64) LabA LabA 1000 2000 1)
    (book_payload LabA LabA 1000 2000) /\
  framed_request (cmd_change_request BigEndian 41 (zeros 64) 1 (-60) 1)
    (change_payload 1 (-60)) /\
  framed_request (cmd_monitor_request BigEndian 41 (zeros 64) LabA 30 10000 1)
    (monitor_payload LabA 30 10000) /\
  framed_request
    (cmd_reset_request BigEndian 41 (zeros 64) LabA 1728518400000
       1728604800000 1)
    (reset_payload LabA 1728518400000 1728604800000) /\
  framed_request (cmd_custom_incr_request BigEndian 41 (zeros 64) LabA 1)
    (custom_incr_payload LabA).
Proof.
  cbv zeta.
  destruct (request_framing BigEndian 41 1 (zeros 64))
    as (Hq & Hb & Hc & Hm & Hr & Hi).
  split; [|split; [|split; [|split; [|split]]]].
  - apply (proj1 (Hq LabA 4 eq_refl)). vm_compute. discriminate.
  - apply (proj1 (Hb LabA LabA 1000 2000 4 4 eq_refl eq_refl)).
    vm_compute. discriminate.
  - apply (proj1 (Hc 1 (-60))). vm_compute. discriminate.
  - apply (proj1 (Hm LabA 30 10000 4 eq_refl)). vm_compute. discriminate.
  - apply (proj1 (Hr LabA 1728518400000 1728604800000 4 eq_refl)).
    vm_compute. discriminate.
  - apply (proj1 (Hi LabA 4 eq_refl)). vm_compute. discriminate.
Defined.

(* ================================================================= *)
(** * Further scenarios evaluated *)

(** ** Codec *)

Lemma header_decode_encode_witness :
  header_wf sample_header /\
  write_header LittleEndian (header_wire sample_header) 0 sample_header =
    Ret (16, header_wire sample_header).
Proof.
  apply (header_decode_encode LittleEndian (header_wire sample_header) 0 16
           sample_header).
  vm_compute. reflexivity.
Defined.

Lemma field_decode_encode_witness :
  (is_uint16 258 /\
   write_u16 LittleEndian (be_bytes 2 258) 0 258 = Ret (2, be_bytes 2 258)) /\
  (is_uint32 70000 /\
   write_u32 LittleEndian (be_bytes 4 70000) 0 70000
     = Ret (4, be_bytes 4 70000)) /\
  (is_int64 (-5) /\
   write_i64 LittleEndian (be_bytes 8 (-5)) 0 (-5) = Ret (8, be_bytes 8 (-5))).
Proof.
  split; [|split].
  - apply (proj1 (field_decode_encode LittleEndian (be_bytes 2 258) 0 2 258)).
    vm_compute. reflexivity.
  - apply (proj1 (proj2 (field_decode_encode LittleEndian (be_bytes 4 70000)
                           0 4 70000))).
    vm_compute. reflexivity.
  - apply (proj2 (proj2 (field_decode_encode LittleEndian (be_bytes 8 (-5))
                           0 8 (-5)))).
    vm_compute. reflexivity.
Defined.

Lemma writers_unchecked_witness :
  (write_string BigEndian (zeros 4) 0 LabA = Overrun <->
   ~ (0 <= 0 /\ 0 + (2 + Z.min 4 65535) <= len (zeros 4))) /\
  write_string BigEndian (zeros 4) 0 [Byte.x41] = Overrun.
Proof.
  split.
  - apply (proj1 (proj2 (proj2 (proj2 (proj2
             (writers_unchecked BigEndian (zeros 4) 0))))) LabA 4).
    reflexivity.
  - apply (proj2 (proj2 (proj2 (proj2 (proj2
             (writers_unchecked BigEndian (zeros 4) 0))))) [Byte.x41]).
    reflexivity.
Defined.

Lemma read_string_output_witness :
  (exists count text,
     load (string_wire LabA) 0 2 = Ret count /\
     6 = 2 + be_value count /\ be_value count < 8 /\
     load (string_wire LabA) (0 + 2) (be_value count) = Ret text /\
     LabA ++ zeros 3 =
       text ++ Byte.x00 :: skipn (Z.to_nat (be_value count + 1)) (zeros 8) /\
     len (LabA ++ zeros 3) = len (zeros 8) /\
     strlen (LabA ++ zeros 3) = Ret (len (c_str (LabA ++ zeros 3))) /\
     len (c_str (LabA ++ zeros 3)) <= be_value count /\
     c_str (LabA ++ zeros 3) = c_str (text ++ [Byte.x00])) /\
  read_string BigEndian (string_wire LabA) 0 (zeros 8) 8 =
    Ret (2 + be_value (be_bytes 2 4),
         c_str LabA ++ Byte.x00
           :: skipn (Z.to_nat (be_value (be_bytes 2 4) + 1)) (zeros 8)).
Proof.
  split.
  - apply (proj1 (read_string_output LittleEndian (string_wire LabA) 0
                    (zeros 8) 8) 6 (LabA ++ zeros 3)).
    + vm_compute. reflexivity.
    + lia.
  - apply (proj2 (read_string_output BigEndian (string_wire LabA) 0
                    (zeros 8) 8) (be_bytes 2 4) (c_str LabA)).
    + vm_compute. reflexivity.
    + vm_compute. reflexivity.
    + vm_compute. reflexivity.
    + vm_compute. discriminate.
Defined.

(** ** Requests *)

Lemma request_headers_witness :
  let header op (payload : list byte) :=
    {| version := 1; opCode := op; requestId := (41 + 1) mod 2 ^ 32;
       flags := if 1 =? 0 then 0 else 1;
       payloadLen := len payload |} in
  let request (builder : access (buffer * Z * Z)) op (payload : list byte) :=
    exists b,
      builder = Ret (b, 16 + len payload, (41 + 1) mod 2 ^ 32) /\
      read_header BigEndian b 0 = Ret (HEADER_LEN, header op payload) in
  request (cmd_query_request BigEndian 41 (zeros 64) LabA 1) 0x0001
    (query_payload LabA) /\
  request (cmd_book_request BigEndian 41 (zeros 64) LabA LabA 1000 2000 1)
    0x0002 (book_payload LabA LabA 1000 2000) /\
  request (cmd_change_request BigEndian 41 (zeros 64) 1 (-60) 1) 0x0003
    (change_payload 1 (-60)) /\
  request (cmd_monitor_request BigEndian 41 (zeros 64) LabA 30 10000 1) 0x0004
    (monitor_payload LabA 30 10000) /\
  request
    (cmd_reset_request BigEndian 41 (zeros 64) LabA 1728518400000
       1728604800000 1)
    0x1001 (reset_payload LabA 1728518400000 1728604800000) /\
  request (cmd_custom_incr_request BigEndian 41 (zeros 64) LabA 1) 0x1002
    (custom_incr_payload LabA).
Proof.
  cbv zeta.
  destruct (request_headers BigEndian 41 1 (zeros 64))
    as (Hq & Hb & Hc & Hm & Hr & Hi).
  split; [|split; [|split; [|split; [|split]]]].
  - apply (proj1 (Hq LabA 4 eq_refl)). vm_compute. discriminate.
  - apply (proj1 (Hb LabA LabA 1000 2000 4 4 eq_refl eq_refl)).
    vm_compute. discriminate.
  - apply (proj1 (Hc 1 (-60))). vm_compute. discriminate.
  - apply (proj1 (Hm LabA 30 10000 4 eq_refl)). vm_compute. discriminate.
  - apply (proj1 (Hr LabA 1728518400000 1728604800000 4 eq_refl)).
    vm_compute. discriminate.
  - apply (proj1 (Hi LabA 4 eq_refl)). vm_compute. discriminate.
Defined.

Lemma request_array_overrun_witness :
  (cmd_query_request LittleEndian 41 (zeros MAX_DGRAM_SIZE) LabA 0 = Overrun
   <-> 65502 < 4) /\
  (cmd_book_request LittleEndian 41 (zeros MAX_DGRAM_SIZE) LabA LabA 1000 2000
     0 = Overrun
   <-> 65500 < Z.min 4 65535 + Z.min 4 65535).
Proof.
  assert (len (zeros MAX_DGRAM_SIZE) = MAX_DGRAM_SIZE) as H
    by (vm_compute; reflexivity).
  split.
  - apply (proj1 (request_array_overrun LittleEndian 41 0
                    (zeros MAX_DGRAM_SIZE) H) LabA 4).
    reflexivity.
  - apply (proj1 (proj2 (request_array_overrun LittleEndian 41 0
                           (zeros MAX_DGRAM_SIZE) H)) LabA LabA 1000 2000 4 4).
    + reflexivity.
    + reflexivity.
Defined.

Lemma book_request_decodes_witness :
  exists b offset g' o1 o2,
    cmd_book_request LittleEndian 41 (zeros 64) LabA LabA 1000 2000 0
      = Ret (b, offset, g') /\
    read_string LittleEndian b 16 (zeros 8) 8 = Ret (2 + 4, o1) /\
    c_str o1 = c_str LabA /\
    read_string LittleEndian b (16 + (2 + 4)) (zeros 8) 8 = Ret (2 + 4, o2) /\
    c_str o2 = c_str LabA /\
    read_i64 LittleEndian b (16 + (2 + 4) + (2 + 4)) = Ret (8, 1000) /\
    read_i64 LittleEndian b (16 + (2 + 4) + (2 + 4) + 8) = Ret (8, 2000) /\
    offset = 16 + (2 + 4) + (2 + 4) + 8 + 8.
Proof.
  destruct (proj1 (proj2 (requests_are_built LittleEndian 41 (zeros 64) 0))
              LabA LabA 1000 2000 4 4) as (b & Hb).
  - reflexivity.
  - reflexivity.
  - vm_compute. discriminate.
  - destruct (book_request_decodes LittleEndian 41 0 (zeros 64) b LabA LabA
                1000 2000 _ _ 4 4 (zeros 8) (zeros 8) 8 8 Hb)
      as (o1 & o2 & H).
    + reflexivity.
    + reflexivity.
    + lia.
    + lia.
    + lia.
    + vm_compute. discriminate.
    + lia.
    + vm_compute. discriminate.
    + unfold is_int64. lia.
    + unfold is_int64. lia.
    + exists b, (HEADER_LEN + len (book_payload LabA LabA 1000 2000)),
        (next_request_id 41), o1, o2.
      split; [exact Hb|exact H].
Defined.

Lemma change_request_decodes_witness :
  exists b offset g',
    cmd_change_request LittleEndian 41 (zeros 64) 1 (-60) 0
      = Ret (b, offset, g') /\
    read_i64 LittleEndian b 16 = Ret (8, 1) /\
    read_u32 LittleEndian b 24 = Ret (4, (-60) mod 2 ^ 32) /\
    offset = 28.
Proof.
  destruct (proj1 (proj2 (proj2 (requests_are_built LittleEndian 41
                                   (zeros 64) 0))) 1 (-60)) as (b & Hb).
  - vm_compute. discriminate.
  - exists b, (HEADER_LEN + len (change_payload 1 (-60))),
      (next_request_id 41).
    split; [exact Hb|].
    apply (change_request_decodes LittleEndian 41 0 (zeros 64) b 1 (-60) _ _
             Hb).
    unfold is_int64. lia.
Defined.

(** ** Request ids *)

Lemma request_ids_wrap_witness :
  nth_error (request_ids 3 4294967294) 0 =
    Some ((4294967294 + Z.of_nat 0 + 1) mod 2 ^ 32) /\
  (Z.of_nat 1 - Z.of_nat 0 < 2 ^ 32 ->
   nth_error (request_ids 3 4294967294) 0 <>
   nth_error (request_ids 3 4294967294) 1) /\
  (Z.of_nat 1 - Z.of_nat 0 = 2 ^ 32 ->
   nth_error (request_ids 3 4294967294) 0 =
   nth_error (request_ids 3 4294967294) 1).
Proof.
  apply (request_ids_wrap 3 4294967294 0 1). lia.
Defined.

Lemma request_ids_after_init_witness :
  0 <= init_request_id 123456789 < 2 ^ 30 /\
  nth_error (request_ids 2 (init_request_id 123456789)) 0 =
    Some (init_request_id 123456789 + Z.of_nat 0 + 1) /\
  (forall a c, (1 < 2)%nat ->
     nth_error (request_ids 2 (init_request_id 123456789)) 0 = Some a ->
     nth_error (request_ids 2 (init_request_id 123456789)) 1 = Some c ->
     0 < a < c).
Proof.
  apply (request_ids_after_init 123456789 2 0).
  - vm_compute. discriminate.
  - lia.
Defined.

(** ** The invocation engine *)

Lemma sends_bounded_witness :
  len (sent_datagrams
         (snd (udp_invoke 9 net_silent (zeros 38) 38 (zeros 16) 16 500 3)))
    <= Z.max 0 (3 + 1) /\
  (3 < 0 ->
   udp_invoke 10 net_silent (zeros 38) 38 (zeros 16) 16 500 3 =
   (Returned (-1, zeros 16), [EvStderr (MsgFailedAfter (to_int (3 + 1)))])).
Proof.
  apply (sends_bounded 9 net_silent (zeros 38) (zeros 16) 38 16 500 3).
  unfold INT_MAX. lia.
Defined.

Lemma invoke_receives_witness :
  exists tr,
    udp_invoke 1 (net_answers [Byte.x01; Byte.x02]) (zeros 38) 38 (zeros 16)
      16 500 3 =
      (Returned (Z.min (len [Byte.x01; Byte.x02]) 16,
                 firstn (Z.to_nat 16) [Byte.x01; Byte.x02]
                 ++ skipn (Z.to_nat (Z.min (len [Byte.x01; Byte.x02]) 16))
                      (zeros 16)),
       tr ++ [EvRecvfrom 16]) /\
    sent_datagrams tr = repeat (firstn (Z.to_nat 38) (zeros 38)) 1.
Proof.
  apply (invoke_receives 1 (net_answers [Byte.x01; Byte.x02]) (zeros 38)
           (zeros 16) 38 16 500 3 0 [Byte.x01; Byte.x02]).
  - vm_compute. split; discriminate.
  - unfold INT_MAX. lia.
  - vm_compute. split; discriminate.
  - unfold INT_MAX. lia.
  - intros j Hj. lia.
  - lia.
  - unfold INT_MAX. lia.
  - cbn. lia.
  - cbn. lia.
  - reflexivity.
  - lia.
Defined.

Lemma invoke_hard_error_witness :
  exists tr,
    udp_invoke 1 net_broken (zeros 38) 38 (zeros 16) 16 500 3 =
      (Returned (-1, zeros 16), tr) /\
    len (sent_datagrams tr) = Z.of_nat 0 + 1.
Proof.
  apply (invoke_hard_error 1 net_broken (zeros 38) (zeros 16) 38 16 500 3 0).
  - vm_compute. split; discriminate.
  - unfold INT_MAX. lia.
  - intros j Hj. lia.
  - lia.
  - unfold INT_MAX. lia.
  - cbn. lia.
  - left. cbn. lia.
  - lia.
Defined.

Lemma invoke_send_failures_witness :
  udp_invoke 4 net_unreachable (zeros 38) 38 (zeros 16) 16 500 1 =
  (Returned (-1, zeros 16),
   send_failure_trace (firstn (Z.to_nat 38) (zeros 38)) (Z.to_nat (1 + 1))
   ++ [EvStderr (MsgFailedAfter (1 + 1))]).
Proof.
  apply (invoke_send_failures 4 net_unreachable (zeros 38) (zeros 16) 38 16
           500 1).
  - vm_compute. split; discriminate.
  - unfold INT_MAX. lia.
  - intros j. cbn. lia.
  - unfold INT_MAX. lia.
  - simpl. lia.
Defined.

Lemma invoke_silent_trace_witness :
  udp_invoke 4 net_silent (zeros 38) 38 (zeros 16) 16 500 1 =
  (Returned (-1, zeros 16),
   timeout_trace (firstn (Z.to_nat 38) (zeros 38)) 500 (1 + 1)
     (Z.to_nat (1 + 1)) 0
   ++ [EvStderr (MsgFailedAfter (1 + 1))]).
Proof.
  apply (invoke_silent_trace 4 net_silent (zeros 38) (zeros 16) 38 16 500 1).
  - vm_compute. split; discriminate.
  - unfold INT_MAX. lia.
  - intros k. cbn. lia.
  - unfold INT_MAX. lia.
  - simpl. lia.
Defined.

Lemma select_waits_timeout_witness :
  1 = Z.quot 1500 1000 /\
  500000 = Z.rem 1500 1000 * 1000 /\
  1 * 1000000 + 500000 = 1500 * 1000 /\
  (0 <= 1500 -> 0 <= 1 /\ 0 <= 500000 < 1000000).
Proof.
  apply (select_waits_timeout 3 net_silent (zeros 4) (zeros 16) 4 16 1500 1
           1 500000).
  vm_compute. right. left. reflexivity.
Defined.

(** ** Responses *)

Ltac scenario_header :=
  unfold header_wf, is_uint16, is_uint32, update_notification,
    other_notification, answer_header, OP_QUERY_AVAIL, OP_BOOK;
  cbn; lia.

Lemma query_reply_decodes_witness :
  cmd_query_reply LittleEndian
    (zeros 16 ++ be_bytes 2 (len two_intervals) ++
     intervals_wire two_intervals ++ zeros (MAX_DGRAM_SIZE - 50)) =
  Ret (EvStdout (MsgAvailableIntervals (len two_intervals))
       :: interval_lines two_intervals).
Proof.
  apply (query_reply_decodes LittleEndian (zeros 16) two_intervals
           (zeros (MAX_DGRAM_SIZE - 50))).
  - reflexivity.
  - vm_compute. discriminate.
  - apply Forall_cons; [cbn; unfold is_int64; lia|].
    apply Forall_cons; [cbn; unfold is_int64; lia|]. apply Forall_nil.
  - vm_compute. reflexivity.
Defined.

Lemma query_reply_overruns_witness :
  cmd_query_reply LittleEndian (zeros 16 ++ be_bytes 2 3 ++ zeros 32)
  = Overrun.
Proof.
  apply (query_reply_overruns LittleEndian
           (zeros 16 ++ be_bytes 2 3 ++ zeros 32) 2 3).
  - vm_compute. discriminate.
  - vm_compute. reflexivity.
  - vm_compute. reflexivity.
Defined.


(** ** Commands *)

Lemma query_end_to_end_witness :
  exists tr,
    cmd_query LittleEndian 1
      (net_answers (header_wire answer_header
                    ++ be_bytes 2 (len two_intervals)
                    ++ intervals_wire two_intervals))
      41 (zeros MAX_DGRAM_SIZE) (zeros MAX_DGRAM_SIZE) LabA date_2025_10_10
      500 3 0 =
      (Returned tt,
       tr ++ EvRecvfrom MAX_DGRAM_SIZE
          :: EvStdout (MsgAvailableIntervals (len two_intervals))
          :: interval_lines two_intervals) /\
    sent_datagrams tr =
      repeat (header_wire (request_header OP_QUERY_AVAIL 41 0
                             (len (query_payload LabA)))
              ++ query_payload LabA) 1.
Proof.
  apply (query_end_to_end LittleEndian 1
           (net_answers (header_wire answer_header
                         ++ be_bytes 2 (len two_intervals)
                         ++ intervals_wire two_intervals))
           41 (zeros MAX_DGRAM_SIZE) (zeros MAX_DGRAM_SIZE) LabA
           date_2025_10_10 500 3 0 0 answer_header two_intervals 4).
  - vm_compute. reflexivity.
  - vm_compute. reflexivity.
  - reflexivity.
  - vm_compute. discriminate.
  - intros j Hj. lia.
  - lia.
  - unfold INT_MAX. lia.
  - cbn. lia.
  - cbn. lia.
  - reflexivity.
  - scenario_header.
  - reflexivity.
  - vm_compute. discriminate.
  - apply Forall_cons; [cbn; unfold is_int64; lia|].
    apply Forall_cons; [cbn; unfold is_int64; lia|]. apply Forall_nil.
  - lia.
Defined.

Lemma commands_on_silent_network_witness :
  cmd_query LittleEndian 6 net_silent 41 (zeros MAX_DGRAM_SIZE)
    (zeros MAX_DGRAM_SIZE) LabA date_2025_10_10 500 3 0 =
  (Returned tt,
   timeout_trace
     (header_wire (request_header OP_QUERY_AVAIL 41 0
                     (len (query_payload LabA)))
      ++ query_payload LabA)
     500 (3 + 1) (Z.to_nat (3 + 1)) 0
   ++ [EvStderr (MsgFailedAfter (3 + 1));
       EvStderr (MsgCommandFailed "Query failed")]).
Proof.
  assert (len (zeros MAX_DGRAM_SIZE) = MAX_DGRAM_SIZE) as H
    by (vm_compute; reflexivity).
  assert (always_times_out net_silent) as Hnet by (intros k; cbn; lia).
  assert (0 <= 3 < INT_MAX) as Hr by (unfold INT_MAX; lia).
  assert (Z.to_nat 3 + 1 < 6)%nat as Hfuel by (simpl; lia).
  apply (proj1 (commands_on_silent_network LittleEndian 6 net_silent 41
                  (zeros MAX_DGRAM_SIZE) (zeros MAX_DGRAM_SIZE) 500 3 0
                  H H Hnet Hr Hfuel) LabA date_2025_10_10 4).
  - reflexivity.
  - vm_compute. discriminate.
Defined.

Lemma short_reply_reads_array_witness :
  exists tr,
    cmd_book LittleEndian 1 (net_answers (header_wire answer_header)) 41
      (zeros MAX_DGRAM_SIZE) (zeros MAX_DGRAM_SIZE) LabA LabA 1000 2000
      500 3 0 =
    (Returned tt,
     tr ++ [EvRecvfrom MAX_DGRAM_SIZE;
            EvStdout (MsgBookingCreated (to_int64 (be_value (zeros 8))))]).
Proof.
  apply (short_reply_reads_array LittleEndian 1
           (net_answers (header_wire answer_header)) 41
           (zeros MAX_DGRAM_SIZE) (zeros MAX_DGRAM_SIZE) LabA LabA 1000 2000
           500 3 0 0 answer_header 4 4 (zeros 8)).
  - vm_compute. reflexivity.
  - vm_compute. reflexivity.
  - reflexivity.
  - reflexivity.
  - vm_compute. discriminate.
  - intros j Hj. lia.
  - lia.
  - unfold INT_MAX. lia.
  - cbn. lia.
  - cbn. lia.
  - reflexivity.
  - scenario_header.
  - reflexivity.
  - vm_compute. reflexivity.
  - lia.
Defined.

(** ** Monitoring *)

Lemma notification_decodes_witness :
  callback_message LittleEndian
    (notification_wire update_notification ++ zeros (MAX_DGRAM_SIZE - 50)) =
  Ret (notification_lines update_notification).
Proof.
  apply (notification_decodes LittleEndian update_notification
           (zeros (MAX_DGRAM_SIZE - 50))).
  - split; [|split].
    + scenario_header.
    + vm_compute. discriminate.
    + apply Forall_cons; [cbn; unfold is_int64; lia|].
      apply Forall_cons; [cbn; unfold is_int64; lia|]. apply Forall_nil.
  - vm_compute. reflexivity.
Defined.



Lemma listener_returns_on_failure_witness :
  exists ds post out,
    [Some (notification_wire other_notification); None; Some []] =
      map Some ds ++ None :: post /\
    snd (callback_loop LittleEndian
           [Some (notification_wire other_notification); None; Some []]
           (zeros 64) []) =
      [] ++ out ++ [EvRecvfrom MAX_DGRAM_SIZE; EvPerror "recvfrom failed"] /\
    forall post',
      callback_loop LittleEndian (map Some ds ++ None :: post') (zeros 64) [] =
      (Returned tt,
       snd (callback_loop LittleEndian
              [Some (notification_wire other_notification); None; Some []]
              (zeros 64) [])).
Proof.
  apply (listener_returns_on_failure LittleEndian
           [Some (notification_wire other_notification); None; Some []]
           (zeros 64) []).
  vm_compute. reflexivity.
Defined.

(** ** Options *)

Lemma unknown_arguments_are_skipped_witness :
  parse_options atoi_7 atoi_7
    ["--timeout"; "250"; "--retries"; "5"]%string default_options =
  parse_options atoi_7 atoi_7 ["250"; "--retries"; "5"]%string
    default_options.
Proof.
  apply (unknown_arguments_are_skipped atoi_7 atoi_7 "--timeout"
           ["250"; "--retries"; "5"]%string default_options).
  unfold option_names. cbn [In]. intuition discriminate.
Defined.

Lemma absent_options_keep_values_witness :
  opt_timeout_ms
    (parse_options atoi_7 atoi_7 ["--retries"; "5"]%string default_options) =
  opt_timeout_ms default_options.
Proof.
  apply (proj1 (proj2 (proj2 (absent_options_keep_values atoi_7 atoi_7
                                ["--retries"; "5"]%string default_options)))).
  cbn [In]. intros [H|[H|[]]]; discriminate H.
Defined.

